(** * Nodecaf: the application object of [lib/main.js]

    A shallow embedding of the [Nodecaf] class: option validation, layered
    settings, the content-type gate built by [accept] and the
    [start]/[stop]/[restart] life cycle, together with the properties of
    the life cycle that the specification states.

    [lib/main.js] holds the class twice: the current one (lines 1-165,
    module [Main] below) and the earlier rewrite it replaced (lines
    166-354, module [Earlier]).

    The asynchronous methods are cut at their [await]s: a call is a task
    that goes on piece by piece, and overlapping calls are the
    interleavings of such pieces.  What the object does to the outside
    (logger calls, timers, hook calls, listeners) is kept in a trace.
    User hooks are taken to act on the exposed globals only. *)

From Stdlib Require Import ZArith Lia.
From stdpp Require Import gmap strings list fin_maps.

Set Warnings "-register-all".

(** ** JavaScript values *)

(** Function objects are told apart by what they are: the module's own
    [noop] (the only function carrying the [noop] flag), the default server
    builder [() => http.createServer()], and functions supplied by the
    user, named so that their behaviour can be looked up. *)
Inductive func :=
| noop
| createServer
| closure (name : string).

(** Numbers are integers (ports, delays, status codes); [NaN] and
    fractions do not occur in what is modelled.  Arrays are not values
    here: the one array the code handles, the argument of [accept], has a
    type of its own. *)
Inductive value :=
| VUndefined
| VNull
| VBool (b : bool)
| VNum (n : Z)
| VStr (s : string)
| VObj (o : gmap string value)
| VFun (f : func).

#[global] Instance func_eq_dec : EqDecision func.
Proof. solve_decision. Defined.

(** What a [throw] carries: the [TypeError]s raised by the code itself
    and by the language, or any value raised by user code. *)
Inductive error :=
| TypeError (message : string)
| Raised (v : value).

(** The outcome of evaluating a piece of code that may throw. *)
Inductive completion (A : Type) :=
| Normal (a : A)
| Throw (e : error).
Arguments Normal {A} a.
Arguments Throw {A} e.

#[global] Instance completion_ret : MRet completion := @Normal.
#[global] Instance completion_bind : MBind completion :=
  fun A B f c => match c with Normal a => f a | Throw e => Throw e end.

Definition typeof (v : value) : string :=
  match v with
  | VUndefined => "undefined"
  | VNull => "object"
  | VBool _ => "boolean"
  | VNum _ => "number"
  | VStr _ => "string"
  | VObj _ => "object"
  | VFun _ => "function"
  end.

(** ToBoolean. *)
Definition truthy (v : value) : bool :=
  match v with
  | VUndefined | VNull => false
  | VBool b => b
  | VNum n => negb (n =? 0)%Z
  | VStr s => negb (String.eqb s "")
  | VObj _ | VFun _ => true
  end.

(** [a || b] *)
Definition or_else (a b : value) : value := if truthy a then a else b.

(** [v.k] for the keys the source reads.  None of them is a member of
    [Object.prototype], [String.prototype], [Number.prototype] or
    [Function.prototype], so only own properties can answer; reading a
    property of [undefined] or [null] throws. *)
Definition get (v : value) (k : string) : completion value :=
  match v with
  | VUndefined => Throw (TypeError "Cannot read properties of undefined")
  | VNull => Throw (TypeError "Cannot read properties of null")
  | VObj o => Normal (default VUndefined (o !! k))
  | VFun noop => Normal (if String.eqb k "noop" then VBool true else VUndefined)
  | VFun _ | VBool _ | VNum _ | VStr _ => Normal VUndefined
  end.

(** [target.k = v] inside a class body, which is strict code: creating a
    property on a primitive throws.  A property put on a function object
    is not tracked. *)
Definition set_prop (target : value) (k : string) (v : value) : completion value :=
  match target with
  | VObj o => Normal (VObj (<[k := v]> o))
  | VFun f => Normal (VFun f)
  | VUndefined => Throw (TypeError "Cannot set properties of undefined")
  | VNull => Throw (TypeError "Cannot set properties of null")
  | VBool _ | VNum _ | VStr _ => Throw (TypeError "Cannot create property")
  end.

(** [assert(value, error)] of Node's [assert] module *)
Definition assert (ok : bool) (e : error) : completion unit :=
  if ok then Normal tt else Throw e.

(** SameValueZero, the comparison of [Array.prototype.includes].  Objects
    are compared by reference: an object met in a request is never the
    very object stored in a list built beforehand. *)
Definition same_value_zero (a b : value) : bool :=
  match a, b with
  | VUndefined, VUndefined | VNull, VNull => true
  | VBool x, VBool y => bool_decide (x = y)
  | VNum x, VNum y => (x =? y)%Z
  | VStr x, VStr y => String.eqb x y
  | VFun f, VFun g => bool_decide (f = g)
  | _, _ => false
  end.

(** [v !== ''] is [negb (is_empty_string v)] *)
Definition is_empty_string (v : value) : bool :=
  match v with
  | VStr s => String.eqb s ""
  | _ => false
  end.

(** ** Code that works on a state and may throw

    A throw keeps the assignments made before it. *)
Definition stateful (S A : Type) : Type := S -> completion A * S.

#[global] Instance stateful_ret {S} : MRet (stateful S) := fun A a w => (Normal a, w).
#[global] Instance stateful_bind {S} : MBind (stateful S) :=
  fun A B f m w =>
    match m w with
    | (Normal a, w') => f a w'
    | (Throw e, w') => (Throw e, w')
    end.

Definition lift {S A} (c : completion A) : stateful S A := fun w => (c, w).

Definition skip {S} : stateful S unit := mret tt.

(** ** The response handle *)

(** Modelled from the spec: the response object handed to handlers
    ([lib/api.js] is not part of the sources).  [status] sets the status
    code and [end] finishes the response with what has been written. *)
Record Response := {
  statusCode : Z;
  written : string;
  finished : bool
}.

Definition fresh_response : Response :=
  {| statusCode := 200; written := ""; finished := false |}.

Definition status (code : Z) (r : Response) : Response :=
  {| statusCode := code; written := written r; finished := finished r |}.

Definition end_ (r : Response) : Response :=
  {| statusCode := statusCode r; written := written r; finished := true |}.

(** ** The current class (lines 1-165) *)
Module Main.

(** *** [accept] (lines 11-15, 88-95) *)

Definition SHORT_TYPES : gmap string string :=
  {[ "form" := "multipart/form-data";
     "urlencoded" := "application/x-www-form-urlencoded";
     "json" := "application/json" ]}.

(** [SHORT_TYPES] is an object literal, so a lookup that finds no own
    property goes on to [Object.prototype]. *)
Definition Object_prototype : list string :=
  [ "constructor"; "__defineGetter__"; "__defineSetter__"; "hasOwnProperty";
    "__lookupGetter__"; "__lookupSetter__"; "isPrototypeOf";
    "propertyIsEnumerable"; "toString"; "valueOf"; "__proto__";
    "toLocaleString" ].

(** The argument of [accept]: one entry or an array of entries. *)
Inductive types_arg :=
| One (t : value)
| Many (ts : list value).

(** [[].concat(types)] *)
Definition concat (types : types_arg) : list value :=
  match types with
  | One t => [t]
  | Many ts => ts
  end.

(** An element of the mapped list: a value, or a member that the lookup
    inherited from [Object.prototype]. *)
Inductive entry :=
| Given (t : value)
| Inherited (name : string).

(** The property key [t] is turned into, when it can name a property of
    [SHORT_TYPES] or of its prototype at all: the digits of a number and
    the source text of a function never do. *)
Definition property_key (t : value) : option string :=
  match t with
  | VStr s => Some s
  | VUndefined => Some "undefined"
  | VNull => Some "null"
  | VBool true => Some "true"
  | VBool false => Some "false"
  | VObj _ => Some "[object Object]"
  | VNum _ | VFun _ => None
  end.

(** [t => SHORT_TYPES[t] || t]: every value the table or the prototype
    holds is truthy. *)
Definition short_type (t : value) : entry :=
  match property_key t with
  | Some k =>
      match SHORT_TYPES !! k with
      | Some mime => Given (VStr mime)
      | None => if bool_decide (k ∈ Object_prototype) then Inherited k else Given t
      end
  | None => Given t
  end.

Definition expand (types : types_arg) : list entry := map short_type (concat types).

(** [types.includes(v)] *)
Definition includes (types : list entry) (v : value) : bool :=
  existsb (fun e => match e with Given t => same_value_zero t v | Inherited _ => false end) types.

(** The handler arguments the gate reads ([body] and [req.body]) and what
    it acts on: the response and the continuation [next], of which the
    calls are counted. *)
Record Input := {
  body : value;
  req_body : value
}.

Record Exchange := {
  res : Response;
  next_calls : nat
}.

Definition fresh_exchange : Exchange := {| res := fresh_response; next_calls := 0 |}.

Definition next (x : Exchange) : Exchange :=
  {| res := res x; next_calls := S (next_calls x) |}.

Definition respond (f : Response -> Response) (x : Exchange) : Exchange :=
  {| res := f (res x); next_calls := next_calls x |}.

(** The closure returned by [accept] (lines 90-94). *)
Definition gate (types : list entry) (i : Input) (x : Exchange) : completion Exchange :=
  if negb (is_empty_string (body i)) then
    type ← get (req_body i) "type";
    if negb (includes types type)
    then Normal (respond (fun r => end_ (status 415 r)) x)
    else Normal (next x)
  else Normal (next x).

Definition accept (types : types_arg) : Input -> Exchange -> completion Exchange :=
  gate (expand types).

(** *** The application object *)

Inductive State := standby | starting | running | stopping.

#[global] Instance State_eq_dec : EqDecision State.
Proof. solve_decision. Defined.

(** [this.state] is one of four strings. *)
Definition state_name (s : State) : string :=
  match s with
  | standby => "standby"
  | starting => "starting"
  | running => "running"
  | stopping => "stopping"
  end.

Definition state_value (s : State) : value := VStr (state_name s).

(** Modelled from the spec: the route table built by [new API(app, spec)]
    ([lib/api.js] is not part of the sources); only the builder it was
    made from is kept, and building it is taken not to fail. *)
Record API := { built_from : value }.

(** Modelled from the spec: the transport listener created by
    [startServer] ([lib/http.js] is not part of the sources), with the
    port it was asked to listen on. *)
Record Server := {
  port : value;
  listening : bool
}.

(** Modelled from the spec: the logger, an object of the [golog] package,
    which is not part of the sources.  It is created from [conf.log] and
    keeps those settings; its methods are named by level, and a call of
    one writes a record unless the logger is switched off or filters the
    entry by its level or type, in which case the call returns [false].
    Creating it fills the logger's own defaults into the settings object
    it is given, which is [conf.log] itself.  What is filled in and what
    is filtered is the package's affair (see [Env]). *)
Record Logger := { settings : value }.

Record App := {
  _apiSpec : value;
  _startup : value;
  _shutdown : value;
  _serverBuilder : value;
  _name : value;
  _version : value;
  _shouldParseBody : value;
  _alwaysRebuildAPI : value;
  conf : gmap string value;
  state : State;
  _cors : option value;
  log : option Logger;
  _api : option API;
  global : option (gmap string value);
  _server : option Server
}.

Definition with_conf (c : gmap string value) (a : App) : App :=
  {| _apiSpec := _apiSpec a; _startup := _startup a; _shutdown := _shutdown a;
     _serverBuilder := _serverBuilder a; _name := _name a; _version := _version a;
     _shouldParseBody := _shouldParseBody a; _alwaysRebuildAPI := _alwaysRebuildAPI a;
     conf := c; state := state a; _cors := _cors a; log := log a;
     _api := _api a; global := global a; _server := _server a |}.

Definition with_state (s : State) (a : App) : App :=
  {| _apiSpec := _apiSpec a; _startup := _startup a; _shutdown := _shutdown a;
     _serverBuilder := _serverBuilder a; _name := _name a; _version := _version a;
     _shouldParseBody := _shouldParseBody a; _alwaysRebuildAPI := _alwaysRebuildAPI a;
     conf := conf a; state := s; _cors := _cors a; log := log a;
     _api := _api a; global := global a; _server := _server a |}.

Definition with_cors (c : option value) (a : App) : App :=
  {| _apiSpec := _apiSpec a; _startup := _startup a; _shutdown := _shutdown a;
     _serverBuilder := _serverBuilder a; _name := _name a; _version := _version a;
     _shouldParseBody := _shouldParseBody a; _alwaysRebuildAPI := _alwaysRebuildAPI a;
     conf := conf a; state := state a; _cors := c; log := log a;
     _api := _api a; global := global a; _server := _server a |}.

Definition with_log (l : option Logger) (a : App) : App :=
  {| _apiSpec := _apiSpec a; _startup := _startup a; _shutdown := _shutdown a;
     _serverBuilder := _serverBuilder a; _name := _name a; _version := _version a;
     _shouldParseBody := _shouldParseBody a; _alwaysRebuildAPI := _alwaysRebuildAPI a;
     conf := conf a; state := state a; _cors := _cors a; log := l;
     _api := _api a; global := global a; _server := _server a |}.

Definition with_api (p : option API) (a : App) : App :=
  {| _apiSpec := _apiSpec a; _startup := _startup a; _shutdown := _shutdown a;
     _serverBuilder := _serverBuilder a; _name := _name a; _version := _version a;
     _shouldParseBody := _shouldParseBody a; _alwaysRebuildAPI := _alwaysRebuildAPI a;
     conf := conf a; state := state a; _cors := _cors a; log := log a;
     _api := p; global := global a; _server := _server a |}.

Definition with_global (g : option (gmap string value)) (a : App) : App :=
  {| _apiSpec := _apiSpec a; _startup := _startup a; _shutdown := _shutdown a;
     _serverBuilder := _serverBuilder a; _name := _name a; _version := _version a;
     _shouldParseBody := _shouldParseBody a; _alwaysRebuildAPI := _alwaysRebuildAPI a;
     conf := conf a; state := state a; _cors := _cors a; log := log a;
     _api := _api a; global := g; _server := _server a |}.

Definition with_server (s : option Server) (a : App) : App :=
  {| _apiSpec := _apiSpec a; _startup := _startup a; _shutdown := _shutdown a;
     _serverBuilder := _serverBuilder a; _name := _name a; _version := _version a;
     _shouldParseBody := _shouldParseBody a; _alwaysRebuildAPI := _alwaysRebuildAPI a;
     conf := conf a; state := state a; _cors := _cors a; log := log a;
     _api := _api a; global := global a; _server := s |}.

(** What the application does to the world outside the object: the calls
    it makes to its logger, the timers it arms, the hooks it calls (the
    event marks the call expression, which throws when what it is applied
    to is not a function) and what it asks of the transport (a [Listen]
    is a bind that the transport took). *)
Inductive event :=
| Logged (level type message : string) (args : list value)
| TimerSet (ms : value)
| Called (hook : value)
| Listen (on : value)
| Close.

(** The object together with the trace of what it has done so far (the
    latest event last). *)
Record World := {
  app : App;
  out : list event
}.

(** What the code depends on and cannot see: the [package.json] of the
    embedding package (when [require] finds one), the settings files by
    path, and what each user function does when it is called with the
    application.  A user hook may fill or replace [app.global] and either
    returns or fails; a promise it returns is awaited by the caller, so a
    rejection counts as a failure.

    Further, the transport and the logger: [refused p h] is the error with
    which the transport refuses to listen on port [p] after all that has
    happened ([h]), if it does refuse; [logger_fills] is what creating a
    logger leaves in the settings object it is given; [logger_writes s
    level type] tells whether a logger created with the settings [s]
    writes a record for an entry of that level and type. *)
Inductive outcome :=
| Returns (g : option (gmap string value))
| Fails (e : value) (g : option (gmap string value)).

Record Env := {
  package_json : option (gmap string value);
  conf_file : string -> option (gmap string value);
  behaviour : string -> App -> outcome;
  refused : value -> list event -> option value;
  logger_fills : gmap string value -> gmap string value;
  logger_writes : value -> string -> string -> bool
}.

(** *** Code that reads and writes the object *)
Abbreviation action := (stateful World).

Definition read {A} (f : App -> A) : action A := fun w => (Normal (f (app w)), w).

Definition modify (f : App -> App) : action unit :=
  fun w => (Normal tt, {| app := f (app w); out := out w |}).

Definition emit (e : event) : action unit :=
  fun w => (Normal tt, {| app := app w; out := out w ++ [e] |}).

(** All that has happened so far *)
Definition history : action (list event) := fun w => (Normal (out w), w).

(** *** Construction and settings (lines 20-86) *)

Definition findPkgInfo (env : Env) : gmap string value :=
  match package_json env with
  | Some pkg => pkg
  | None => {[ "name" := VStr "Untitled"; "version" := VStr "0.0.0" ]}
  end.

(** The fields [validateOpts] installs on the object. *)
Record Validated := {
  v_apiSpec : value;
  v_startup : value;
  v_shutdown : value;
  v_serverBuilder : value;
  v_name : value;
  v_version : value
}.

Definition validateOpts (env : Env) (opts : value) : completion Validated :=
  assert (String.eqb (typeof opts) "object")
    (TypeError "Options argument must be an object");;
  api ← get opts "api";
  startup ← get opts "startup";
  shutdown ← get opts "shutdown";
  server ← get opts "server";
  let pkg := findPkgInfo env in
  name ← get opts "name";
  version ← get opts "version";
  let this :=
    {| v_apiSpec := or_else api (VFun noop);
       v_startup := or_else startup (VFun noop);
       v_shutdown := or_else shutdown (VFun noop);
       v_serverBuilder := or_else server (VFun createServer);
       v_name := or_else name (default VUndefined (pkg !! "name"));
       v_version := or_else version (default VUndefined (pkg !! "version")) |} in
  assert (String.eqb (typeof (v_apiSpec this)) "function")
    (TypeError "API builder must be a function");;
  assert (String.eqb (typeof (v_startup this)) "function")
    (TypeError "Startup handler must be a function");;
  assert (String.eqb (typeof (v_shutdown this)) "function")
    (TypeError "Shutdown handler must be a function");;
  assert (String.eqb (typeof (v_serverBuilder this)) "function")
    (TypeError "Server builder must be a function");;
  Normal this.

(** Modelled from the spec: [confort] (an external package) lays a
    source, an object or the path of a settings file, over the snapshot;
    the keys of the new layer override those below, key by key at the top
    level. *)
Definition confort (env : Env) (base : gmap string value) (source : value)
  : completion (gmap string value) :=
  match source with
  | VObj layer => Normal (layer ∪ base)
  | VStr path =>
      match conf_file env path with
      | Some layer => Normal (layer ∪ base)
      | None => Throw (Raised (VStr "Couldn't open file"))
      end
  | _ => Throw (TypeError "Settings must be an object or a path")
  end.

(** Modelled from the spec: [new Logger(this.conf.log)] (line 85).  Given
    an object, the logger fills its defaults into it; the object is the
    one held in [conf.log], so the settings show what was filled in. *)
Definition newLogger (env : Env) (given : value) : action Logger :=
  match given with
  | VObj o =>
      c ← read conf;
      modify (with_conf (<["log" := VObj (logger_fills env o)]> c));;
      mret {| settings := VObj (logger_fills env o) |}
  | _ => mret {| settings := given |}
  end.

Definition setup (env : Env) (objectOrPath : value) : action unit :=
  base ← read conf;
  c ← lift (confort env base (or_else objectOrPath (VObj ∅)));
  modify (with_conf c);;
  modify (with_cors (Some (default VUndefined (c !! "cors"))));;
  (let l := default VUndefined (c !! "log") in
   if truthy l then
     name ← read _name;
     l' ← lift (set_prop l "defaults" (VObj {[ "app" := name ]}));
     modify (with_conf (<["log" := l']> c))
   else skip);;
  c' ← read conf;
  l ← newLogger env (default VUndefined (c' !! "log"));
  modify (with_log (Some l)).

(** [constructor(opts = {})] *)
Definition Nodecaf (env : Env) (opts : value) : completion App :=
  let opts := match opts with VUndefined => VObj ∅ | _ => opts end in
  this ← validateOpts env opts;
  shouldParseBody ← get opts "shouldParseBody";
  alwaysRebuildAPI ← get opts "alwaysRebuildAPI";
  settings ← get opts "conf";
  let a :=
    {| _apiSpec := v_apiSpec this; _startup := v_startup this;
       _shutdown := v_shutdown this; _serverBuilder := v_serverBuilder this;
       _name := v_name this; _version := v_version this;
       _shouldParseBody :=
         or_else shouldParseBody
           (VBool (String.eqb (typeof shouldParseBody) "undefined"));
       _alwaysRebuildAPI := or_else alwaysRebuildAPI (VBool false);
       conf := ∅; state := standby; _cors := None; log := None;
       _api := None; global := None; _server := None |} in
  match setup env settings {| app := a; out := [] |} with
  | (Normal _, w) =>
      Normal (if negb (truthy (_alwaysRebuildAPI (app w)))
              then with_api (Some {| built_from := _apiSpec (app w) |}) (app w)
              else app w)
  | (Throw e, _) => Throw e
  end.

(** *** The life cycle (lines 30-32, 97-163)

    [start], [stop] and [restart] are asynchronous: a call runs up to its
    first [await] and hands back a promise; the rest runs piece by piece,
    each piece when what it waits for is there.  A [Task] is such a call
    at rest: settled, or waiting at one of the [await]s of the source. *)

Inductive Op := Start | Stop.

Inductive Task :=
| Settled (r : completion value)
| Never
| Delayed
| StartingUp
| Binding
| ShuttingDown
| Closing
| Backoff (op : Op)
| Retried (inner : Task)
| Restarting (conf : value) (inner : Task)
| Restarted (inner : Task).

(** The interval of [retryShortly] (line 31). *)
Definition RETRY_MS : Z := 1000.

(** Run one piece of an asynchronous function: a throw rejects the
    promise. *)
Definition piece (m : action Task) (w : World) : Task * World :=
  match m w with
  | (Normal t, w') => (t, w')
  | (Throw e, w') => (Settled (Throw e), w')
  end.

(** [f(this)] for one of the functions held by the object. *)
Definition call (env : Env) (f : value) : action unit :=
  emit (Called f);;
  match f with
  | VFun noop | VFun createServer => skip
  | VFun (closure name) =>
      fun w =>
        match behaviour env name (app w) with
        | Returns g => modify (with_global g) w
        | Fails e g => (modify (with_global g);; lift (Throw (Raised e))) w
        end
  | _ => lift (Throw (TypeError "is not a function"))
  end.

(** Modelled from the spec: [startServer] of [lib/http.js], which is not
    part of the sources.  It binds a transport listener on the configured
    port, waits for it to report ready and logs the start.  A bind that
    the transport refuses makes it fail, and [start()] with it: the
    server has been made by then, but nothing listens.  The error goes to
    the caller of [start()]; whether the failure is logged as well, and
    by whom, is not modelled, and the trace of a refused bind ends with
    what came before it. *)
Definition startServer (env : Env) : action unit :=
  c ← read conf;
  let p := default VUndefined (c !! "port") in
  modify (with_server (Some {| port := p; listening := false |}));;
  h ← history;
  match refused env p h with
  | Some e => lift (Throw (Raised e))
  | None => emit (Listen p)
  end.

(** Modelled from the spec: the rest of [startServer], once the listener
    has reported ready. *)
Definition serverReady : action unit :=
  srv ← read _server;
  match srv with
  | Some l => modify (with_server (Some {| port := port l; listening := true |}))
  | None => skip
  end;;
  name ← read _name;
  version ← read _version;
  c ← read conf;
  emit (Logged "info" "server" "%s v%s is ready on port %s"
          [name; version; default VUndefined (c !! "port")]).

(** Node's [server.close(done)]: stop listening, call back when closed. *)
Definition close (l : Server) : action unit :=
  modify (with_server (Some {| port := port l; listening := false |}));;
  emit Close.

(** [start], lines 99-106 *)
Definition start_enter : action Task :=
  s ← read state;
  if bool_decide (s = running ∨ s = starting) then mret (Settled (Normal (state_value s)))
  else if bool_decide (s = stopping) then
    emit (TimerSet (VNum RETRY_MS));; mret (Backoff Start)
  else
    modify (with_state starting);;
    c ← read conf;
    emit (TimerSet (default VUndefined (c !! "delay")));;
    mret Delayed.

(** [start], lines 108-116 *)
Definition start_delayed (env : Env) : action Task :=
  modify (with_global (Some ∅));;
  rebuild ← read _alwaysRebuildAPI;
  (if truthy rebuild then
     spec ← read _apiSpec;
     modify (with_api (Some {| built_from := spec |}))
   else skip);;
  hook ← read _startup;
  flag ← lift (get hook "noop");
  (if negb (truthy flag) then
     name ← read _name;
     emit (Logged "debug" "app" "Starting up %s..." [name])
   else skip);;
  call env hook;;
  mret StartingUp.

(** [start], lines 118-123 *)
Definition start_hooked (env : Env) : action Task :=
  c ← read conf;
  if truthy (default VUndefined (c !! "port")) then
    startServer env;; mret Binding
  else
    name ← read _name;
    version ← read _version;
    emit (Logged "info" "app" "%s v%s has started" [name; version]);;
    modify (with_state running);;
    mret (Settled (Normal (state_value running))).

Definition start_bound : action Task :=
  serverReady;;
  modify (with_state running);;
  mret (Settled (Normal (state_value running))).

(** [stop], lines 127-138 *)
Definition stop_enter (env : Env) : action Task :=
  s ← read state;
  if bool_decide (s = stopping ∨ s = standby) then mret (Settled (Normal (state_value s)))
  else if bool_decide (s = starting) then
    emit (TimerSet (VNum RETRY_MS));; mret (Backoff Stop)
  else
    modify (with_state stopping);;
    srv ← read _server;
    match srv with
    | Some l => close l
    | None => skip
    end;;
    hook ← read _shutdown;
    call env hook;;
    mret ShuttingDown.

(** [stop], line 139 *)
Definition stop_hooked : action Task := mret Closing.

(** [stop], lines 141-145 *)
Definition stop_closed : action Task :=
  modify (with_global None);;
  emit (Logged "info" "app" "Stopped" []);;
  modify (with_state standby);;
  mret (Settled (Normal (state_value standby))).

(** The call of [start()] or [stop()]: the promise it returns and the
    world it leaves. *)
Definition start (w : World) : Task * World := piece start_enter w.

Definition stop (env : Env) (w : World) : Task * World := piece (stop_enter env) w.

Definition enter (env : Env) (op : Op) : World -> Task * World :=
  match op with
  | Start => start
  | Stop => stop env
  end.

(** A call made from within an asynchronous function *)
Definition promise (f : World -> Task * World) : action Task :=
  fun w => let (t, w') := f w in (Normal t, w').

(** [fn().then(done)] (line 31): the promise of [retryShortly] is
    resolved with what the retried call resolves to; nothing settles it
    when that call rejects. *)
Definition retried (inner : Task) : Task :=
  match inner with
  | Settled (Normal v) => Settled (Normal v)
  | Settled (Throw _) => Never
  | Never => Never
  | _ => Retried inner
  end.

(** [await this.stop()] (line 157) and [await this.start()] (line 162)
    within [restart], which itself resolves to [undefined]. *)
Definition restarting (conf : value) (inner : Task) : Task :=
  match inner with
  | Settled (Throw e) => Settled (Throw e)
  | Never => Never
  | _ => Restarting conf inner
  end.

Definition restarted (inner : Task) : Task :=
  match inner with
  | Settled (Normal _) => Settled (Normal VUndefined)
  | Settled (Throw e) => Settled (Throw e)
  | Never => Never
  | _ => Restarted inner
  end.

(** [restart], lines 158-161 *)
Definition reload (env : Env) (conf : value) : action unit :=
  if String.eqb (typeof conf) "object" then
    emit (Logged "debug" "app" "Reloaded settings" []);;
    setup env conf
  else skip.

(** [restart], lines 158-162 *)
Definition restart_stopped (env : Env) (conf : value) : action Task :=
  reload env conf;;
  t ← promise start;
  mret (restarted t).

Definition restart (env : Env) (conf : value) (w : World) : Task * World :=
  let (t, w') := stop env w in (restarting conf t, w').

(** Let a task at rest go on by one piece. *)
Fixpoint resume (env : Env) (t : Task) (w : World) : Task * World :=
  match t with
  | Settled _ | Never => (t, w)
  | Delayed => piece (start_delayed env) w
  | StartingUp => piece (start_hooked env) w
  | Binding => piece start_bound w
  | ShuttingDown => piece stop_hooked w
  | Closing => piece stop_closed w
  | Backoff op => let (t', w') := enter env op w in (retried t', w')
  | Retried inner => let (t', w') := resume env inner w in (retried t', w')
  | Restarting conf inner =>
      match inner with
      | Settled (Normal _) => piece (restart_stopped env conf) w
      | _ => let (t', w') := resume env inner w in (restarting conf t', w')
      end
  | Restarted inner => let (t', w') := resume env inner w in (restarted t', w')
  end.

(** [await p] when nothing else goes on: the task is resumed until it is
    settled, at most [fuel] times. *)
Fixpoint await (env : Env) (fuel : nat) (p : Task * World) : Task * World :=
  match fuel with
  | O => p
  | S n =>
      match fst p with
      | Settled _ | Never => p
      | t => await env n (resume env t (snd p))
      end
  end.

(** *** Overlapping calls

    Calls may overlap: a task resumes while others are at rest.  A
    [System] is the world with the tasks under way; which of them goes on
    next, and when a new call arrives, is not for the code to decide. *)
Record System := {
  world : World;
  tasks : list Task
}.

Inductive Request :=
| CallStart
| CallStop
| CallRestart (conf : value)
| CallSetup (objectOrPath : value)
| Resume (i : nat).

Definition spawn (r : Task * World) (old : list Task) : System :=
  {| world := snd r; tasks := old ++ [fst r] |}.

Definition step (env : Env) (s : System) (r : Request) : System :=
  match r with
  | CallStart => spawn (start (world s)) (tasks s)
  | CallStop => spawn (stop env (world s)) (tasks s)
  | CallRestart conf => spawn (restart env conf (world s)) (tasks s)
  | CallSetup src => {| world := snd (setup env src (world s)); tasks := tasks s |}
  | Resume i =>
      match tasks s !! i with
      | Some t =>
          let (t', w') := resume env t (world s) in
          {| world := w'; tasks := <[i := t']> (tasks s) |}
      | None => s
      end
  end.

Definition steps (env : Env) (s : System) (rs : list Request) : System :=
  foldl (step env) s rs.

(** The part of its work a task is in the middle of: between the
    assignment of ['starting'] and that of ['running'], or between that of
    ['stopping'] and that of ['standby']. *)
Fixpoint busy (t : Task) : option Op :=
  match t with
  | Delayed | StartingUp | Binding => Some Start
  | ShuttingDown | Closing => Some Stop
  | Retried inner | Restarting _ inner | Restarted inner => busy inner
  | Settled _ | Never | Backoff _ => None
  end.

Definition during (op : Op) : State :=
  match op with
  | Start => starting
  | Stop => stopping
  end.

(** Events of one kind in a trace *)
Definition is_listen (e : event) : bool :=
  match e with Listen _ => true | _ => false end.

Definition is_reload (e : event) : bool :=
  match e with
  | Logged "debug" "app" "Reloaded settings" [] => true
  | _ => false
  end.

Definition count (p : event -> bool) (l : list event) : nat := length (List.filter p l).

End Main.

(** ** The earlier class (lines 166-354)

    Only construction, [setup] and [start] are taken up, with the fields
    they read: they are what gives this class a port of its own accord.
    The router, the route proxy, the logger and the globals play no part
    in that and are left out. *)
Module Earlier.

(** [this.running] and [this.stopped] hold [false] or a promise. *)
Inductive Latch := Off | Pending | Resolved.

Definition latched (l : Latch) : bool :=
  match l with
  | Off => false
  | Pending | Resolved => true
  end.

(** The server made by [https.createServer] or [http.createServer] and
    the port it listens on. *)
Record Server := {
  secure : bool;
  port : value
}.

(** [this.conf] is the object of the [Confort] instance itself, so what
    [setup] writes into it is there when the next layer comes. *)
Record App := {
  _startup : value;
  _shutdown : value;
  _api : value;
  alwaysRebuildAPI : value;
  conf : gmap string value;
  name : value;
  version : value;
  running : Latch;
  stopped : Latch;
  _ssl : option (value * value);
  _server : option Server
}.

Definition with_conf (c : gmap string value) (a : App) : App :=
  {| _startup := _startup a; _shutdown := _shutdown a; _api := _api a;
     alwaysRebuildAPI := alwaysRebuildAPI a; conf := c; name := name a;
     version := version a; running := running a; stopped := stopped a;
     _ssl := _ssl a; _server := _server a |}.

Definition with_running (l : Latch) (a : App) : App :=
  {| _startup := _startup a; _shutdown := _shutdown a; _api := _api a;
     alwaysRebuildAPI := alwaysRebuildAPI a; conf := conf a; name := name a;
     version := version a; running := l; stopped := stopped a;
     _ssl := _ssl a; _server := _server a |}.

Definition with_stopped (l : Latch) (a : App) : App :=
  {| _startup := _startup a; _shutdown := _shutdown a; _api := _api a;
     alwaysRebuildAPI := alwaysRebuildAPI a; conf := conf a; name := name a;
     version := version a; running := running a; stopped := l;
     _ssl := _ssl a; _server := _server a |}.

Definition with_ssl (m : option (value * value)) (a : App) : App :=
  {| _startup := _startup a; _shutdown := _shutdown a; _api := _api a;
     alwaysRebuildAPI := alwaysRebuildAPI a; conf := conf a; name := name a;
     version := version a; running := running a; stopped := stopped a;
     _ssl := m; _server := _server a |}.

Definition with_server (l : option Server) (a : App) : App :=
  {| _startup := _startup a; _shutdown := _shutdown a; _api := _api a;
     alwaysRebuildAPI := alwaysRebuildAPI a; conf := conf a; name := name a;
     version := version a; running := running a; stopped := stopped a;
     _ssl := _ssl a; _server := l |}.

Inductive event :=
| Logged (level type message : string) (args : list value)
| Called (f : value)
| Listen (on : Server).

Record World := {
  app : App;
  out : list event
}.

(** The files [fs.readFileSync] can read, the settings files, the
    [package.json] found, and which user functions throw or reject when
    called (and with what). *)
Record Env := {
  package_json : option (gmap string value);
  conf_file : string -> option (gmap string value);
  files : string -> option string;
  failing : string -> App -> option value
}.

Abbreviation action := (stateful World).

Definition read {A} (f : App -> A) : action A := fun w => (Normal (f (app w)), w).

Definition modify (f : App -> App) : action unit :=
  fun w => (Normal tt, {| app := f (app w); out := out w |}).

Definition emit (e : event) : action unit :=
  fun w => (Normal tt, {| app := app w; out := out w ++ [e] |}).

Definition findPkgInfo (env : Env) : gmap string value :=
  match package_json env with
  | Some pkg => pkg
  | None => {[ "name" := VStr "Untitled"; "version" := VStr "0.0.0" ]}
  end.

Definition readFileSync (env : Env) (path : value) : completion value :=
  match path with
  | VStr p =>
      match files env p with
      | Some content => Normal (VStr content)
      | None => Throw (Raised (VStr "ENOENT"))
      end
  | _ => Throw (TypeError "The path argument must be a string")
  end.

(** Modelled from the spec: [addLayer] of the [Confort] class (an
    external package), which lays an object or a settings file over the
    snapshot, key by key at the top level. *)
Definition addLayer (env : Env) (source : value) : action unit :=
  base ← read conf;
  match source with
  | VObj layer => modify (with_conf (layer ∪ base))
  | VStr path =>
      match conf_file env path with
      | Some layer => modify (with_conf (layer ∪ base))
      | None => lift (Throw (Raised (VStr "Couldn't open file")))
      end
  | _ => lift (Throw (TypeError "Settings must be an object or a path"))
  end.

(** [f(...)] for a function held by the object *)
Definition call (env : Env) (f : value) : action unit :=
  emit (Called f);;
  match f with
  | VFun noop | VFun createServer => skip
  | VFun (closure name) =>
      a ← read id;
      match failing env name a with
      | Some e => lift (Throw (Raised e))
      | None => skip
      end
  | _ => lift (Throw (TypeError "is not a function"))
  end.

(** [setup], lines 233-256 *)
Definition setup (env : Env) (objectOrPath : value) : action unit :=
  addLayer env (or_else objectOrPath (VObj ∅));;
  c ← read conf;
  (let ssl := default VUndefined (c !! "ssl") in
   if truthy ssl then
     keyPath ← lift (get ssl "key");
     key ← lift (readFileSync env keyPath);
     certPath ← lift (get ssl "cert");
     cert ← lift (readFileSync env certPath);
     modify (with_ssl (Some (key, cert)))
   else modify (with_ssl None));;
  ssl ← read _ssl;
  modify (with_conf
    (<["port" := or_else (default VUndefined (c !! "port"))
                   (VNum (if bool_decide (is_Some ssl) then 443 else 80))]> c));;
  rebuild ← read alwaysRebuildAPI;
  if truthy rebuild then api ← read _api; call env api else skip.

(** [constructor(conf)], lines 203-231 *)
Definition Nodecaf (env : Env) (settings : value) : completion App :=
  let pkg := findPkgInfo env in
  let a :=
    {| _startup := VFun noop; _shutdown := VFun noop; _api := VFun noop;
       alwaysRebuildAPI := VUndefined; conf := ∅;
       name := default VUndefined (pkg !! "name");
       version := default VUndefined (pkg !! "version");
       running := Off; stopped := Resolved; _ssl := None; _server := None |} in
  match setup env settings {| app := a; out := [] |} with
  | (Normal _, w) => Normal (app w)
  | (Throw e, _) => Throw e
  end.

(** How a call of [start] ends when nothing else goes on: with the value
    it resolves to ([false], or the object itself), with a rejection, or
    not at all as long as the promise in [this.stopped] is pending. *)
Inductive answer :=
| Answered (v : value)
| This
| Rejected (e : error)
| Waiting.

(** [start], lines 290-319, past the two guards.  The wait for the
    start-up delay leaves no mark on the object. *)
Definition start_body (env : Env) : action unit :=
  modify (with_running Pending);;
  rebuild ← read alwaysRebuildAPI;
  (if truthy rebuild then api ← read _api; call env api else skip);;
  hook ← read _startup;
  flag ← lift (get hook "noop");
  (if negb (truthy flag) then
     n ← read name;
     emit (Logged "debug" "server" "Starting up %s..." [n])
   else skip);;
  call env hook;;
  ssl ← read _ssl;
  c ← read conf;
  (let l := {| secure := bool_decide (is_Some ssl);
               port := default VUndefined (c !! "port") |} in
   modify (with_server (Some l));;
   emit (Listen l));;
  n ← read name;
  v ← read version;
  emit (Logged "info" "server" "%s v%s is ready on port %s"
          [n; v; default VUndefined (c !! "port")]);;
  modify (with_running Resolved);;
  modify (with_stopped Off).

(** [start], lines 283-320 *)
Definition start (env : Env) (w : World) : answer * World :=
  if latched (running (app w)) then (Answered (VBool false), w)
  else
    match stopped (app w) with
    | Pending => (Waiting, w)
    | _ =>
        match start_body env w with
        | (Normal _, w') => (This, w')
        | (Throw e, w') => (Rejected e, w')
        end
    end.

Definition is_listen (e : event) : bool :=
  match e with Listen _ => true | _ => false end.

End Earlier.

(** ** The current class: [call] (lines 148-150) *)
Module Methods.
Import Main.

(** What a function run through [call] finds in its first argument: an
    exposed global, the settings, or the logger. *)
Inductive member :=
| Exposed (v : value)
| Settings (c : gmap string value)
| TheLogger (l : option Logger).

(** [{ ...this.global, conf: this.conf, log: this.log }] *)
Definition input (a : App) : gmap string member :=
  <["log" := TheLogger (log a)]>
    (<["conf" := Settings (conf a)]>
       (Exposed <$> default ∅ (global a))).

(** [call(fn, ...args)] *)
Definition call {R} (fn : gmap string member -> list value -> R) (args : list value)
  (a : App) : R :=
  fn (input a) args.

End Methods.

(** ** The earlier class: the setters, [stop] and [restart]
    (lines 258-275, 322-352) *)
Module EarlierLife.
Import Earlier.

Definition with_startup (f : value) (a : App) : App :=
  {| _startup := f; _shutdown := _shutdown a; _api := _api a;
     alwaysRebuildAPI := alwaysRebuildAPI a; conf := conf a; name := name a;
     version := version a; running := running a; stopped := stopped a;
     _ssl := _ssl a; _server := _server a |}.

Definition with_shutdown (f : value) (a : App) : App :=
  {| _startup := _startup a; _shutdown := f; _api := _api a;
     alwaysRebuildAPI := alwaysRebuildAPI a; conf := conf a; name := name a;
     version := version a; running := running a; stopped := stopped a;
     _ssl := _ssl a; _server := _server a |}.

Definition with_api (f : value) (a : App) : App :=
  {| _startup := _startup a; _shutdown := _shutdown a; _api := f;
     alwaysRebuildAPI := alwaysRebuildAPI a; conf := conf a; name := name a;
     version := version a; running := running a; stopped := stopped a;
     _ssl := _ssl a; _server := _server a |}.

(** [startup(handler)], lines 258-262 *)
Definition startup (handler : value) : action unit :=
  if negb (String.eqb (typeof handler) "function")
  then lift (Throw (TypeError "Startup handler must be a function"))
  else modify (with_startup handler).

(** [shutdown(handler)], lines 264-268 *)
Definition shutdown (handler : value) : action unit :=
  if negb (String.eqb (typeof handler) "function")
  then lift (Throw (TypeError "Shutdown handler must be a function"))
  else modify (with_shutdown handler).

(** [api(builder)], lines 270-275 *)
Definition api (env : Env) (builder : value) : action unit :=
  if negb (String.eqb (typeof builder) "function")
  then lift (Throw (TypeError "API Builder must be a function"))
  else
    modify (with_api builder);;
    f ← read _api;
    call env f.

(** Besides what construction, [setup] and [start] do, [stop] closes the
    server. *)
Inductive effect :=
| Did (e : event)
| Closed (l : Server).

(** The object with all it has done so far, the latest last *)
Record Run := {
  obj : App;
  done : list effect
}.

(** Code of the part above, run on the object *)
Definition lifted {A} (m : action A) : stateful Run A :=
  fun r =>
    let (c, w) := m {| app := obj r; out := [] |} in
    (c, {| obj := app w; done := done r ++ map Did (out w) |}).

(** [this._server.close(done)] *)
Definition close : stateful Run unit :=
  fun r =>
    match _server (obj r) with
    | Some l => (Normal tt, {| obj := obj r; done := done r ++ [Closed l] |})
    | None => (Throw (TypeError "Cannot read properties of undefined"), r)
    end.

(** [stop], lines 328-342, past the two guards *)
Definition stop_body (env : Env) : stateful Run unit :=
  lifted (modify (with_stopped Pending));;
  close;;
  hook ← lifted (read _shutdown);
  lifted (call env hook);;
  lifted (emit (Logged "info" "server" "Stopped" []));;
  lifted (modify (with_stopped Resolved));;
  lifted (modify (with_running Off)).

(** [stop], lines 322-343: it answers [false], or [undefined] once it
    has run, and waits as long as the promise in [this.running] is
    pending. *)
Definition stop (env : Env) (r : Run) : answer * Run :=
  if latched (stopped (obj r)) then (Answered (VBool false), r)
  else
    match running (obj r) with
    | Pending => (Waiting, r)
    | _ =>
        match stop_body env r with
        | (Normal _, r') => (Answered VUndefined, r')
        | (Throw e, r') => (Rejected e, r')
        end
    end.

(** [start] run on the object with all it has done *)
Definition start (env : Env) (r : Run) : answer * Run :=
  let (ans, w) := Earlier.start env {| app := obj r; out := [] |} in
  (ans, {| obj := app w; done := done r ++ map Did (out w) |}).

(** [restart], lines 347-350 *)
Definition reload (env : Env) (conf : value) : stateful Run unit :=
  if String.eqb (typeof conf) "object" then
    lifted (emit (Logged "debug" "server" "Reloaded settings" []));;
    lifted (setup env conf)
  else skip.

(** [restart], lines 345-352 *)
Definition restart (env : Env) (conf : value) (r : Run) : answer * Run :=
  match stop env r with
  | (Answered _, r1) =>
      match reload env conf r1 with
      | (Normal _, r2) =>
          match start env r2 with
          | (Answered _, r3) | (This, r3) => (Answered VUndefined, r3)
          | other => other
          end
      | (Throw e, r2) => (Rejected e, r2)
      end
  | other => other
  end.

End EarlierLife.

(** ** Sample inputs *)
Module Samples.
Import Main.

(** The levels of the logger, lowest first *)
Definition rank (level : string) : nat :=
  match level with
  | "info" => 1
  | "warn" => 2
  | "error" => 3
  | "fatal" => 4
  | _ => 0
  end.

(** A logger that is switched off by [log: false] and otherwise writes
    the entries that are not below its level and, when its settings name
    a type, are of that type *)
Definition sample_logger (s : value) (level type : string) : bool :=
  match s with
  | VBool false => false
  | VObj o =>
      (match o !! "level" with
       | Some (VStr lowest) => rank lowest <=? rank level
       | _ => true
       end)
      && (match o !! "type" with
          | Some (VStr only) => String.eqb only type
          | _ => true
          end)
  | _ => true
  end.

(** No [package.json] found, no settings files, and user functions:
    ["connect"] exposes a [db] entry and returns; ["refuse"] throws the
    string ["no database"]; ["needs_db"] throws it unless the settings name
    a database; anything else returns at once.  The transport refuses the
    ports that are no port numbers and takes the others; the logger is
    [sample_logger], and fills in its level when none is set. *)
Definition env : Env :=
  {| package_json := None;
     conf_file := fun _ => None;
     behaviour := fun name a =>
       if String.eqb name "connect" then Returns (Some {[ "db" := VStr "handle" ]})
       else if String.eqb name "refuse" then Fails (VStr "no database") (global a)
       else if String.eqb name "needs_db" then
         if truthy (default VUndefined (conf a !! "db")) then Returns (global a)
         else Fails (VStr "no database") (global a)
       else Returns (global a);
     refused := fun p _ =>
       match p with
       | VNum n => if ((0 <=? n) && (n <? 65536))%Z then None
                   else Some (VStr "ERR_SOCKET_BAD_PORT")
       | _ => Some (VStr "ERR_SOCKET_BAD_PORT")
       end;
     logger_fills := fun o =>
       match o !! "level" with
       | Some _ => o
       | None => <["level" := VStr "debug"]> o
       end;
     logger_writes := sample_logger |}.

(** [new Nodecaf({ startup: needs_db, conf: { db: 'mongo' } })] *)
Definition with_database : value :=
  VObj {[ "startup" := VFun (closure "needs_db");
          "conf" := VObj {[ "db" := VStr "mongo" ]} ]}.

(** The server is started; the database setting is then cleared;
    [stop()] is called and, before it has gone on, [start()]; the stop
    runs to its end; the timer of the waiting [start()] fires, and the
    delay of the retried call passes. *)
Definition stop_then_start : list Request :=
  [ CallStart; Resume 0; Resume 0;
    CallSetup (VObj {[ "db" := VStr "" ]});
    CallStop; CallStart;
    Resume 1; Resume 1;
    Resume 2; Resume 2 ].

(** [new Nodecaf()] as it stands after construction, written out. *)
Definition plain : App :=
  {| _apiSpec := VFun noop; _startup := VFun noop; _shutdown := VFun noop;
     _serverBuilder := VFun createServer;
     _name := VStr "Untitled"; _version := VStr "0.0.0";
     _shouldParseBody := VBool true; _alwaysRebuildAPI := VBool false;
     conf := ∅; state := standby; _cors := Some VUndefined;
     log := Some {| settings := VUndefined |};
     _api := Some {| built_from := VFun noop |};
     global := None; _server := None |}.

Definition with_startup (f : value) (a : App) : App :=
  {| _apiSpec := _apiSpec a; _startup := f; _shutdown := _shutdown a;
     _serverBuilder := _serverBuilder a; _name := _name a; _version := _version a;
     _shouldParseBody := _shouldParseBody a; _alwaysRebuildAPI := _alwaysRebuildAPI a;
     conf := conf a; state := state a; _cors := _cors a; log := log a;
     _api := _api a; global := global a; _server := _server a |}.

Definition with_shutdown (f : value) (a : App) : App :=
  {| _apiSpec := _apiSpec a; _startup := _startup a; _shutdown := f;
     _serverBuilder := _serverBuilder a; _name := _name a; _version := _version a;
     _shouldParseBody := _shouldParseBody a; _alwaysRebuildAPI := _alwaysRebuildAPI a;
     conf := conf a; state := state a; _cors := _cors a; log := log a;
     _api := _api a; global := global a; _server := _server a |}.

Definition quiet (a : App) : World := {| app := a; out := [] |}.

(** A server running without a listener, globals exposed *)
Definition headless : App := with_global (Some ∅) (with_state running plain).

(** A server listening on port 8080 *)
Definition listening8080 : App :=
  with_server (Some {| port := VNum 8080; listening := true |})
    (with_conf {[ "port" := VNum 8080 ]} headless).

(** [new Nodecaf({ conf: { port: 8080 } })], not started yet *)
Definition configured8080 : App := with_conf {[ "port" := VNum 8080 ]} plain.

(** A request with an XML body and one with no body at all *)
Definition xml_post : Input :=
  {| body := VStr "<a/>"; req_body := VObj {[ "type" := VStr "text/xml" ]} |}.

Definition empty_post : Input :=
  {| body := VStr ""; req_body := VObj {[ "type" := VStr "text/xml" ]} |}.

Definition json_or_html : types_arg := Many [VStr "json"; VStr "text/html"].

Definition earlier_env : Earlier.Env :=
  {| Earlier.package_json := None;
     Earlier.conf_file := fun _ => None;
     Earlier.files := fun path =>
       if String.eqb path "key.pem" then Some "KEY"
       else if String.eqb path "cert.pem" then Some "CERT"
       else None;
     Earlier.failing := fun _ _ => None |}.

Definition ssl_settings : gmap string value :=
  {[ "ssl" := VObj {[ "key" := VStr "key.pem"; "cert" := VStr "cert.pem" ]} ]}.

(** The earlier class built with [ssl] settings and no port *)
Definition secured : Earlier.App :=
  {| Earlier._startup := VFun noop; Earlier._shutdown := VFun noop;
     Earlier._api := VFun noop; Earlier.alwaysRebuildAPI := VUndefined;
     Earlier.conf := <["port" := VNum 443]> ssl_settings;
     Earlier.name := VStr "Untitled"; Earlier.version := VStr "0.0.0";
     Earlier.running := Earlier.Off; Earlier.stopped := Earlier.Resolved;
     Earlier._ssl := Some (VStr "KEY", VStr "CERT"); Earlier._server := None |}.

End Samples.

Import Main.

(** ** Notions used in the statements *)

Definition builders : list string := ["api"; "startup"; "shutdown"; "server"].

(** An options object one of whose four functions is given as a truthy
    value that is not a function *)
Definition misconfigured (o : gmap string value) : bool :=
  existsb (fun k => let v := default VUndefined (o !! k) in
                    truthy v && negb (String.eqb (typeof v) "function")) builders.

(** A hook that returns whenever it is called: the no-op, or a user
    function that never fails. *)
Definition obliging (env : Env) (f : value) : Prop :=
  match f with
  | VFun noop | VFun createServer => True
  | VFun (closure name) => forall a, exists g, behaviour env name a = Returns g
  | _ => False
  end.

(** A user function that fails with [e] whenever it is called *)
Definition failing_with (env : Env) (e : value) (f : value) : Prop :=
  exists name, f = VFun (closure name) /\
               forall a, exists g, behaviour env name a = Fails e g.

(** The object after a [stop()] that ran to its end: the listener, if
    there is one, closed, the globals deleted, the state ['standby']. *)
Definition stopped_app (a : App) : App :=
  with_state standby
    (with_global None
       (match _server a with
        | Some l => with_server (Some {| port := port l; listening := false |}) a
        | None => a
        end)).

Definition stop_trace (a : App) : list event :=
  (if _server a is Some _ then [Close] else [])
  ++ [Called (_shutdown a); Logged "info" "app" "Stopped" []].

(** The configured port, [this.conf.port] *)
Definition conf_port (a : App) : value := default VUndefined (conf a !! "port").

(** [if(this._alwaysRebuildAPI) this._api = new API(...)] (lines 110-111) *)
Definition rebuilt (a : App) : App :=
  if truthy (_alwaysRebuildAPI a)
  then with_api (Some {| built_from := _apiSpec a |}) a
  else a.

(** What [start] logs before it calls a hook that is not the no-op *)
Definition startup_notice (a : App) : list event :=
  match _startup a with
  | VFun noop => []
  | _ => [Logged "debug" "app" "Starting up %s..." [_name a]]
  end.

(** The object after a [start()] that ran to its end, the hook having
    left [g] as the globals; and what such a call adds to the trace. *)
Definition started_app (g : option (gmap string value)) (a : App) : App :=
  let a1 := with_global g (rebuilt (with_global (Some ∅) (with_state starting a))) in
  with_state running
    (if truthy (conf_port a)
     then with_server (Some {| port := conf_port a; listening := true |}) a1
     else a1).

Definition start_trace (a : App) : list event :=
  [TimerSet (default VUndefined (conf a !! "delay"))]
  ++ startup_notice a
  ++ [Called (_startup a)]
  ++ (if truthy (conf_port a)
      then [Listen (conf_port a);
            Logged "info" "server" "%s v%s is ready on port %s"
              [_name a; _version a; conf_port a]]
      else [Logged "info" "app" "%s v%s has started" [_name a; _version a]]).

(** A port that the transport takes whenever it is asked *)
Definition taken (env : Env) (p : value) : Prop := forall h, refused env p h = None.

(** An object whose [start()] can bind what it has to: no port is
    configured, or the transport takes the one that is *)
Definition bindable (env : Env) (a : App) : Prop :=
  truthy (conf_port a) = true -> taken env (conf_port a).

(** What the pieces that only run hooks and log leave as it was *)
Definition kept (w w' : World) : Prop :=
  state (app w') = state (app w) /\
  conf (app w') = conf (app w) /\
  _name (app w') = _name (app w) /\
  _server (app w') = _server (app w) /\
  count is_reload (out w') = count is_reload (out w) /\
  count is_listen (out w') = count is_listen (out w).

Definition is_busy (t : Task) : bool :=
  match busy t with
  | Some _ => true
  | None => false
  end.

(** The number of tasks in the middle of a transition *)
Definition underway (l : list Task) : nat := length (List.filter is_busy l).

(** At most one task is in the middle of a transition, and the state
    says which transition it is. *)
Definition exclusive (s : System) : Prop :=
  underway (tasks s) <= 1 /\
  forall i t op,
    tasks s !! i = Some t -> busy t = Some op ->
    state (app (world s)) = during op.

(** What [setup] leaves as it was *)
Definition reconfigured (w w' : World) : Prop :=
  state (app w') = state (app w) /\
  _name (app w') = _name (app w) /\
  out w' = out w /\
  _startup (app w') = _startup (app w) /\
  _shutdown (app w') = _shutdown (app w).

(** A piece of code that takes a world to one related to it by [R],
    whether it returns or throws, and whose result, when it returns,
    satisfies [Q]. *)
Definition respects (R : World -> World -> Prop) {A} (m : action A) (Q : A -> Prop) : Prop :=
  forall w r w', m w = (r, w') -> R w w' /\ forall a, r = Normal a -> Q a.

(** The settings as [setup] leaves them once the layer is laid: the [log]
    settings, when they are an object, get the [defaults] entry and then
    what the logger fills in. *)
Definition log_defaults (env : Env) (name : value) (c : gmap string value)
  : gmap string value :=
  match c !! "log" with
  | Some (VObj l) =>
      <["log" := VObj (logger_fills env (<["defaults" := VObj {[ "app" := name ]}]> l))]> c
  | _ => c
  end.

(** What a task adds to the number of tasks under way *)
Definition weight (t : Task) : nat := if is_busy t then 1 else 0.

(** Requests that are calls of [start()] or let a task go on *)
Definition start_or_resume (r : Request) : Prop :=
  match r with
  | CallStart | Resume _ => True
  | _ => False
  end.

(** The tasks that calls of [start()] alone give rise to *)
Definition simple (t : Task) : Prop :=
  match t with
  | Settled _ | Delayed | StartingUp | Binding => True
  | _ => False
  end.

(** A call that has not resolved *)
Definition unfinished (t : Task) : Prop := forall v, t <> Settled (Normal v).

(** A call that has resolved *)
Definition resolved (t : Task) : Prop := exists v, t = Settled (Normal v).

(** How far a system that began at [w0] in ['standby'] and has seen calls
    of [start()] only has come, and how many listeners it has bound. *)
Definition once_bound (w0 : World) (s : System) : Prop :=
  let b0 := count is_listen (out w0) in
  let b := count is_listen (out (world s)) in
  conf_port (app (world s)) = conf_port (app w0) /\
  Forall simple (tasks s) /\
  match state (app (world s)) with
  | standby => tasks s = [] /\ b = b0
  | starting =>
      (exists i t, tasks s !! i = Some t /\ unfinished t) /\
      ((b = b0 /\ forall i, tasks s !! i <> Some Binding) \/
       (b = b0 + 1 /\ truthy (conf_port (app w0)) = true /\
        exists j, tasks s !! j = Some Binding))
  | running => b = b0 + (if truthy (conf_port (app w0)) then 1 else 0)
  | stopping => False
  end.

(** What no piece of [start] or [stop] changes: the settings, the name,
    and how often a reload has been logged. *)
Definition settings_kept (w w' : World) : Prop :=
  conf (app w') = conf (app w) /\
  _name (app w') = _name (app w) /\
  count is_reload (out w') = count is_reload (out w).





(** A task of [start] or [stop], not of [restart] *)
Fixpoint plain (t : Task) : Prop :=
  match t with
  | Restarting _ _ | Restarted _ => False
  | Retried inner => plain inner
  | _ => True
  end.

(** A task that is neither settled nor abandoned *)
Definition pending (t : Task) : Prop :=
  match t with
  | Settled _ | Never => False
  | _ => True
  end.

(** [log] settings on which [setup] can put the [defaults] entry: absent,
    falsy, or an object *)
Definition loggable (v : option value) : Prop :=
  match v with
  | Some (VBool b) => b = false
  | Some (VNum n) => n = 0%Z
  | Some (VStr s) => s = ""
  | _ => True
  end.

(** The declared types that a list of type names lets through: what an
    alias in the list stands for, and a name in the list that is neither
    an alias nor found on [Object.prototype] *)
Definition listed (ts : list string) (s : string) : Prop :=
  (s ∈ ts /\ SHORT_TYPES !! s = None /\ s ∉ Object_prototype) \/
  (exists k, k ∈ ts /\ SHORT_TYPES !! k = Some s).

(** What [setup] may write: the settings, the CORS handler and the logger *)
Definition only_settings (w w' : World) : Prop :=
  exists c k l,
    app w' = with_log l (with_cors k (with_conf c (app w))) /\ out w' = out w.

(** A value that cannot carry a property: assigning one throws *)
Definition primitive (v : value) : bool :=
  match v with
  | VBool _ | VNum _ | VStr _ => true
  | _ => false
  end.

(** The object as the startup hook finds it: ['starting'], the globals
    empty, the API rebuilt if it is to be *)
Definition prepared (a : App) : App :=
  rebuilt (with_global (Some ∅) (with_state starting a)).

(** The object as the shutdown hook finds it: ['stopping'], the listener,
    if there is one, told to close *)
Definition closing (a : App) : App :=
  match _server a with
  | Some l => with_server (Some {| port := port l; listening := false |}) (with_state stopping a)
  | None => with_state stopping a
  end.

(** A system caught in a transition that no task carries on *)
Definition wedged (s : System) : Prop :=
  (state (app (world s)) = starting \/ state (app (world s)) = stopping) /\
  underway (tasks s) = 0.

(** Nothing is exposed while the application is in ['standby'] *)
Definition clean (w : World) : Prop :=
  state (app w) = standby -> global (app w) = None.

(** What the promise of [retryShortly] makes of the way the retried call
    ends *)
Definition passed_on (r : completion value) : Task :=
  match r with
  | Normal v => Settled (Normal v)
  | Throw _ => Never
  end.

(** [await app.start(); await app.stop()] with nothing else going on *)
Definition cycle (env : Env) (w : World) : World :=
  snd (await env 2 (stop env (snd (await env 3 (start w))))).

(** The requests to close a listener in a trace *)
Definition is_close (e : event) : bool :=
  match e with Close => true | _ => false end.

(** A function of the earlier class's user that returns whenever it is
    called *)
Definition harmless (env : Earlier.Env) (f : value) : Prop :=
  match f with
  | VFun (closure name) => forall a, Earlier.failing env name a = None
  | VFun _ => True
  | _ => False
  end.

(** What [start] of the earlier class logs before it calls a hook that is
    not the no-op *)
Definition earlier_notice (a : Earlier.App) : list Earlier.event :=
  match Earlier._startup a with
  | VFun noop => []
  | _ => [Earlier.Logged "debug" "server" "Starting up %s..." [Earlier.name a]]
  end.

(** The server [start] of the earlier class makes *)
Definition earlier_server (a : Earlier.App) : Earlier.Server :=
  {| Earlier.secure := bool_decide (is_Some (Earlier._ssl a));
     Earlier.port := default VUndefined (Earlier.conf a !! "port") |}.

(** The object after a [start()] of the earlier class that ran to its end *)
Definition earlier_started (a : Earlier.App) : Earlier.App :=
  Earlier.with_stopped Earlier.Off
    (Earlier.with_running Earlier.Resolved
       (Earlier.with_server (Some (earlier_server a))
          (Earlier.with_running Earlier.Pending a))).

(** What such a call adds to the trace *)
Definition earlier_start_trace (a : Earlier.App) : list Earlier.event :=
  earlier_notice a
  ++ [Earlier.Called (Earlier._startup a);
      Earlier.Listen (earlier_server a);
      Earlier.Logged "info" "server" "%s v%s is ready on port %s"
        [Earlier.name a; Earlier.version a;
         default VUndefined (Earlier.conf a !! "port")]].

(** An object of the earlier class on which [start] goes to work: not
    running, no stop under way, the API not rebuilt at each start (nothing
    in the class sets that flag), a function as startup hook *)
Definition startable (a : Earlier.App) : Prop :=
  Earlier.running a = Earlier.Off /\
  Earlier.stopped a <> Earlier.Pending /\
  Earlier.alwaysRebuildAPI a = VUndefined /\
  exists f, Earlier._startup a = VFun f.

(** The port [setup] of the earlier class settles on: the one configured,
    if it is truthy, else 443 with [ssl] settings and 80 without *)
Definition settled_port (c : gmap string value) : value :=
  or_else (default VUndefined (c !! "port"))
    (VNum (if truthy (default VUndefined (c !! "ssl")) then 443 else 80)).



(** ** The content-type gate *)

Lemma includes_expand_json :
  includes (expand Samples.json_or_html) (VStr "application/json") = true.
Proof. reflexivity. Qed.

(** C1 (as amended): a request whose body is not the empty string and
    whose [req.body.type] is none of the expanded types is answered with
    status 415 and an empty body, the response is finished, and [next] is
    not called. *)
Theorem accept_rejects_unlisted_type :
  forall (types : types_arg) (i : Input) (x : Exchange) (type : value),
    is_empty_string (body i) = false ->
    get (req_body i) "type" = Normal type ->
    includes (expand types) type = false ->
    exists x',
      accept types i x = Normal x' /\
      statusCode (res x') = 415%Z /\
      written (res x') = written (res x) /\
      finished (res x') = true /\
      next_calls x' = next_calls x.
Proof.
  intros types i x type Hbody Htype Hout.
  unfold accept, gate. rewrite Hbody, Htype. simpl. rewrite Hout. simpl.
  eexists. split; [reflexivity|]. simpl. auto.
Qed.

Lemma accept_rejects_unlisted_type_witness :
  exists x',
    accept Samples.json_or_html Samples.xml_post fresh_exchange = Normal x' /\
    statusCode (res x') = 415%Z /\
    written (res x') = written (res fresh_exchange) /\
    finished (res x') = true /\
    next_calls x' = next_calls fresh_exchange.
Proof.
  apply (accept_rejects_unlisted_type Samples.json_or_html Samples.xml_post
           fresh_exchange (VStr "text/xml")); reflexivity.
Defined.

(** C1 does not hold as stated: with the types ['json', 'text/html']
    accepted, a [text/xml] body is answered with status 415 and nothing
    written, not with status 400 and an "Unsupported content-type"
    message. *)
Lemma accept_status_is_not_400 :
  exists x',
    accept Samples.json_or_html Samples.xml_post fresh_exchange = Normal x' /\
    includes (expand Samples.json_or_html) (VStr "text/xml") = false /\
    statusCode (res x') <> 400%Z /\
    written (res x') <> "Unsupported content-type text/xml" /\
    written (res x') = "".
Proof.
  eexists. split; [reflexivity|]. repeat split; simpl; discriminate.
Qed.

(** C8: a request whose body is the empty string is passed on to the next
    handler, with the response untouched, whatever the accepted types and
    whatever content type the request declares. *)
Theorem accept_passes_empty_body :
  forall (types : types_arg) (declared : value) (x : Exchange),
    accept types {| body := VStr ""; req_body := declared |} x
    = Normal {| res := res x; next_calls := S (next_calls x) |}.
Proof. intros types declared x. reflexivity. Qed.

Example empty_post_passes :
  accept Samples.json_or_html Samples.empty_post fresh_exchange
  = Normal (next fresh_exchange).
Proof. reflexivity. Qed.

(** ** Construction *)

Lemma typeof_or_else (v : value) (f : func) :
  String.eqb (typeof (or_else v (VFun f))) "function"
  = negb (truthy v && negb (String.eqb (typeof v) "function")).
Proof. unfold or_else. destruct v as [| |[]|n|s|o|g]; simpl; try reflexivity.
  - destruct (n =? 0)%Z; reflexivity.
  - destruct (String.eqb s ""); reflexivity.
Qed.





(** ** One call at a time *)

Ltac unfold_action :=
  unfold mbind, mret, stateful_bind, stateful_ret, read, modify, emit, history, lift, skip in *.

Lemma with_global_id (a : App) : with_global (global a) a = a.
Proof. destruct a; reflexivity. Qed.

Lemma call_spec (env : Env) (f : value) (w : World) :
  exists r g,
    call env f w = (r, {| app := with_global g (app w); out := out w ++ [Called f] |}) /\
    (obliging env f -> r = Normal tt) /\
    (forall e, failing_with env e f -> r = Throw (Raised e)).
Proof.
  destruct w as [a o]. unfold call. unfold_action. simpl.
  destruct f as [| |b|n|s|m|[| |name]]; simpl;
    try (exists (Throw (TypeError "is not a function")), (global a);
         simpl; rewrite with_global_id;
         split; [reflexivity | split; [intros [] | intros e (n0 & Hn & _); discriminate]]).
  - exists (Normal tt), (global a). simpl. rewrite with_global_id.
    split; [reflexivity | split; [reflexivity | intros e (n0 & Hn & _); discriminate]].
  - exists (Normal tt), (global a). simpl. rewrite with_global_id.
    split; [reflexivity | split; [reflexivity | intros e (n0 & Hn & _); discriminate]].
  - destruct (behaviour env name a) as [g|e g] eqn:Hb.
    + exists (Normal tt), g. split; [reflexivity|]. split; [reflexivity|].
      intros e (n0 & Hn & Hf). injection Hn as <-.
      destruct (Hf a) as [g' Hg']. congruence.
    + exists (Throw (Raised e)), g. split; [reflexivity|]. split.
      * intros Ho. destruct (Ho a) as [g' Hg']. congruence.
      * intros e' (n0 & Hn & Hf). injection Hn as <-.
        destruct (Hf a) as [g' Hg']. congruence.
Qed.

Opaque call.

Ltac use_call_spec r g Hok Hfail :=
  match goal with
  | |- context [call ?e ?f ?w] =>
      let Hc := fresh "Hc" in
      destruct (call_spec e f w) as (r & g & Hc & Hok & Hfail);
      rewrite Hc; clear Hc
  end.

Lemma stop_idle (env : Env) (w : World) :
  state (app w) = standby \/ state (app w) = stopping ->
  stop env w = (Settled (Normal (state_value (state (app w)))), w).
Proof.
  intros H. unfold stop, piece, stop_enter. unfold_action.
  destruct H as [-> | ->]; reflexivity.
Qed.

Lemma start_idle (w : World) :
  state (app w) = running \/ state (app w) = starting ->
  start w = (Settled (Normal (state_value (state (app w)))), w).
Proof.
  intros H. unfold start, piece, start_enter. unfold_action.
  destruct H as [-> | ->]; reflexivity.
Qed.

Lemma start_standby (w : World) :
  state (app w) = standby ->
  start w
  = (Delayed,
     {| app := with_state starting (app w);
        out := out w ++ [TimerSet (default VUndefined (conf (app w) !! "delay"))] |}).
Proof.
  intros Hs. unfold start, piece, start_enter. unfold_action. rewrite Hs. reflexivity.
Qed.

Lemma start_stopping (w : World) :
  state (app w) = stopping ->
  start w = (Backoff Start, {| app := app w; out := out w ++ [TimerSet (VNum RETRY_MS)] |}).
Proof.
  intros Hs. unfold start, piece, start_enter. unfold_action. rewrite Hs. reflexivity.
Qed.

Lemma stop_starting (env : Env) (w : World) :
  state (app w) = starting ->
  stop env w = (Backoff Stop, {| app := app w; out := out w ++ [TimerSet (VNum RETRY_MS)] |}).
Proof.
  intros Hs. unfold stop, piece, stop_enter. unfold_action. rewrite Hs. reflexivity.
Qed.

(** What the first piece of [stop] does to a running server *)
Lemma stop_running (env : Env) (w : World) :
  state (app w) = running ->
  exists t w1,
    stop env w = (t, w1) /\
    state (app w1) = stopping /\
    conf (app w1) = conf (app w) /\
    _shutdown (app w1) = _shutdown (app w) /\
    out w1 = out w ++ (if _server (app w) is Some _ then [Close] else [])
                   ++ [Called (_shutdown (app w))] /\
    (obliging env (_shutdown (app w)) -> t = ShuttingDown) /\
    (forall e, failing_with env e (_shutdown (app w)) -> t = Settled (Throw (Raised e))).
Proof.
  intros Hs. unfold stop, piece, stop_enter. unfold_action. rewrite Hs. simpl.
  destruct (_server (app w)) as [l|]; unfold close; unfold_action; simpl;
    use_call_spec r g Hok Hfail; destruct r as [[]|e0]; simpl;
    (eexists _, _; split; [reflexivity|]; simpl;
     rewrite <- ?app_assoc;
     do 4 (split; [reflexivity|]);
     split;
     [ intros Ho; specialize (Hok Ho); congruence
     | intros e He; specialize (Hfail e He); congruence ]).
Qed.

(** C4: in state ['standby'] or ['stopping'], [stop()] does nothing and
    resolves to the current state.  Hence a second call made right after a
    first one never fails: it finds the object in one of these two states
    and resolves to it, or, the server still starting, waits as the first
    one does. *)
Theorem stop_is_idempotent :
  forall (env : Env) (w : World),
    (state (app w) = standby \/ state (app w) = stopping ->
     stop env w = (Settled (Normal (state_value (state (app w)))), w)) /\
    (forall t1 w1,
       stop env w = (t1, w1) ->
       (forall e, fst (stop env w1) <> Settled (Throw e)) /\
       (state (app w) <> starting ->
        (state (app w1) = standby \/ state (app w1) = stopping) /\
        stop env w1 = (Settled (Normal (state_value (state (app w1)))), w1))).
Proof.
  intros env w. split; [apply stop_idle|].
  intros t1 w1 H1.
  assert (Hcases : state (app w1) = standby \/ state (app w1) = stopping
                   \/ (state (app w) = starting /\ state (app w1) = starting)).
  { destruct (state (app w)) eqn:Hs.
    - rewrite stop_idle in H1 by auto. injection H1 as _ <-. auto.
    - rewrite (stop_starting env w Hs) in H1. injection H1 as _ <-. auto.
    - destruct (stop_running env w Hs) as (t & w' & Hst & Hst' & _).
      rewrite Hst in H1. injection H1 as _ <-. auto.
    - rewrite stop_idle in H1 by auto. injection H1 as _ <-. auto. }
  split.
  - intros e. destruct Hcases as [Hs | [Hs | [_ Hs]]].
    + rewrite (stop_idle env w1) by auto. discriminate.
    + rewrite (stop_idle env w1) by auto. discriminate.
    + rewrite (stop_starting env w1 Hs). discriminate.
  - intros Hns. destruct Hcases as [Hs | [Hs | [Hs _]]]; [| |contradiction].
    + split; [auto | apply stop_idle; auto].
    + split; [auto | apply stop_idle; auto].
Qed.

Lemma stop_is_idempotent_witness :
  stop Samples.env (Samples.quiet Samples.plain)
  = (Settled (Normal (VStr "standby")), Samples.quiet Samples.plain).
Proof.
  apply (proj1 (stop_is_idempotent Samples.env (Samples.quiet Samples.plain))).
  left. reflexivity.
Defined.

Lemma stopped_app_eq (a : App) (g : option (gmap string value)) :
  with_state standby
    (with_global None
       (with_global g
          (match _server a with
           | Some l =>
               with_server (Some {| port := port l; listening := false |})
                 (with_state stopping a)
           | None => with_state stopping a
           end)))
  = stopped_app a.
Proof. unfold stopped_app. destruct a as [? ? ? ? ? ? ? ? ? ? ? ? ? ? [l|]]; reflexivity. Qed.

(** [stop()] on a running server whose shutdown hook returns runs to its
    end in two further pieces. *)
Lemma stop_completes (env : Env) (w : World) :
  state (app w) = running ->
  obliging env (_shutdown (app w)) ->
  await env 2 (stop env w)
  = (Settled (Normal (state_value standby)),
     {| app := stopped_app (app w); out := out w ++ stop_trace (app w) |}).
Proof.
  intros Hs Ho. unfold stop, piece, stop_enter. unfold_action. rewrite Hs. simpl.
  unfold stop_trace.
  destruct (_server (app w)) as [l|] eqn:Hsrv; unfold close; unfold_action; simpl;
    use_call_spec r g Hok Hfail; rewrite (Hok Ho); simpl;
    unfold piece, stop_closed; unfold_action; simpl.
  - rewrite <- (stopped_app_eq (app w) g), Hsrv, <- !app_assoc. reflexivity.
  - rewrite <- (stopped_app_eq (app w) g), Hsrv, <- !app_assoc. reflexivity.
Qed.

(** C10: on a running server without a listener, as [start()] leaves
    it when no port is configured, [stop()] does not raise for want of a
    listener.  With a shutdown hook that returns it runs to its end: the
    hook is called, the globals are deleted, ["Stopped"] is logged and the
    call resolves to ['standby']. *)
Theorem stop_headless :
  forall (env : Env) (w : World),
    state (app w) = running ->
    _server (app w) = None ->
    obliging env (_shutdown (app w)) ->
    exists w',
      await env 2 (stop env w) = (Settled (Normal (VStr "standby")), w') /\
      out w' = out w ++ [Called (_shutdown (app w)); Logged "info" "app" "Stopped" []] /\
      global (app w') = None /\
      state (app w') = standby /\
      _server (app w') = None.
Proof.
  intros env w Hs Hsrv Ho. rewrite (stop_completes env w Hs Ho).
  eexists. split; [reflexivity|]. simpl.
  unfold stop_trace, stopped_app. rewrite Hsrv. simpl. auto.
Qed.

Lemma stop_headless_witness :
  exists w',
    await Samples.env 2 (stop Samples.env (Samples.quiet Samples.headless))
    = (Settled (Normal (VStr "standby")), w') /\
    out w' = [Called (VFun noop); Logged "info" "app" "Stopped" []] /\
    global (app w') = None /\
    state (app w') = standby /\
    _server (app w') = None.
Proof.
  apply (stop_headless Samples.env (Samples.quiet Samples.headless)).
  - reflexivity.
  - reflexivity.
  - exact I.
Defined.

(** The piece of [start] that calls the startup hook, for a hook that is
    a function *)
Lemma start_delayed_spec (env : Env) (w : World) (f : func) :
  _startup (app w) = VFun f ->
  exists r g,
    resume env Delayed w
    = (match r with Normal _ => StartingUp | Throw e => Settled (Throw e) end,
       {| app := with_global g (rebuilt (with_global (Some ∅) (app w)));
          out := out w ++ startup_notice (app w) ++ [Called (VFun f)] |}) /\
    (obliging env (VFun f) -> r = Normal tt) /\
    (forall e, failing_with env e (VFun f) -> r = Throw (Raised e)).
Proof.
  intros Hf. simpl. unfold piece, start_delayed, rebuilt, startup_notice.
  unfold_action. simpl. rewrite Hf.
  destruct (truthy (_alwaysRebuildAPI (app w))); simpl; rewrite ?Hf;
    destruct f as [| |name]; simpl;
    use_call_spec r g Hok Hfail; exists r, g; destruct r as [[]|e0]; simpl;
    rewrite <- ?app_assoc; (split; [reflexivity|]); split; assumption.
Qed.

(** A startup hook that fails makes the [start()] whose body called it
    fail with the same error, the state left at ['starting']; a shutdown
    hook that fails makes the [stop()] whose body called it fail with the
    same error, the state left at ['stopping']. *)
Lemma hook_failure_propagates :
  forall (env : Env) (w : World) (e : value),
    (state (app w) = standby ->
     failing_with env e (_startup (app w)) ->
     exists w',
       await env 1 (start w) = (Settled (Throw (Raised e)), w') /\
       state (app w') = starting) /\
    (state (app w) = running ->
     failing_with env e (_shutdown (app w)) ->
     exists w',
       stop env w = (Settled (Throw (Raised e)), w') /\
       state (app w') = stopping).
Proof.
  intros env w e. split.
  - intros Hs Hfail. rewrite (start_standby w Hs).
    destruct Hfail as (name & Hname & Hbad).
    unfold await. cbn [fst snd].
    destruct (start_delayed_spec env
                {| app := with_state starting (app w);
                   out := out w ++ [TimerSet (default VUndefined (conf (app w) !! "delay"))] |}
                (closure name)) as (r & g & Hr & _ & Hthrow).
    { simpl. exact Hname. }
    rewrite Hr, (Hthrow e).
    + eexists. split; [reflexivity|]. simpl. unfold rebuilt. simpl.
      destruct (truthy (_alwaysRebuildAPI (app w))); reflexivity.
    + exists name. split; [reflexivity | exact Hbad].
  - intros Hs Hfail.
    destruct (stop_running env w Hs) as (t & w1 & Hst & Hst' & _ & _ & _ & _ & Hthrow).
    exists w1. rewrite Hst, (Hthrow e Hfail). split; [reflexivity | exact Hst'].
Qed.

Lemma hook_failure_propagates_example :
  exists w',
    await Samples.env 1
      (start (Samples.quiet (Samples.with_startup (VFun (closure "refuse")) Samples.plain)))
    = (Settled (Throw (Raised (VStr "no database"))), w') /\
    state (app w') = starting.
Proof.
  apply (proj1 (hook_failure_propagates Samples.env
                  (Samples.quiet (Samples.with_startup (VFun (closure "refuse")) Samples.plain))
                  (VStr "no database"))).
  - reflexivity.
  - exists "refuse". split; [reflexivity|].
    intros a. exists (global a). reflexivity.
Defined.

Lemma obliging_fun (env : Env) (v : value) :
  obliging env v -> exists f, v = VFun f.
Proof. destruct v; simpl; try contradiction. eauto. Qed.

Lemma await_settled (env : Env) (n : nat) (r : completion value) (w : World) :
  await env n (Settled r, w) = (Settled r, w).
Proof. destruct n; reflexivity. Qed.

Lemma await_S (env : Env) (n : nat) (t : Task) (w : World) :
  await env (S n) (t, w)
  = match t with
    | Settled _ | Never => (t, w)
    | _ => await env n (resume env t w)
    end.
Proof. destruct t; reflexivity. Qed.

Lemma resume_StartingUp (env : Env) (w : World) :
  resume env StartingUp w
  = if truthy (conf_port (app w))
    then match refused env (conf_port (app w)) (out w) with
         | Some e =>
             (Settled (Throw (Raised e)),
              {| app := with_server (Some {| port := conf_port (app w); listening := false |})
                          (app w);
                 out := out w |})
         | None =>
             (Binding,
              {| app := with_server (Some {| port := conf_port (app w); listening := false |})
                          (app w);
                 out := out w ++ [Listen (conf_port (app w))] |})
         end
    else (Settled (Normal (state_value running)),
          {| app := with_state running (app w);
             out := out w ++ [Logged "info" "app" "%s v%s has started"
                                [_name (app w); _version (app w)]] |}).
Proof.
  simpl. unfold piece, start_hooked, startServer, conf_port. unfold_action.
  destruct (truthy (default VUndefined (conf (app w) !! "port"))); [|reflexivity].
  cbn [app out].
  destruct (refused env (default VUndefined (conf (app w) !! "port")) (out w)); reflexivity.
Qed.

Lemma resume_Binding (env : Env) (w : World) :
  resume env Binding w
  = (Settled (Normal (state_value running)),
     {| app := with_state running
                 (match _server (app w) with
                  | Some l => with_server (Some {| port := port l; listening := true |}) (app w)
                  | None => app w
                  end);
        out := out w ++ [Logged "info" "server" "%s v%s is ready on port %s"
                           [_name (app w); _version (app w); conf_port (app w)]] |}).
Proof.
  simpl. unfold piece, start_bound, serverReady, conf_port. unfold_action.
  destruct (_server (app w)); reflexivity.
Qed.

Lemma resume_Closing (env : Env) (w : World) :
  resume env Closing w
  = (Settled (Normal (state_value standby)),
     {| app := with_state standby (with_global None (app w));
        out := out w ++ [Logged "info" "app" "Stopped" []] |}).
Proof. reflexivity. Qed.

Lemma prepared_fields (g : option (gmap string value)) (a : App) :
  let a1 := with_global g (rebuilt (with_global (Some ∅) (with_state starting a))) in
  _name a1 = _name a /\ _version a1 = _version a /\ conf a1 = conf a /\
  _server a1 = _server a /\ state a1 = starting /\ _startup a1 = _startup a /\
  _shutdown a1 = _shutdown a /\ global a1 = g.
Proof.
  unfold rebuilt. destruct a as [? ? ? ? ? ? ? r ? ? ? ? ? ? ?]. simpl.
  destruct (truthy r); simpl; auto 10.
Qed.

Lemma with_server_twice (l l' : option Server) (a : App) :
  with_server l (with_server l' a) = with_server l a.
Proof. destruct a; reflexivity. Qed.

Lemma start_completes (env : Env) (w : World) :
  state (app w) = standby ->
  obliging env (_startup (app w)) ->
  bindable env (app w) ->
  exists g,
    await env 3 (start w)
    = (Settled (Normal (state_value running)),
       {| app := started_app g (app w); out := out w ++ start_trace (app w) |}).
Proof.
  intros Hs Ho Hb. rewrite (start_standby w Hs).
  destruct (obliging_fun env _ Ho) as [f Hf].
  match goal with |- context [await _ _ (Delayed, ?w1)] =>
    destruct (start_delayed_spec env w1 f Hf) as (r & g & Hr & Hok & _) end.
  rewrite Hf in Ho. rewrite (Hok Ho) in Hr. clear Hok.
  exists g. rewrite await_S, Hr, await_S, resume_StartingUp. clear Hr.
  unfold started_app, start_trace. cbn [app out].
  destruct (prepared_fields g (app w)) as (Hn & Hv & Hc & Hsrv & _).
  set (a1 := with_global g (rebuilt (with_global (Some ∅) (with_state starting (app w))))) in *.
  assert (Hp : conf_port a1 = conf_port (app w)) by (unfold conf_port; rewrite Hc; reflexivity).
  assert (Hnote : startup_notice (with_state starting (app w)) = startup_notice (app w))
    by (destruct (app w); reflexivity).
  rewrite Hp, Hnote, Hf, Hn, Hv.
  destruct (truthy (conf_port (app w))) eqn:Hport.
  - rewrite (Hb Hport).
    rewrite await_S, resume_Binding, await_settled. cbn [app out].
    assert (Hfields : forall l, _name (with_server l a1) = _name (app w) /\
                                _version (with_server l a1) = _version (app w) /\
                                conf_port (with_server l a1) = conf_port (app w) /\
                                _server (with_server l a1) = l).
    { intros l. rewrite <- Hn, <- Hv, <- Hp. destruct a1; simpl; auto. }
    destruct (Hfields (Some {| port := conf_port (app w); listening := false |}))
      as (-> & -> & -> & ->).
    cbn [port]. rewrite with_server_twice, <- !app_assoc. reflexivity.
  - rewrite await_settled. f_equal. f_equal. rewrite <- !app_assoc. reflexivity.
Qed.


Lemma count_app (p : event -> bool) (l l' : list event) :
  count p (l ++ l') = count p l + count p l'.
Proof. unfold count. rewrite List.filter_app, length_app. reflexivity. Qed.

Lemma startup_notice_no_listen (a : App) : count is_listen (startup_notice a) = 0.
Proof. unfold startup_notice. destruct (_startup a) as [| | | | | |[]]; reflexivity. Qed.

Lemma started_app_fields (g : option (gmap string value)) (a : App) :
  conf (started_app g a) = conf a /\
  state (started_app g a) = running /\
  (truthy (conf_port a) = false -> _server (started_app g a) = _server a) /\
  (truthy (conf_port a) = true ->
   _server (started_app g a) = Some {| port := conf_port a; listening := true |}).
Proof.
  unfold started_app.
  destruct (prepared_fields g a) as (_ & _ & Hc & Hsrv & _).
  set (a1 := with_global g (rebuilt (with_global (Some ∅) (with_state starting a)))) in *.
  assert (H1 : forall b, conf (with_state running b) = conf b) by (intros []; reflexivity).
  assert (H2 : forall b, state (with_state running b) = running) by (intros []; reflexivity).
  assert (H3 : forall b, _server (with_state running b) = _server b) by (intros []; reflexivity).
  assert (H4 : forall l b, conf (with_server l b) = conf b) by (intros l []; reflexivity).
  assert (H5 : forall l b, _server (with_server l b) = l) by (intros l []; reflexivity).
  rewrite H1, H2, H3.
  destruct (truthy (conf_port a)); rewrite ?H4, ?H5, Hc, ?Hsrv;
    (split; [reflexivity|]); (split; [reflexivity|]);
    split; intros; (reflexivity || discriminate).
Qed.







(** ** What the pieces leave alone *)

Lemma kept_refl (w : World) : kept w w.
Proof. unfold kept. auto 10. Qed.

Lemma kept_trans (w1 w2 w3 : World) : kept w1 w2 -> kept w2 w3 -> kept w1 w3.
Proof.
  unfold kept. intros (A1 & A2 & A3 & A4 & A5 & A6) (B1 & B2 & B3 & B4 & B5 & B6).
  repeat split; congruence.
Qed.

Lemma kept_global_emit (w : World) (g : option (gmap string value)) (es : list event) :
  count is_reload es = 0 -> count is_listen es = 0 ->
  kept w {| app := with_global g (app w); out := out w ++ es |}.
Proof.
  intros Hr Hl. unfold kept. cbn [app out]. rewrite !count_app, Hr, Hl.
  destruct (app w); simpl. repeat split; lia.
Qed.

Lemma kept_api (w : World) (p : option API) :
  kept w {| app := with_api p (app w); out := out w |}.
Proof. unfold kept. destruct w as [[] o]; simpl. auto 10. Qed.

Section Respect.

Variable R : World -> World -> Prop.
Hypothesis R_refl : forall w, R w w.
Hypothesis R_trans : forall w1 w2 w3, R w1 w2 -> R w2 w3 -> R w1 w3.

Lemma respects_ret {A} (a : A) (Q : A -> Prop) : Q a -> respects R (mret a) Q.
Proof. intros HQ w r w' [= <- <-]. split; [apply R_refl|]. intros b [= <-]. exact HQ. Qed.

Lemma respects_bind {A B} (m : action A) (f : A -> action B) (P : A -> Prop) (Q : B -> Prop) :
  respects R m P -> (forall a, P a -> respects R (f a) Q) -> respects R (m ≫= f) Q.
Proof.
  intros Hm Hf w r w'. unfold mbind, stateful_bind.
  destruct (m w) as [[a|e] w1] eqn:Em; intros H.
  - destruct (Hm _ _ _ Em) as [K1 HP].
    destruct (Hf a (HP a eq_refl) _ _ _ H) as [K2 HQ].
    split; [eapply R_trans; eassumption | exact HQ].
  - injection H as <- <-. destruct (Hm _ _ _ Em) as [K1 _].
    split; [exact K1 | discriminate].
Qed.

Lemma respects_read {A} (f : App -> A) : respects R (read f) (fun _ => True).
Proof. intros w r w' [= <- <-]. split; [apply R_refl | auto]. Qed.

Lemma respects_lift {A} (c : completion A) : respects R (lift c) (fun _ => True).
Proof. intros w r w' [= <- <-]. split; [apply R_refl | auto]. Qed.

Lemma respects_history : respects R history (fun _ => True).
Proof. intros w r w' [= <- <-]. split; [apply R_refl | auto]. Qed.

Lemma respects_skip : respects R (skip : action unit) (fun _ => True).
Proof. apply respects_ret. exact I. Qed.

Lemma piece_respects (m : action Task) (Q : Task -> Prop) (w : World) :
  respects R m Q ->
  exists t' w',
    piece m w = (t', w') /\ R w w' /\ (Q t' \/ exists e, t' = Settled (Throw e)).
Proof.
  intros Hm. unfold piece. destruct (m w) as [[t|e] w1] eqn:Em;
    destruct (Hm _ _ _ Em) as [K HQ]; eexists _, _; (split; [reflexivity|]); split; eauto.
Qed.

End Respect.

Lemma respects_kept_global (g : option (gmap string value)) :
  respects kept (modify (with_global g)) (fun _ => True).
Proof.
  intros w r w' [= <- <-]. split; [|auto].
  replace (out w) with (out w ++ []) at 1 by apply app_nil_r.
  apply kept_global_emit; reflexivity.
Qed.

Lemma respects_kept_api (p : option API) : respects kept (modify (with_api p)) (fun _ => True).
Proof. intros w r w' [= <- <-]. split; [apply kept_api | auto]. Qed.

Lemma respects_kept_emit (e : event) :
  is_reload e = false -> is_listen e = false -> respects kept (emit e) (fun _ => True).
Proof.
  intros Hr Hl w r w' [= <- <-]. split; [|auto].
  unfold kept. cbn [app out]. rewrite !count_app. unfold count. simpl.
  rewrite Hr, Hl. simpl. repeat split; lia.
Qed.

Lemma respects_kept_call (env : Env) (f : value) : respects kept (call env f) (fun _ => True).
Proof.
  intros w r w' H. destruct (call_spec env f w) as (r0 & g & Hc & _).
  rewrite Hc in H. injection H as <- <-. split; [|auto].
  apply kept_global_emit; reflexivity.
Qed.

Ltac kept_step :=
  first
    [ apply respects_kept_call
    | apply (respects_read kept kept_refl)
    | apply (respects_lift kept kept_refl)
    | apply (respects_skip kept kept_refl)
    | apply respects_kept_global | apply respects_kept_api
    | apply respects_kept_emit; reflexivity ].

Ltac kept_bind := eapply (respects_bind kept kept_trans).

Lemma respects_kept_start_delayed (env : Env) :
  respects kept (start_delayed env) (fun t => t = StartingUp).
Proof.
  unfold start_delayed.
  kept_bind; [kept_step | intros ? _].
  kept_bind; [kept_step | intros rebuild _].
  kept_bind; [| intros ? _].
  { destruct (truthy rebuild); [|kept_step].
    kept_bind; [kept_step | intros ? _]. kept_step. }
  kept_bind; [kept_step | intros hook _].
  kept_bind; [kept_step | intros flag _].
  kept_bind; [| intros ? _].
  { destruct (negb (truthy flag)); [|kept_step].
    kept_bind; [kept_step | intros ? _]. kept_step. }
  kept_bind; [kept_step | intros ? _].
  apply (respects_ret kept kept_refl). reflexivity.
Qed.

Lemma delayed_kept (env : Env) (w : World) :
  exists t' w',
    resume env Delayed w = (t', w') /\
    kept w w' /\
    (t' = StartingUp \/ exists e, t' = Settled (Throw e)).
Proof. apply (piece_respects kept (start_delayed env)), respects_kept_start_delayed. Qed.

Lemma reconfigured_refl (w : World) : reconfigured w w.
Proof. unfold reconfigured. auto 10. Qed.

Lemma reconfigured_trans (w1 w2 w3 : World) :
  reconfigured w1 w2 -> reconfigured w2 w3 -> reconfigured w1 w3.
Proof.
  unfold reconfigured. intros (A1 & A2 & A3 & A4 & A5) (B1 & B2 & B3 & B4 & B5).
  repeat split; congruence.
Qed.

Lemma respects_reconfigured_conf (c : gmap string value) :
  respects reconfigured (modify (with_conf c)) (fun _ => True).
Proof. intros [[] o] r w' [= <- <-]. unfold reconfigured. simpl. auto 10. Qed.

Lemma respects_reconfigured_cors (c : option value) :
  respects reconfigured (modify (with_cors c)) (fun _ => True).
Proof. intros [[] o] r w' [= <- <-]. unfold reconfigured. simpl. auto 10. Qed.

Lemma respects_reconfigured_log (l : option Logger) :
  respects reconfigured (modify (with_log l)) (fun _ => True).
Proof. intros [[] o] r w' [= <- <-]. unfold reconfigured. simpl. auto 10. Qed.

Ltac reconf_step :=
  first
    [ apply (respects_read reconfigured reconfigured_refl)
    | apply (respects_lift reconfigured reconfigured_refl)
    | apply (respects_skip reconfigured reconfigured_refl)
    | apply respects_reconfigured_conf
    | apply respects_reconfigured_cors
    | apply respects_reconfigured_log ].

Ltac reconf_bind := eapply (respects_bind reconfigured reconfigured_trans).

Lemma newLogger_reconfigured (env : Env) (given : value) :
  respects reconfigured (newLogger env given) (fun _ => True).
Proof.
  unfold newLogger.
  destruct given; try (apply (respects_ret reconfigured reconfigured_refl); exact I).
  reconf_bind; [reconf_step | intros c _].
  reconf_bind; [reconf_step | intros ? _].
  apply (respects_ret reconfigured reconfigured_refl). exact I.
Qed.

Lemma setup_reconfigured (env : Env) (src : value) :
  respects reconfigured (setup env src) (fun _ => True).
Proof.
  unfold setup.
  reconf_bind; [reconf_step | intros base _].
  reconf_bind; [reconf_step | intros c _].
  reconf_bind; [reconf_step | intros ? _].
  reconf_bind; [reconf_step | intros ? _].
  reconf_bind; [| intros ? _].
  { cbv zeta. destruct (truthy (default VUndefined (c !! "log"))); [|reconf_step].
    reconf_bind; [reconf_step | intros name _].
    reconf_bind; [reconf_step | intros l' _]. reconf_step. }
  reconf_bind; [reconf_step | intros c' _].
  reconf_bind; [apply newLogger_reconfigured | intros l _].
  reconf_step.
Qed.

(** What [reload] does to the state and to the trace *)
Lemma reload_state (env : Env) (conf : value) (w : World) (r : completion unit) (w' : World) :
  reload env conf w = (r, w') ->
  state (app w') = state (app w) /\
  _name (app w') = _name (app w) /\
  out w' = out w ++ (if String.eqb (typeof conf) "object"
                     then [Logged "debug" "app" "Reloaded settings" []] else []).
Proof.
  unfold reload. destruct (String.eqb (typeof conf) "object").
  - unfold mbind, stateful_bind, emit. intros H.
    destruct (setup_reconfigured env conf _ _ _ H) as [(H1 & H2 & H3 & _) _].
    simpl in *. auto.
  - intros [= <- <-]. rewrite app_nil_r. auto.
Qed.

Lemma restart_stopped_cases (env : Env) (conf : value) (w : World)
      (r : completion Task) (w' : World) :
  restart_stopped env conf w = (r, w') ->
  exists r1 w1,
    reload env conf w = (r1, w1) /\
    ((exists e, r1 = Throw e /\ r = Throw e /\ w' = w1) \/
     (r1 = Normal tt /\ exists t, start w1 = (t, w') /\ r = Normal (restarted t))).
Proof.
  unfold restart_stopped, mbind, stateful_bind, promise, mret, stateful_ret.
  destruct (reload env conf w) as [[[]|e] w1]; intros H; eexists _, _;
    (split; [reflexivity|]).
  - right. split; [reflexivity|]. destruct (start w1) as [t w2].
    injection H as <- <-. eauto.
  - left. injection H as <- <-. eauto.
Qed.

Lemma busy_retried (t : Task) : busy (retried t) = busy t.
Proof. destruct t as [[]| | | | | | | | | |]; reflexivity. Qed.

Lemma busy_restarting (c : value) (t : Task) : busy (restarting c t) = busy t.
Proof. destruct t as [[]| | | | | | | | | |]; reflexivity. Qed.

Lemma busy_restarted (t : Task) : busy (restarted t) = busy t.
Proof. destruct t as [[]| | | | | | | | | |]; reflexivity. Qed.

(** A call that enters a transition finds the object in ['standby'] or
    ['running'] and leaves the state of the transition; a call made
    during a transition enters none and leaves the state alone. *)
Lemma enter_busy (env : Env) (op : Op) (w : World) (t' : Task) (w' : World) :
  enter env op w = (t', w') ->
  (forall o, busy t' = Some o ->
             state (app w') = during o /\
             (state (app w) = standby \/ state (app w) = running)) /\
  (state (app w) = starting \/ state (app w) = stopping ->
   state (app w') = state (app w) /\ busy t' = None).
Proof.
  destruct op; simpl; destruct (state (app w)) eqn:Hs.
  - rewrite (start_standby w Hs). intros [= <- <-]. split.
    + intros o [= <-]. simpl. auto.
    + intros [|]; discriminate.
  - rewrite (start_idle w) by auto. intros [= <- <-]. split; [discriminate|]. rewrite Hs. auto.
  - rewrite (start_idle w) by auto. intros [= <- <-]. split; [discriminate|]. rewrite Hs. auto.
  - rewrite (start_stopping w Hs). intros [= <- <-]. split; [discriminate|]. simpl. auto.
  - rewrite (stop_idle env w) by auto. intros [= <- <-]. split; [discriminate|]. rewrite Hs. auto.
  - rewrite (stop_starting env w Hs). intros [= <- <-]. split; [discriminate|]. simpl. auto.
  - destruct (stop_running env w Hs) as (t & w1 & Hst & Hst' & _ & _ & _ & _ & _).
    rewrite Hst. intros [= <- <-]. split.
    + intros o Ho. split; [|auto]. rewrite Hst'.
      assert (t = ShuttingDown \/ exists e, t = Settled (Throw e)) as [->|[e ->]].
      { revert Hst. unfold stop, piece. destruct (stop_enter env w) as [[t0|e] w0] eqn:E.
        - intros [= <- <-]. left. revert E. unfold stop_enter. unfold_action. rewrite Hs. simpl.
          destruct (_server (app w)); unfold close; unfold_action; simpl;
            match goal with |- context [call ?e ?f ?w] => destruct (call e f w) as [[] ?] end;
            intros [=]; congruence.
        - intros [= <- <-]. eauto. }
      * injection Ho as <-. reflexivity.
      * discriminate.
    + intros [|]; discriminate.
  - rewrite (stop_idle env w) by auto. intros [= <- <-]. split; [discriminate|]. rewrite Hs. auto.
Qed.

(** One piece of a task: a task in the middle of a transition stays in
    it or leaves it; a task outside enters one only from ['standby'] or
    ['running'], and during a transition of another call it leaves the
    state alone. *)
Lemma resume_busy (env : Env) (t : Task) :
  forall (w : World) (t' : Task) (w' : World),
    resume env t w = (t', w') ->
    (forall op, busy t = Some op -> state (app w) = during op) ->
    (forall op, busy t' = Some op -> state (app w') = during op) /\
    (busy t = None ->
     (forall op, busy t' = Some op -> state (app w) = standby \/ state (app w) = running) /\
     (state (app w) = starting \/ state (app w) = stopping ->
      state (app w') = state (app w))).
Proof.
  induction t as [r| | | | | | |op|inner IH|conf inner IH|inner IH]; intros w t' w' H Hpre.
  - injection H as <- <-. simpl. split; [discriminate|]. intros _. split; [discriminate|auto].
  - injection H as <- <-. simpl. split; [discriminate|]. intros _. split; [discriminate|auto].
  - destruct (delayed_kept env w) as (t1 & w1 & Hr & (Hst & _) & Ht).
    rewrite Hr in H. injection H as <- <-. split; [|discriminate].
    intros op Hop. rewrite Hst, (Hpre Start eq_refl).
    destruct Ht as [->|[e ->]]; [injection Hop as <-; reflexivity | discriminate].
  - rewrite resume_StartingUp in H. split; [|discriminate].
    destruct (truthy (conf_port (app w))); [|injection H as <- <-; discriminate].
    destruct (refused env _ _); injection H as <- <-; [discriminate|].
    intros op [= <-]. cbn [app]. rewrite <- (Hpre Start eq_refl).
    destruct (app w); reflexivity.
  - rewrite resume_Binding in H. injection H as <- <-. split; discriminate.
  - injection H as <- <-. split; [|discriminate].
    intros op [= <-]. apply (Hpre Stop eq_refl).
  - rewrite resume_Closing in H. injection H as <- <-. split; discriminate.
  - simpl in H. destruct (enter env op w) as [t1 w1] eqn:E. injection H as <- <-.
    destruct (enter_busy env op w t1 w1 E) as [H1 H2]. rewrite busy_retried. split.
    + intros o Ho. apply (H1 o Ho).
    + intros _. split.
      * intros o Ho. apply (H1 o Ho).
      * intros Hs. apply (H2 Hs).
  - simpl in H. destruct (resume env inner w) as [t1 w1] eqn:E. injection H as <- <-.
    rewrite busy_retried. apply (IH w t1 w1 E Hpre).
  - assert (Hgen : forall t1 w1, resume env inner w = (t1, w1) ->
              (t', w') = (restarting conf t1, w1) ->
              (forall op, busy t' = Some op -> state (app w') = during op) /\
              (busy (Restarting conf inner) = None ->
               (forall op, busy t' = Some op ->
                           state (app w) = standby \/ state (app w) = running) /\
               (state (app w) = starting \/ state (app w) = stopping ->
                state (app w') = state (app w)))).
    { intros t1 w1 E [= -> ->]. rewrite busy_restarting. apply (IH w t1 w1 E Hpre). }
    destruct inner as [[v|e]| | | | | | | | | |];
      try (simpl in H; simpl resume in Hgen;
           match type of H with
           | (let (_, _) := ?x in _) = _ =>
               destruct x as [t1 w1] eqn:E; apply (Hgen t1 w1 eq_refl); symmetry; exact H
           | _ => apply (Hgen _ _ eq_refl); symmetry; exact H
           end).
    clear Hgen IH. simpl in H. unfold piece in H.
    destruct (restart_stopped env conf w) as [r w2] eqn:E.
    destruct (restart_stopped_cases env conf w r w2 E)
      as (r1 & w1 & Hre & [(e & -> & -> & ->) | (-> & t & Hstart & ->)]);
      destruct (reload_state env conf w _ _ Hre) as (Hst & _);
      injection H as <- <-.
    + split; [discriminate|]. intros _. split; [discriminate|]. intros _. exact Hst.
    + destruct (enter_busy env Start w1 t _ Hstart) as [H1 H2].
      rewrite busy_restarted, Hst in *. split.
      * intros o Ho. apply (H1 o Ho).
      * intros _. split.
        -- intros o Ho. apply (H1 o Ho).
        -- intros Hs. apply (H2 Hs).
  - simpl in H. destruct (resume env inner w) as [t1 w1] eqn:E. injection H as <- <-.
    rewrite busy_restarted. apply (IH w t1 w1 E Hpre).
Qed.

(** ** One transition at a time *)

Lemma underway_app (l : list Task) (t : Task) :
  underway (l ++ [t]) = underway l + weight t.
Proof.
  unfold underway, weight. rewrite List.filter_app, length_app. simpl.
  destruct (is_busy t); reflexivity.
Qed.

Lemma underway_insert (l : list Task) (i : nat) (t t' : Task) :
  l !! i = Some t ->
  underway (<[i := t']> l) + weight t = underway l + weight t'.
Proof.
  revert i. induction l as [|u l IH]; intros [|i] H; try discriminate.
  - injection H as ->. unfold underway, weight. simpl.
    destruct (is_busy t), (is_busy t'); simpl; lia.
  - simpl in H. specialize (IH i H). unfold underway, weight in *. simpl.
    destruct (is_busy u); simpl; lia.
Qed.

Lemma underway_idle (l : list Task) :
  (forall j u, l !! j = Some u -> is_busy u = false) -> underway l = 0.
Proof.
  induction l as [|u l IH]; intros H; [reflexivity|].
  unfold underway in *. simpl. rewrite (H 0 u eq_refl).
  apply IH. intros j v Hj. apply (H (S j) v Hj).
Qed.

Lemma underway_zero (l : list Task) (j : nat) (u : Task) :
  underway l = 0 -> l !! j = Some u -> is_busy u = false.
Proof.
  revert j. induction l as [|v l IH]; intros [|j] H0 Hj; try discriminate.
  - injection Hj as ->. unfold underway in H0. simpl in H0.
    destruct (is_busy u); [discriminate | reflexivity].
  - simpl in Hj. apply (IH j); [|exact Hj]. unfold underway in *. simpl in H0.
    destruct (is_busy v); [discriminate | exact H0].
Qed.

Lemma others_idle (l : list Task) (i j : nat) (t u : Task) :
  underway l <= 1 -> l !! i = Some t -> is_busy t = true ->
  j <> i -> l !! j = Some u -> is_busy u = false.
Proof.
  intros Hle Hi Hb Hne Hj.
  pose proof (underway_insert l i t Never Hi) as H. unfold weight in H.
  rewrite Hb in H. simpl in H.
  apply (underway_zero (<[i := Never]> l) j); [lia|].
  rewrite list_lookup_insert_ne by auto. exact Hj.
Qed.

Lemma is_busy_true (t : Task) : is_busy t = true <-> exists op, busy t = Some op.
Proof. unfold is_busy. destruct (busy t); split; eauto; try discriminate. intros [? [=]]. Qed.

Lemma is_busy_false (t : Task) : is_busy t = false <-> busy t = None.
Proof. unfold is_busy. destruct (busy t); split; auto; discriminate. Qed.

Lemma during_moving (op : Op) : during op = starting \/ during op = stopping.
Proof. destruct op; auto. Qed.

(** With no transition under way stated by the state, no task is busy. *)
Lemma exclusive_idle (s : System) :
  exclusive s ->
  state (app (world s)) = standby \/ state (app (world s)) = running ->
  underway (tasks s) = 0.
Proof.
  intros [_ Hc] Hs. apply underway_idle. intros j u Hj.
  apply is_busy_false. destruct (busy u) as [op|] eqn:Hb; [|reflexivity].
  specialize (Hc j u op Hj Hb). destruct op; simpl in Hc; destruct Hs; congruence.
Qed.

Lemma exclusive_spawn (s : System) (t' : Task) (w' : World) :
  exclusive s ->
  (forall o, busy t' = Some o ->
             state (app w') = during o /\
             (state (app (world s)) = standby \/ state (app (world s)) = running)) ->
  (state (app (world s)) = starting \/ state (app (world s)) = stopping ->
   state (app w') = state (app (world s))) ->
  exclusive {| world := w'; tasks := tasks s ++ [t'] |}.
Proof.
  intros Hex Hin Hout. pose proof Hex as [Hle Hc]. unfold exclusive. cbn [world tasks].
  rewrite underway_app. unfold weight.
  destruct (busy t') as [o|] eqn:Hb.
  - destruct (Hin o eq_refl) as [Hst Hidle].
    pose proof (exclusive_idle s Hex Hidle) as H0.
    replace (is_busy t') with true by (symmetry; apply is_busy_true; eauto).
    split; [lia|]. intros i t op Hi Hop.
    apply lookup_app_Some in Hi as [Hi | [_ Hi]].
    + pose proof (underway_zero _ _ _ H0 Hi) as Hf. apply is_busy_false in Hf. congruence.
    + apply list_lookup_singleton_Some in Hi as [_ <-]. congruence.
  - replace (is_busy t') with false by (symmetry; apply is_busy_false; exact Hb).
    split; [lia|]. intros i t op Hi Hop.
    apply lookup_app_Some in Hi as [Hi | [_ Hi]].
    + pose proof (Hc i t op Hi Hop) as Hs. rewrite Hout; [exact Hs|].
      rewrite Hs. apply during_moving.
    + apply list_lookup_singleton_Some in Hi as [_ <-]. congruence.
Qed.

Lemma exclusive_resume (env : Env) (s : System) (i : nat) (t t' : Task) (w' : World) :
  exclusive s ->
  tasks s !! i = Some t ->
  resume env t (world s) = (t', w') ->
  exclusive {| world := w'; tasks := <[i := t']> (tasks s) |}.
Proof.
  intros Hex Hi Hr. pose proof Hex as [Hle Hc].
  destruct (resume_busy env t (world s) t' w' Hr (fun op => Hc i t op Hi)) as [H1 H2].
  pose proof (underway_insert (tasks s) i t t' Hi) as Hload. unfold weight in Hload.
  unfold exclusive. cbn [world tasks].
  assert (Hlook : forall j u, <[i := t']> (tasks s) !! j = Some u ->
                              (j = i /\ u = t') \/ (j <> i /\ tasks s !! j = Some u)).
  { intros j u Hj. destruct (decide (j = i)) as [->|Hne].
    - rewrite list_lookup_insert_eq in Hj by (eapply lookup_lt_Some; eassumption).
      injection Hj as <-. auto.
    - rewrite list_lookup_insert_ne in Hj by auto. auto. }
  destruct (busy t) as [op|] eqn:Hb.
  - assert (Hbt : is_busy t = true) by (apply is_busy_true; eauto).
    rewrite Hbt in Hload. split; [destruct (is_busy t'); lia|].
    intros j u o Hj Ho. destruct (Hlook j u Hj) as [[-> ->] | [Hne Hold]].
    + apply (H1 o Ho).
    + pose proof (others_idle _ _ _ _ _ Hle Hi Hbt Hne Hold) as Hf.
      apply is_busy_false in Hf. congruence.
  - destruct (H2 eq_refl) as [Hin Hout].
    assert (Hbt : is_busy t = false) by (apply is_busy_false; exact Hb).
    rewrite Hbt in Hload.
    destruct (busy t') as [o'|] eqn:Hb'.
    + pose proof (exclusive_idle s Hex (Hin o' eq_refl)) as H0.
      split; [destruct (is_busy t'); lia|].
      intros j u o Hj Ho. destruct (Hlook j u Hj) as [[-> ->] | [Hne Hold]].
      * apply (H1 o). congruence.
      * pose proof (underway_zero _ _ _ H0 Hold) as Hf. apply is_busy_false in Hf. congruence.
    + replace (is_busy t') with false in Hload by (symmetry; apply is_busy_false; exact Hb').
      split; [lia|].
      intros j u o Hj Ho. destruct (Hlook j u Hj) as [[-> ->] | [Hne Hold]].
      * congruence.
      * pose proof (Hc j u o Hold Ho) as Hs. rewrite Hout; [exact Hs|].
        rewrite Hs. apply during_moving.
Qed.

Lemma exclusive_step (env : Env) (s : System) (r : Request) :
  exclusive s -> exclusive (step env s r).
Proof.
  intros Hex. destruct r as [| |conf|src|i]; simpl.
  - destruct (start (world s)) as [t' w'] eqn:E. unfold spawn. cbn [fst snd].
    destruct (enter_busy env Start (world s) t' w' E) as [H1 H2].
    apply exclusive_spawn; [exact Hex | exact H1 | intros Hs; apply (H2 Hs)].
  - destruct (stop env (world s)) as [t' w'] eqn:E. unfold spawn. cbn [fst snd].
    destruct (enter_busy env Stop (world s) t' w' E) as [H1 H2].
    apply exclusive_spawn; [exact Hex | exact H1 | intros Hs; apply (H2 Hs)].
  - unfold restart. destruct (stop env (world s)) as [t' w'] eqn:E. unfold spawn. cbn [fst snd].
    destruct (enter_busy env Stop (world s) t' w' E) as [H1 H2].
    apply exclusive_spawn; [exact Hex | rewrite busy_restarting; exact H1
                           | intros Hs; apply (H2 Hs)].
  - destruct (setup env src (world s)) as [r w'] eqn:E.
    destruct (setup_reconfigured env src _ _ _ E) as [(Hst & _) _].
    destruct Hex as [Hle Hc]. split; [exact Hle|].
    cbn [world tasks snd]. intros j u o Hj Ho. rewrite Hst. apply (Hc j u o Hj Ho).
  - destruct (tasks s !! i) as [t|] eqn:Hi; [|exact Hex].
    destruct (resume env t (world s)) as [t' w'] eqn:E.
    apply (exclusive_resume env s i t t' w' Hex Hi E).
Qed.

Lemma exclusive_steps (env : Env) (rs : list Request) (s : System) :
  exclusive s -> exclusive (steps env s rs).
Proof.
  revert s. induction rs as [|r rs IH]; intros s Hex; [exact Hex|].
  simpl. apply IH, exclusive_step, Hex.
Qed.

(** ** Calls of [start] alone *)

Lemma kept_port (w w' : World) : kept w w' -> conf_port (app w') = conf_port (app w).
Proof. intros (_ & Hc & _). unfold conf_port. rewrite Hc. reflexivity. Qed.

Lemma insert_lookup_cases (l : list Task) (i j : nat) (t t' u : Task) :
  l !! i = Some t ->
  <[i := t']> l !! j = Some u ->
  (j = i /\ u = t') \/ (j <> i /\ l !! j = Some u).
Proof.
  intros Hi Hj. destruct (decide (j = i)) as [->|Hne].
  - rewrite list_lookup_insert_eq in Hj by (eapply lookup_lt_Some; eassumption).
    injection Hj as <-. auto.
  - rewrite list_lookup_insert_ne in Hj by auto. auto.
Qed.

Lemma simple_insert (l : list Task) (i : nat) (t' : Task) :
  Forall simple l -> simple t' -> Forall simple (<[i := t']> l).
Proof. intros Hl Ht. apply Forall_insert; assumption. Qed.


Lemma once_bound_call (env : Env) (w0 : World) (s : System) :
  once_bound w0 s -> once_bound w0 (step env s CallStart).
Proof.
  intros (Hp & Hsimple & Hphase). simpl. unfold spawn, once_bound.
  destruct (state (app (world s))) eqn:Hs.
  - destruct Hphase as [Hnil Hb]. rewrite (start_standby _ Hs). cbn [fst snd world tasks app out].
    assert (Hf : forall a, conf_port (with_state starting a) = conf_port a
                           /\ state (with_state starting a) = starting) by (intros []; auto).
    destruct (Hf (app (world s))) as [-> ->]. rewrite Hnil.
    split; [exact Hp|]. split; [repeat constructor|].
    split.
    + exists 0, Delayed. split; [reflexivity|]. intros v. discriminate.
    + left. split.
      * rewrite count_app, Hb. unfold count. simpl. lia.
      * intros [|i]; simpl; discriminate.
  - rewrite (start_idle (world s)) by auto. cbn [fst snd world tasks]. rewrite Hs.
    split; [exact Hp|]. split; [apply Forall_app; split; [exact Hsimple | repeat constructor]|].
    destruct Hphase as [(i & t & Hi & Hu) Hb]. split.
    + exists i, t. split; [apply lookup_app_l_Some; exact Hi | exact Hu].
    + destruct Hb as [[Hb Hno] | (Hb & Hport & j & Hj)].
      * left. split; [exact Hb|]. intros k Hk.
        apply lookup_app_Some in Hk as [Hk | [_ Hk]]; [exact (Hno k Hk)|].
        apply list_lookup_singleton_Some in Hk as [_ Hk]. discriminate.
      * right. split; [exact Hb|]. split; [exact Hport|].
        exists j. apply lookup_app_l_Some. exact Hj.
  - rewrite (start_idle (world s)) by auto. cbn [fst snd world tasks]. rewrite Hs.
    split; [exact Hp|]. split; [apply Forall_app; split; [exact Hsimple | repeat constructor]|].
    exact Hphase.
  - contradiction.
Qed.

Lemma once_bound_resume (env : Env) (w0 : World) (s : System) (i : nat) :
  exclusive s -> once_bound w0 s -> once_bound w0 (step env s (Resume i)).
Proof.
  intros Hex Hk. simpl. destruct (tasks s !! i) as [t|] eqn:Hi; [|exact Hk].
  pose proof Hk as (Hp & Hsimple & Hphase).
  pose proof Hex as [Hle Hc].
  assert (Hst : simple t) by (eapply Forall_lookup_1; eassumption).
  destruct t; try contradiction; clear Hst.
  - (* settled: nothing happens *)
    simpl. rewrite list_insert_id by exact Hi. destruct s; exact Hk.
  - (* waiting for the delay *)
    pose proof (Hc i Delayed Start Hi eq_refl) as Hs. simpl in Hs.
    destruct (delayed_kept env (world s)) as (t1 & w1 & Hr & K & Ht).
    rewrite Hr. unfold once_bound. cbn [world tasks].
    pose proof K as (Kst & _ & _ & _ & _ & Kl).
    rewrite (kept_port _ _ K), Kst, Kl, Hs. rewrite Hs in Hphase.
    split; [exact Hp|]. split.
    { apply simple_insert; [exact Hsimple|]. destruct Ht as [->|[e ->]]; exact I. }
    destruct Hphase as [_ Hb]. split.
    + exists i, t1. split.
      * apply list_lookup_insert_eq. eapply lookup_lt_Some; eassumption.
      * destruct Ht as [->|[e ->]]; intros v; discriminate.
    + destruct Hb as [[Hb Hno] | (Hb & Hport & j & Hj)].
      * left. split; [exact Hb|]. intros k Hk'.
        destruct (insert_lookup_cases _ _ _ _ _ _ Hi Hk') as [[-> Heq] | [Hne Hold]].
        -- destruct Ht as [->|[e ->]]; discriminate.
        -- exact (Hno k Hold).
      * right. split; [exact Hb|]. split; [exact Hport|]. exists j.
        rewrite list_lookup_insert_ne; [exact Hj|]. intros ->. congruence.
  - (* the hook has returned *)
    pose proof (Hc i StartingUp Start Hi eq_refl) as Hs. simpl in Hs.
    rewrite Hs in Hphase. destruct Hphase as [_ Hb].
    assert (Hb0 : count is_listen (out (world s)) = count is_listen (out w0)
                  /\ forall k, tasks s !! k <> Some Binding).
    { destruct Hb as [Hb | (_ & _ & j & Hj)]; [exact Hb|].
      assert (j <> i) by (intros ->; congruence).
      pose proof (others_idle _ _ _ _ _ Hle Hi eq_refl H Hj). discriminate. }
    destruct Hb0 as [Hb0 Hno].
    rewrite resume_StartingUp. rewrite Hp.
    destruct (truthy (conf_port (app w0))) eqn:Hport;
      [destruct (refused env (conf_port (app w0)) (out (world s))) as [e|]|];
      unfold once_bound; cbn [world tasks app out].
    + (* the transport refuses the port *)
      assert (Hf : forall l a, conf_port (with_server l a) = conf_port a
                               /\ state (with_server l a) = state a) by (intros l []; auto).
      destruct (Hf (Some {| port := conf_port (app w0); listening := false |}) (app (world s)))
        as [-> ->].
      rewrite Hs. split; [exact Hp|]. split; [apply simple_insert; [exact Hsimple | exact I]|].
      split.
      * exists i, (Settled (Throw (Raised e))). split; [|intros v0; discriminate].
        apply list_lookup_insert_eq. eapply lookup_lt_Some; eassumption.
      * left. split; [exact Hb0|]. intros k Hk'.
        destruct (insert_lookup_cases _ _ _ _ _ _ Hi Hk') as [[-> Heq] | [Hne Hold]];
          [discriminate | exact (Hno k Hold)].
    + assert (Hf : forall l a, conf_port (with_server l a) = conf_port a
                               /\ state (with_server l a) = state a) by (intros l []; auto).
      destruct (Hf (Some {| port := conf_port (app w0); listening := false |}) (app (world s)))
        as [-> ->].
      rewrite Hs. split; [exact Hp|]. split; [apply simple_insert; [exact Hsimple | exact I]|].
      split.
      * exists i, Binding. split; [|intros v; discriminate].
        apply list_lookup_insert_eq. eapply lookup_lt_Some; eassumption.
      * right. split; [rewrite count_app, Hb0; unfold count; simpl; lia|].
        split; [exact Hport|]. exists i.
        apply list_lookup_insert_eq. eapply lookup_lt_Some; eassumption.
    + assert (Hf : forall a, conf_port (with_state running a) = conf_port a
                             /\ state (with_state running a) = running) by (intros []; auto).
      destruct (Hf (app (world s))) as [-> ->].
      split; [exact Hp|]. split; [apply simple_insert; [exact Hsimple | exact I]|].
      rewrite count_app, Hb0, Hport. unfold count. simpl. lia.
  - (* the listener is ready *)
    pose proof (Hc i Binding Start Hi eq_refl) as Hs. simpl in Hs.
    rewrite Hs in Hphase. destruct Hphase as [_ Hb].
    assert (Hb1 : count is_listen (out (world s)) = count is_listen (out w0) + 1
                  /\ truthy (conf_port (app w0)) = true).
    { destruct Hb as [[_ Hno] | (Hb & Hport & _)]; [|auto]. destruct (Hno i Hi). }
    destruct Hb1 as [Hb1 Hport].
    rewrite resume_Binding. unfold once_bound. cbn [world tasks app out].
    assert (Hf : forall a, conf_port (with_state running a) = conf_port a
                           /\ state (with_state running a) = running) by (intros []; auto).
    assert (Hg : forall l a, conf_port (with_server l a) = conf_port a) by (intros l []; auto).
    match goal with |- context [with_state running ?a] => destruct (Hf a) as [-> ->] end.
    split.
    { destruct (_server (app (world s))); rewrite ?Hg; exact Hp. }
    split; [apply simple_insert; [exact Hsimple | exact I]|].
    rewrite count_app, Hb1, Hport. unfold count. simpl. lia.
Qed.

Lemma once_bound_steps (env : Env) (w0 : World) (rs : list Request) (s : System) :
  Forall start_or_resume rs ->
  exclusive s -> once_bound w0 s ->
  once_bound w0 (steps env s rs).
Proof.
  revert s. induction rs as [|r rs IH]; intros s Hrs Hex Hk; [exact Hk|].
  apply Forall_cons in Hrs as [Hr Hrs]. simpl.
  apply IH; [exact Hrs | apply exclusive_step; exact Hex |].
  destruct r; try contradiction.
  - apply once_bound_call. exact Hk.
  - apply once_bound_resume; assumption.
Qed.

(** ** Restarting *)

Lemma settings_kept_refl (w : World) : settings_kept w w.
Proof. unfold settings_kept. auto. Qed.

Lemma settings_kept_trans (w1 w2 w3 : World) :
  settings_kept w1 w2 -> settings_kept w2 w3 -> settings_kept w1 w3.
Proof.
  unfold settings_kept. intros (A1 & A2 & A3) (B1 & B2 & B3). repeat split; congruence.
Qed.

Lemma kept_settings (w w' : World) : kept w w' -> settings_kept w w'.
Proof. intros (_ & Hc & Hn & _ & Hr & _). split; auto. Qed.

Lemma respects_settings_of_kept {A} (m : action A) (Q : A -> Prop) :
  respects kept m Q -> respects settings_kept m Q.
Proof. intros Hm w r w' H. destruct (Hm w r w' H) as [K HQ]. split; [apply kept_settings, K | exact HQ]. Qed.

Lemma respects_settings_state (s : State) :
  respects settings_kept (modify (with_state s)) (fun _ => True).
Proof. intros [[] o] r w' [= <- <-]. unfold settings_kept. simpl. auto. Qed.

Lemma respects_settings_server (l : option Server) :
  respects settings_kept (modify (with_server l)) (fun _ => True).
Proof. intros [[] o] r w' [= <- <-]. unfold settings_kept. simpl. auto. Qed.

Lemma respects_settings_global (g : option (gmap string value)) :
  respects settings_kept (modify (with_global g)) (fun _ => True).
Proof. apply respects_settings_of_kept, respects_kept_global. Qed.

Lemma respects_settings_emit (e : event) :
  is_reload e = false -> respects settings_kept (emit e) (fun _ => True).
Proof.
  intros Hr w r w' [= <- <-]. split; [|auto].
  unfold settings_kept. cbn [app out]. rewrite count_app. unfold count. simpl.
  rewrite Hr. simpl. repeat split; lia.
Qed.

Ltac settings_step :=
  first
    [ apply respects_settings_of_kept, respects_kept_call
    | apply (respects_read settings_kept settings_kept_refl)
    | apply (respects_lift settings_kept settings_kept_refl)
    | apply (respects_history settings_kept settings_kept_refl)
    | apply (respects_skip settings_kept settings_kept_refl)
    | apply respects_settings_state
    | apply respects_settings_server
    | apply respects_settings_global
    | apply respects_settings_emit; reflexivity
    | apply (respects_ret settings_kept settings_kept_refl); exact I ].

Ltac settings_bind := eapply (respects_bind settings_kept settings_kept_trans).

Ltac settings_auto :=
  repeat first
    [ settings_step
    | settings_bind; [ | intros ? _ ]
    | match goal with
      | |- respects _ (if ?b then _ else _) _ => destruct b
      | |- respects _ (match ?x with Some _ => _ | None => _ end) _ => destruct x
      end ].

Lemma respects_settings_start_enter : respects settings_kept start_enter plain.
Proof. unfold start_enter. settings_auto. Qed.

Lemma respects_settings_stop_enter (env : Env) : respects settings_kept (stop_enter env) plain.
Proof. unfold stop_enter, close. settings_auto. Qed.

Lemma respects_settings_start_delayed (env : Env) :
  respects settings_kept (start_delayed env) plain.
Proof.
  apply respects_settings_of_kept.
  intros w r w' H. destruct (respects_kept_start_delayed env w r w' H) as [K HQ].
  split; [exact K|]. intros a Ha. rewrite (HQ a Ha). exact I.
Qed.

Lemma respects_settings_start_hooked (env : Env) :
  respects settings_kept (start_hooked env) plain.
Proof. unfold start_hooked, startServer. settings_auto. Qed.

Lemma respects_settings_start_bound : respects settings_kept start_bound plain.
Proof. unfold start_bound, serverReady. settings_auto. Qed.

Lemma respects_settings_stop_closed : respects settings_kept stop_closed plain.
Proof. unfold stop_closed. settings_auto. Qed.

Lemma piece_plain (m : action Task) (w : World) (t' : Task) (w' : World) :
  respects settings_kept m plain ->
  piece m w = (t', w') -> plain t' /\ settings_kept w w'.
Proof.
  intros Hm H. destruct (piece_respects settings_kept m plain w Hm) as (t1 & w1 & Hp & K & HQ).
  rewrite Hp in H. injection H as <- <-. split; [|exact K].
  destruct HQ as [HQ | [e ->]]; [exact HQ | exact I].
Qed.

Lemma plain_retried (t : Task) : plain t -> plain (retried t).
Proof. destruct t as [[]| | | | | | | | | |]; simpl; auto. Qed.

Lemma enter_plain (env : Env) (op : Op) (w : World) (t' : Task) (w' : World) :
  enter env op w = (t', w') -> plain t' /\ settings_kept w w'.
Proof.
  destruct op; simpl; apply piece_plain.
  - apply respects_settings_start_enter.
  - apply respects_settings_stop_enter.
Qed.

Lemma resume_plain (env : Env) (t : Task) :
  forall (w : World) (t' : Task) (w' : World),
    plain t -> resume env t w = (t', w') -> plain t' /\ settings_kept w w'.
Proof.
  induction t as [r| | | | | | |op|inner IH|conf inner IH|inner IH];
    intros w t' w' Hpl H; try contradiction.
  - injection H as <- <-. split; [exact I | apply settings_kept_refl].
  - injection H as <- <-. split; [exact I | apply settings_kept_refl].
  - apply (piece_plain (start_delayed env) w); [apply respects_settings_start_delayed | exact H].
  - apply (piece_plain (start_hooked env) w); [apply respects_settings_start_hooked | exact H].
  - apply (piece_plain start_bound w); [apply respects_settings_start_bound | exact H].
  - injection H as <- <-. split; [exact I | apply settings_kept_refl].
  - apply (piece_plain stop_closed w); [apply respects_settings_stop_closed | exact H].
  - simpl in H. destruct (enter env op w) as [t1 w1] eqn:E. injection H as <- <-.
    destruct (enter_plain env op w t1 w1 E) as [Hp K]. split; [apply plain_retried, Hp | exact K].
  - simpl in H. destruct (resume env inner w) as [t1 w1] eqn:E. injection H as <- <-.
    destruct (IH w t1 w1 Hpl E) as [Hp K]. split; [apply plain_retried, Hp | exact K].
Qed.

Lemma await_plain (env : Env) (fuel : nat) :
  forall (t : Task) (w : World) (t' : Task) (w' : World),
    plain t -> await env fuel (t, w) = (t', w') -> plain t' /\ settings_kept w w'.
Proof.
  induction fuel as [|n IH]; intros t w t' w' Hpl H.
  - injection H as <- <-. split; [exact Hpl | apply settings_kept_refl].
  - rewrite await_S in H.
    assert (Hgo : forall t1 w1, resume env t w = (t1, w1) ->
                                await env n (t1, w1) = (t', w') ->
                                plain t' /\ settings_kept w w').
    { intros t1 w1 E H1. destruct (resume_plain env t w t1 w1 Hpl E) as [Hp K].
      destruct (IH t1 w1 t' w' Hp H1) as [Hp' K'].
      split; [exact Hp' | eapply settings_kept_trans; eassumption]. }
    destruct t; try contradiction;
      try (injection H as <- <-; split; [exact Hpl | apply settings_kept_refl]);
      match type of H with
      | await env n ?x = _ => destruct x as [t1 w1] eqn:E; apply (Hgo t1 w1 eq_refl H)
      end.
Qed.

Lemma setup_conf (env : Env) (layer : gmap string value) (w w' : World) :
  setup env (VObj layer) w = (Normal tt, w') ->
  conf (app w') = log_defaults env (_name (app w)) (layer ∪ conf (app w)).
Proof.
  unfold setup, newLogger, log_defaults. unfold_action. simpl.
  destruct ((layer ∪ conf (app w)) !! "log") as [l|] eqn:Hl; simpl; rewrite ?Hl; simpl.
  - destruct l as [| |[]|n|s|o|f]; simpl; rewrite ?Hl; simpl;
      try (intros [= <-]; destruct (app w); reflexivity);
      try discriminate.
    + destruct (n =? 0)%Z eqn:En; simpl; rewrite ?Hl; simpl; rewrite ?En;
        [intros [= <-]; destruct (app w); reflexivity | discriminate].
    + destruct (String.eqb s "") eqn:Es; simpl; rewrite ?Hl; simpl; rewrite ?Es;
        [intros [= <-]; destruct (app w); reflexivity | discriminate].
    + rewrite lookup_insert_eq. simpl. intros [= <-]. simpl.
      rewrite insert_insert_eq. reflexivity.
    + rewrite lookup_insert_eq. simpl. intros [= <-]. destruct (app w); simpl in *.
      rewrite insert_id by exact Hl. reflexivity.
  - intros [= <-]. destruct (app w); reflexivity.
Qed.


Lemma await_pending (env : Env) (n : nat) (t : Task) (w : World) :
  pending t -> await env (S n) (t, w) = await env n (resume env t w).
Proof. destruct t; simpl; intros H; (contradiction || reflexivity). Qed.

Lemma restarting_pending (conf : value) (t : Task) :
  pending t -> restarting conf t = Restarting conf t.
Proof. destruct t; simpl; intros H; (contradiction || reflexivity). Qed.

Lemma restarted_pending (t : Task) : pending t -> restarted t = Restarted t.
Proof. destruct t; simpl; intros H; (contradiction || reflexivity). Qed.

Lemma resume_Restarting (env : Env) (conf : value) (t : Task) (w : World) :
  pending t ->
  resume env (Restarting conf t) w
  = (restarting conf (fst (resume env t w)), snd (resume env t w)).
Proof.
  destruct t; intros H; try contradiction; cbn [resume];
    match goal with |- (let (_, _) := ?x in _) = _ => destruct x; reflexivity end.
Qed.

Lemma resume_Restarted (env : Env) (t : Task) (w : World) :
  resume env (Restarted t) w
  = (restarted (fst (resume env t w)), snd (resume env t w)).
Proof. cbn [resume]. destruct (resume env t w); reflexivity. Qed.

Lemma await_never (env : Env) (n : nat) (w : World) : await env n (Never, w) = (Never, w).
Proof. destruct n; reflexivity. Qed.


Lemma await_restarted (env : Env) (fuel : nat) :
  forall (t : Task) (w : World) (v : value) (w' : World),
    await env fuel (restarted t, w) = (Settled (Normal v), w') ->
    exists n v2, await env n (t, w) = (Settled (Normal v2), w').
Proof.
  induction fuel as [|n IH]; intros t w v w' H.
  - exists 0. destruct t as [[v2|e]| | | | | | | | | |]; simpl in H; try discriminate.
    injection H as _ <-. eauto.
  - destruct t as [[v2|e]| | | | | | | | | |];
      try (simpl in H; discriminate).
    1: { exists 0. eexists. injection H as _ <-. reflexivity. }
    all: rewrite restarted_pending in H by exact I;
      rewrite await_pending, resume_Restarted in H by exact I;
      match type of H with
      | context [resume _ ?t _] =>
          destruct (resume env t w) as [t1 w1] eqn:E; cbn [fst snd] in H;
          destruct (IH t1 w1 v w' H) as (m & v2 & Hm);
          exists (S m), v2; rewrite await_pending by exact I; rewrite E; exact Hm
      end.
Qed.

(** When [restart] has resolved, [stop] had resolved, the settings were
    then reloaded, and [start] resolved after that. *)
Lemma await_restarting (env : Env) (fuel : nat) :
  forall (t : Task) (w : World) (conf : value) (v : value) (w' : World),
    await env fuel (restarting conf t, w) = (Settled (Normal v), w') ->
    exists n1 v1 w1 w2 n2 v2,
      await env n1 (t, w) = (Settled (Normal v1), w1) /\
      reload env conf w1 = (Normal tt, w2) /\
      await env n2 (start w2) = (Settled (Normal v2), w').
Proof.
  induction fuel as [|n IH]; intros t w conf v w' H.
  - destruct t as [[v2|e]| | | | | | | | | |]; simpl in H; discriminate.
  - destruct t as [[v1|e]| | | | | | | | | |];
      try (simpl in H; discriminate).
    1: { change (restarting conf (Settled (Normal v1)))
           with (Restarting conf (Settled (Normal v1))) in H.
         rewrite await_pending in H by exact I. cbn [resume] in H. unfold piece in H.
         destruct (restart_stopped env conf w) as [r w2] eqn:E.
         destruct (restart_stopped_cases env conf w r w2 E)
           as (r1 & w1 & Hre & [(e & -> & -> & ->) | (-> & t2 & Hstart & ->)]).
         - rewrite await_settled in H. discriminate.
         - destruct (await_restarted env n t2 w2 v w' H) as (m & v2 & Hm).
           exists 0, v1, w, w1, m, v2. split; [reflexivity|]. split; [exact Hre|].
           rewrite Hstart. exact Hm. }
    all: rewrite restarting_pending in H by exact I;
      rewrite await_pending, resume_Restarting in H by exact I;
      match type of H with
      | context [resume _ ?t _] =>
          destruct (resume env t w) as [t1 w1] eqn:E; cbn [fst snd] in H;
          destruct (IH t1 w1 conf v w' H) as (n1 & v1 & w1' & w2 & n2 & v2 & H1 & H2 & H3);
          exists (S n1), v1, w1', w2, n2, v2;
          rewrite await_pending by exact I; rewrite E; auto
      end.
Qed.



(** ** Overlapping calls, and restarting *)

Lemma exclusive_initial (w : World) : exclusive {| world := w; tasks := [] |}.
Proof. split; [unfold underway; simpl; lia|]. intros i t op Hi. discriminate. Qed.

(** C3: a [start()] that finds the state ['stopping'], and a [stop()]
    that finds it ['starting'], change nothing: they arm a timer of 1000
    ms, after which the call is made anew, and waits again as long as the
    other transition is under way.  Whatever calls arrive and in whatever
    order the tasks go on, at most one of them is in the middle of a
    transition, and it is the one the state names. *)
Theorem overlapping_calls_wait :
  forall (env : Env) (w : World),
    let waiting := {| app := app w; out := out w ++ [TimerSet (VNum 1000)] |} in
    (state (app w) = stopping ->
     start w = (Backoff Start, waiting) /\
     resume env (Backoff Start) w = (Retried (Backoff Start), waiting)) /\
    (state (app w) = starting ->
     stop env w = (Backoff Stop, waiting) /\
     resume env (Backoff Stop) w = (Retried (Backoff Stop), waiting)) /\
    (forall op, resume env (Backoff op) w
                = (retried (fst (enter env op w)), snd (enter env op w))) /\
    (forall rs, exclusive (steps env {| world := w; tasks := [] |} rs)).
Proof.
  intros env w waiting. split; [|split; [|split]].
  - intros Hs. split; [apply start_stopping, Hs|].
    simpl. rewrite (start_stopping w Hs). reflexivity.
  - intros Hs. split; [apply stop_starting, Hs|].
    simpl. rewrite (stop_starting env w Hs). reflexivity.
  - intros op. simpl. destruct (enter env op w); reflexivity.
  - intros rs. apply exclusive_steps, exclusive_initial.
Qed.

Lemma overlapping_calls_wait_witness :
  let w := Samples.quiet (with_state stopping Samples.headless) in
  let waiting := {| app := app w; out := [TimerSet (VNum 1000)] |} in
  start w = (Backoff Start, waiting) /\
  resume Samples.env (Backoff Start) w = (Retried (Backoff Start), waiting).
Proof.
  apply (proj1 (overlapping_calls_wait Samples.env
                  (Samples.quiet (with_state stopping Samples.headless)))).
  reflexivity.
Defined.

(** C6: the failure of the startup hook does not reach a caller of
    [start()] that had to wait for a [stop()] to end.  The retried call
    rejects with the hook's error and leaves the state at ['starting'],
    but the promise handed to the caller is never settled, neither
    resolved nor rejected (line 31 passes on the resolution only). *)
Theorem retried_failure_is_not_passed_on :
  exists a,
    Nodecaf Samples.env Samples.with_database = Normal a /\
    let s := steps Samples.env {| world := Samples.quiet a; tasks := [] |}
               Samples.stop_then_start in
    tasks s = [ Settled (Normal (VStr "running"));
                Settled (Normal (VStr "standby"));
                Never ] /\
    state (app (world s)) = starting /\
    resume Samples.env Delayed
      (world (steps Samples.env {| world := Samples.quiet a; tasks := [] |}
                (removelast Samples.stop_then_start)))
    = (Settled (Throw (Raised (VStr "no database"))), world s).
Proof.
  eexists. split; [vm_compute; reflexivity|].
  vm_compute. repeat split; reflexivity.
Qed.

Lemma once_bound_initial (w : World) :
  state (app w) = standby -> once_bound w {| world := w; tasks := [] |}.
Proof.
  intros Hs. unfold once_bound. cbn [world tasks]. rewrite Hs.
  split; [reflexivity|]. split; [constructor|]. auto.
Qed.

(** C5 (as amended): in state ['running'] or ['starting'], [start()]
    does nothing (no timer, no hook, no listener) and resolves to the
    current state.  Hence, from ['standby'], calls of [start()] that
    overlap in any way bind at most one listener; once they have all
    resolved, exactly one if a port is configured and none otherwise. *)
Theorem start_is_idempotent :
  forall (env : Env) (w : World),
    (state (app w) = running \/ state (app w) = starting ->
     start w = (Settled (Normal (state_value (state (app w)))), w)) /\
    (state (app w) = standby ->
     forall rs,
       Forall start_or_resume rs ->
       let s := steps env {| world := w; tasks := [] |} rs in
       count is_listen (out (world s)) <= count is_listen (out w) + 1 /\
       (tasks s <> [] ->
        Forall resolved (tasks s) ->
        state (app (world s)) = running /\
        count is_listen (out (world s))
        = count is_listen (out w) + (if truthy (conf_port (app w)) then 1 else 0))).
Proof.
  intros env w. split; [apply start_idle|].
  intros Hs rs Hrs s.
  pose proof (once_bound_steps env w rs _ Hrs (exclusive_initial w) (once_bound_initial w Hs))
    as (_ & _ & Hphase).
  fold s in Hphase. destruct (state (app (world s))).
  - destruct Hphase as [Hnil Hb]. split; [lia|]. intros Hne. contradiction.
  - destruct Hphase as [(i & t & Hi & Hu) Hb]. split.
    + destruct Hb as [[Hb _] | (Hb & _)]; lia.
    + intros _ Hall. exfalso.
      destruct (Forall_lookup_1 _ _ _ _ Hall Hi) as [v ->]. exact (Hu v eq_refl).
  - split.
    + destruct (truthy (conf_port (app w))); lia.
    + intros _ _. split; [reflexivity | exact Hphase].
  - contradiction.
Qed.

Lemma start_is_idempotent_witness :
  let w := Samples.quiet Samples.configured8080 in
  let s := steps Samples.env {| world := w; tasks := [] |}
             [CallStart; CallStart; Resume 0; Resume 1; Resume 0; Resume 0] in
  count is_listen (out (world s)) <= count is_listen (out w) + 1 /\
  (tasks s <> [] ->
   Forall resolved (tasks s) ->
   state (app (world s)) = running /\
   count is_listen (out (world s))
   = count is_listen (out w) + (if truthy (conf_port (app w)) then 1 else 0)).
Proof.
  apply (proj2 (start_is_idempotent Samples.env
                  (Samples.quiet Samples.configured8080))).
  - reflexivity.
  - repeat constructor.
Defined.

(** Two calls of [start()] on a server listening on port 8080, the second
    made before the first has gone on: one listener. *)
Example start_twice_binds_once :
  let w := Samples.quiet Samples.configured8080 in
  let s := steps Samples.env {| world := w; tasks := [] |}
             [CallStart; CallStart; Resume 0; Resume 1; Resume 0; Resume 0] in
  tasks s = [Settled (Normal (VStr "running")); Settled (Normal (VStr "starting"))] /\
  count is_listen (out (world s)) = 1.
Proof. vm_compute. auto. Qed.

(** C5 does not hold as stated: on a server with no port configured, two
    overlapping calls of [start()] both resolve and no listener is bound
    at all. *)
Lemma start_twice_without_port_binds_nothing :
  let w := Samples.quiet Samples.plain in
  let s := steps Samples.env {| world := w; tasks := [] |}
             [CallStart; CallStart; Resume 0; Resume 0] in
  state (app w) = standby /\
  tasks s = [Settled (Normal (VStr "running")); Settled (Normal (VStr "starting"))] /\
  state (app (world s)) = running /\
  count is_listen (out (world s)) = 0 /\
  count is_listen (out (world s)) <> 1.
Proof. vm_compute. repeat split; discriminate. Qed.

Lemma stopped_app_fields (a : App) :
  conf (stopped_app a) = conf a /\
  state (stopped_app a) = standby /\
  _startup (stopped_app a) = _startup a.
Proof. unfold stopped_app. destruct a as [? ? ? ? ? ? ? ? ? ? ? ? ? ? [l|]]; simpl; auto. Qed.


Lemma log_defaults_other (env : Env) (name : value) (c : gmap string value) (k : string) :
  k <> "log" -> log_defaults env name c !! k = c !! k.
Proof.
  intros Hk. unfold log_defaults.
  destruct (c !! "log") as [[| | | | |l|]|]; try reflexivity.
  rewrite lookup_insert_ne by congruence. reflexivity.
Qed.


















(** ** The gate, for lists of type names *)

Lemma short_type_string (t : string) :
  short_type (VStr t)
  = match SHORT_TYPES !! t with
    | Some mime => Given (VStr mime)
    | None => if bool_decide (t ∈ Object_prototype) then Inherited t else Given (VStr t)
    end.
Proof. reflexivity. Qed.

Lemma includes_strings (ts : list string) (s : string) :
  includes (expand (Many (map VStr ts))) (VStr s) = true <-> listed ts s.
Proof.
  unfold expand, listed. simpl. induction ts as [|t ts IH].
  - simpl. split; [discriminate|]. intros [(H & _) | (k & H & _)]; inversion H.
  - cbn [map includes existsb]. fold (includes (map short_type (map VStr ts)) (VStr s)).
    rewrite orb_true_iff, IH. rewrite short_type_string. clear IH.
    split.
    + intros [H | [(H1 & H2 & H3) | (k & H1 & H2)]].
      * destruct (SHORT_TYPES !! t) as [mime|] eqn:E.
        -- simpl in H. apply String.eqb_eq in H. subst mime.
           right. exists t. split; [left | exact E].
        -- destruct (bool_decide (t ∈ Object_prototype)) eqn:Ep; [discriminate|].
           simpl in H. apply String.eqb_eq in H. subst t.
           apply bool_decide_eq_false in Ep. left. split; [left | auto].
      * left. split; [right; exact H1 | auto].
      * right. exists k. split; [right; exact H1 | exact H2].
    + intros [(H1 & H2 & H3) | (k & H1 & H2)].
      * apply elem_of_cons in H1 as [->|H1].
        -- left. rewrite H2. rewrite bool_decide_eq_false_2 by exact H3.
           simpl. apply String.eqb_refl.
        -- right. left. auto.
      * apply elem_of_cons in H1 as [->|H1].
        -- left. rewrite H2. simpl. apply String.eqb_refl.
        -- right. right. exists k. auto.
Qed.

Lemma includes_undefined (ts : list string) :
  includes (expand (Many (map VStr ts))) VUndefined = false.
Proof.
  unfold expand. simpl. induction ts as [|t ts IH]; [reflexivity|].
  cbn [map includes existsb]. fold (includes (map short_type (map VStr ts)) VUndefined).
  rewrite IH, short_type_string.
  destruct (SHORT_TYPES !! t); [reflexivity|].
  destruct (bool_decide _); reflexivity.
Qed.

(** X1: for a list of type names and a request with a body whose
    declared type is a string, the gate of [accept] lets the request
    through exactly when the declared type is listed: it is the full name
    that an alias in the list stands for, or it is in the list itself and
    is neither an alias nor the name of a member of [Object.prototype].
    In every other case the gate answers 415.  A request that declares
    the alias itself (["json"]) is thus refused by [accept(['json'])]. *)
Theorem accept_lists_strings :
  forall (ts : list string) (b declared : value) (s : string) (x : Exchange),
    is_empty_string b = false ->
    get declared "type" = Normal (VStr s) ->
    (listed ts s ->
     accept (Many (map VStr ts)) {| body := b; req_body := declared |} x = Normal (next x)) /\
    (~ listed ts s ->
     accept (Many (map VStr ts)) {| body := b; req_body := declared |} x
     = Normal (respond (fun r => end_ (status 415 r)) x)).
Proof.
  intros ts b declared s x Hb Ht. unfold accept, gate. cbn [body req_body].
  rewrite Hb, Ht. simpl.
  destruct (includes (expand (Many (map VStr ts))) (VStr s)) eqn:E.
  - apply includes_strings in E. split; [reflexivity | contradiction].
  - split; [|reflexivity]. intros H. apply includes_strings in H. congruence.
Qed.

(** X2: for a list of type names, a request with a body whose
    [req.body] carries no [type] is answered 415: [undefined] is in no
    such list. *)
Theorem accept_needs_declared_type :
  forall (ts : list string) (b declared : value) (x : Exchange),
    is_empty_string b = false ->
    get declared "type" = Normal VUndefined ->
    accept (Many (map VStr ts)) {| body := b; req_body := declared |} x
    = Normal (respond (fun r => end_ (status 415 r)) x).
Proof.
  intros ts b declared x Hb Ht. unfold accept, gate. cbn [body req_body].
  rewrite Hb, Ht. simpl. rewrite includes_undefined. reflexivity.
Qed.

(** X3: the gate does one of three things.  It calls [next] once and
    leaves the response alone; or it finishes the response with status
    415 and does not call [next]; or it throws a [TypeError], which it
    does only for a request with a body whose [req.body] is [undefined]
    or [null]. *)
Theorem accept_outcomes :
  forall (types : types_arg) (i : Input) (x : Exchange),
    accept types i x = Normal (next x) \/
    accept types i x = Normal (respond (fun r => end_ (status 415 r)) x) \/
    (exists msg,
        accept types i x = Throw (TypeError msg) /\
        is_empty_string (body i) = false /\
        (req_body i = VUndefined \/ req_body i = VNull)).
Proof.
  intros types i x. unfold accept, gate.
  destruct (is_empty_string (body i)) eqn:Hb; simpl; [auto|].
  destruct (req_body i) as [| |b|n|s|o|f] eqn:Hr; simpl;
    try (destruct (includes _ _); simpl; auto; fail).
  - right. right. eauto.
  - right. right. eauto.
  - destruct f; simpl; destruct (includes _ _); simpl; auto.
Qed.

Lemma accept_lists_strings_witness :
  accept (Many (map VStr ["json"; "text/html"]))
    {| body := VStr "{}"; req_body := VObj {[ "type" := VStr "application/json" ]} |}
    fresh_exchange
  = Normal (next fresh_exchange) /\
  accept (Many (map VStr ["json"; "text/html"]))
    {| body := VStr "{}"; req_body := VObj {[ "type" := VStr "json" ]} |}
    fresh_exchange
  = Normal (respond (fun r => end_ (status 415 r)) fresh_exchange).
Proof.
  split.
  - apply (accept_lists_strings ["json"; "text/html"] (VStr "{}")
             (VObj {[ "type" := VStr "application/json" ]}) "application/json" fresh_exchange);
      [reflexivity | reflexivity |].
    right. exists "json". split; [apply elem_of_cons; left; reflexivity | reflexivity].
  - apply (accept_lists_strings ["json"; "text/html"] (VStr "{}")
             (VObj {[ "type" := VStr "json" ]}) "json" fresh_exchange);
      [reflexivity | reflexivity |].
    intros [(_ & H & _) | (k & Hk & Hs)]; [discriminate|].
    apply elem_of_cons in Hk as [->|Hk]; [discriminate|].
    apply elem_of_cons in Hk as [->|Hk]; [discriminate|].
    inversion Hk.
Defined.

Lemma accept_needs_declared_type_witness :
  accept (Many (map VStr ["json"])) {| body := VStr "{}"; req_body := VObj ∅ |} fresh_exchange
  = Normal (respond (fun r => end_ (status 415 r)) fresh_exchange).
Proof.
  apply (accept_needs_declared_type ["json"] (VStr "{}") (VObj ∅) fresh_exchange);
    reflexivity.
Defined.

(** ** What [setup] and construction establish *)

Lemma only_settings_refl (w : World) : only_settings w w.
Proof. exists (conf (app w)), (_cors (app w)), (log (app w)). destruct w as [[] o]. auto. Qed.

Lemma only_settings_trans (w1 w2 w3 : World) :
  only_settings w1 w2 -> only_settings w2 w3 -> only_settings w1 w3.
Proof.
  intros (c1 & k1 & l1 & H1 & O1) (c2 & k2 & l2 & H2 & O2).
  exists c2, k2, l2. rewrite H2, H1. split; [reflexivity | congruence].
Qed.

Lemma respects_only_conf (c : gmap string value) :
  respects only_settings (modify (with_conf c)) (fun _ => True).
Proof.
  intros [a o] r w' [= <- <-]. split; [|auto].
  exists c, (_cors a), (log a). destruct a; auto.
Qed.

Lemma respects_only_cors (k : option value) :
  respects only_settings (modify (with_cors k)) (fun _ => True).
Proof.
  intros [a o] r w' [= <- <-]. split; [|auto].
  exists (conf a), k, (log a). destruct a; auto.
Qed.

Lemma respects_only_log (l : option Logger) :
  respects only_settings (modify (with_log l)) (fun _ => True).
Proof.
  intros [a o] r w' [= <- <-]. split; [|auto].
  exists (conf a), (_cors a), l. destruct a; auto.
Qed.

Ltac only_step :=
  first
    [ apply (respects_read only_settings only_settings_refl)
    | apply (respects_lift only_settings only_settings_refl)
    | apply (respects_skip only_settings only_settings_refl)
    | apply respects_only_conf
    | apply respects_only_cors
    | apply respects_only_log ].

Ltac only_bind := eapply (respects_bind only_settings only_settings_trans).

Lemma newLogger_only_settings (env : Env) (given : value) :
  respects only_settings (newLogger env given) (fun _ => True).
Proof.
  unfold newLogger.
  destruct given; try (apply (respects_ret only_settings only_settings_refl); exact I).
  only_bind; [only_step | intros c _].
  only_bind; [only_step | intros ? _].
  apply (respects_ret only_settings only_settings_refl). exact I.
Qed.

Lemma setup_only_settings (env : Env) (src : value) :
  respects only_settings (setup env src) (fun _ => True).
Proof.
  unfold setup.
  only_bind; [only_step | intros base _].
  only_bind; [only_step | intros c _].
  only_bind; [only_step | intros ? _].
  only_bind; [only_step | intros ? _].
  only_bind; [| intros ? _].
  { cbv zeta. destruct (truthy (default VUndefined (c !! "log"))); [|only_step].
    only_bind; [only_step | intros name _].
    only_bind; [only_step | intros l' _]. only_step. }
  only_bind; [only_step | intros c' _].
  only_bind; [apply newLogger_only_settings | intros l _].
  only_step.
Qed.

(** X4: whether it returns or throws, [setup] writes nothing but
    [conf], [_cors] and [log]: the state, the globals, the listener, the
    API, the hooks, the name and the version are what they were, and
    nothing is logged or called. *)
Theorem setup_writes_settings_only :
  forall (env : Env) (objectOrPath : value) (w : World),
    let w' := snd (setup env objectOrPath w) in
    out w' = out w /\
    state (app w') = state (app w) /\
    global (app w') = global (app w) /\
    _server (app w') = _server (app w) /\
    _api (app w') = _api (app w) /\
    _startup (app w') = _startup (app w) /\
    _shutdown (app w') = _shutdown (app w) /\
    _apiSpec (app w') = _apiSpec (app w) /\
    _serverBuilder (app w') = _serverBuilder (app w) /\
    _name (app w') = _name (app w) /\
    _version (app w') = _version (app w).
Proof.
  intros env src w. cbv zeta.
  destruct (setup env src w) as [r w'] eqn:E.
  destruct (setup_only_settings env src _ _ _ E) as [(c & k & l & Ha & Ho) _].
  cbn [snd]. rewrite Ha. split; [exact Ho|]. cbn. auto 12.
Qed.

Lemma setup_primitive_log (env : Env) (layer : gmap string value) (w : World) (v : value) :
  (layer ∪ conf (app w)) !! "log" = Some v ->
  truthy v = true ->
  primitive v = true ->
  setup env (VObj layer) w
  = (Throw (TypeError "Cannot create property"),
     {| app := with_cors (Some (default VUndefined ((layer ∪ conf (app w)) !! "cors")))
                 (with_conf (layer ∪ conf (app w)) (app w));
        out := out w |}).
Proof.
  intros Hl Ht Hp. unfold setup. unfold_action. simpl. rewrite Hl. simpl. rewrite Ht.
  destruct v; try discriminate; reflexivity.
Qed.

Lemma validateOpts_functions (env : Env) (opts : value) (this : Validated) :
  validateOpts env opts = Normal this ->
  typeof opts = "object" /\
  typeof (v_apiSpec this) = "function" /\
  typeof (v_startup this) = "function" /\
  typeof (v_shutdown this) = "function" /\
  typeof (v_serverBuilder this) = "function".
Proof.
  unfold validateOpts, assert. unfold mbind, completion_bind.
  destruct (String.eqb (typeof opts) "object") eqn:E0; [|discriminate].
  destruct (get opts "api") as [api|]; [|discriminate].
  destruct (get opts "startup") as [startup|]; [|discriminate].
  destruct (get opts "shutdown") as [shutdown|]; [|discriminate].
  destruct (get opts "server") as [server|]; [|discriminate].
  destruct (get opts "name") as [name|]; [|discriminate].
  destruct (get opts "version") as [version|]; [|discriminate].
  cbn [v_apiSpec v_startup v_shutdown v_serverBuilder].
  destruct (String.eqb (typeof (or_else api _)) "function") eqn:E1; [|discriminate].
  destruct (String.eqb (typeof (or_else startup _)) "function") eqn:E2; [|discriminate].
  destruct (String.eqb (typeof (or_else shutdown _)) "function") eqn:E3; [|discriminate].
  destruct (String.eqb (typeof (or_else server _)) "function") eqn:E4; [|discriminate].
  intros [= <-]. cbn [v_apiSpec v_startup v_shutdown v_serverBuilder].
  apply String.eqb_eq in E0, E1, E2, E3, E4. auto.
Qed.

Lemma setup_logger (env : Env) (layer : gmap string value) (w w' : World) :
  setup env (VObj layer) w = (Normal tt, w') ->
  log (app w') = Some {| settings := default VUndefined (conf (app w') !! "log") |}.
Proof.
  unfold setup, newLogger. unfold_action. simpl.
  destruct ((layer ∪ conf (app w)) !! "log") as [l|] eqn:Hl; simpl; rewrite ?Hl; simpl.
  - destruct l as [| |[]|n|s|o|f]; simpl; rewrite ?Hl; simpl;
      try (intros [= <-]; simpl; rewrite Hl; reflexivity);
      try discriminate.
    + destruct (n =? 0)%Z eqn:En; simpl; rewrite ?Hl; simpl; rewrite ?En;
        [intros [= <-]; simpl; rewrite Hl; reflexivity | discriminate].
    + destruct (String.eqb s "") eqn:Es; simpl; rewrite ?Hl; simpl; rewrite ?Es;
        [intros [= <-]; simpl; rewrite Hl; reflexivity | discriminate].
    + rewrite lookup_insert_eq. simpl. intros [= <-]. simpl.
      rewrite lookup_insert_eq. reflexivity.
    + rewrite lookup_insert_eq. simpl. intros [= <-]. simpl.
      rewrite lookup_insert_eq. reflexivity.
  - intros [= <-]. simpl. rewrite Hl. reflexivity.
Qed.

(** X5: whenever the constructor returns, the four functions it
    installed are functions, the state is ['standby'], there are no
    globals and no listener, and the API is built unless it is to be
    rebuilt at every start.  The settings are those of the [conf] option,
    key by key (none when the option is absent), except under [log]:
    there, settings that are an object carry the [defaults] entry and
    what the logger has filled in.  The logger is the one made from the
    [log] settings as they then stand. *)
Theorem constructor_establishes :
  forall (env : Env) (opts : value) (a : App),
    Nodecaf env opts = Normal a ->
    typeof (_apiSpec a) = "function" /\
    typeof (_startup a) = "function" /\
    typeof (_shutdown a) = "function" /\
    typeof (_serverBuilder a) = "function" /\
    state a = standby /\
    global a = None /\
    _server a = None /\
    _api a = (if truthy (_alwaysRebuildAPI a) then None
              else Some {| built_from := _apiSpec a |}) /\
    (forall o layer,
        opts = VObj o -> o !! "conf" = Some (VObj layer) ->
        conf a = log_defaults env (_name a) layer /\
        forall k, k <> "log" -> conf a !! k = layer !! k) /\
    (forall o,
        opts = VObj o -> o !! "conf" = None -> conf a = ∅) /\
    (forall o,
        opts = VObj o ->
        match o !! "conf" with Some (VObj _) | None => True | _ => False end ->
        log a = Some {| settings := default VUndefined (conf a !! "log") |}).
Proof.
  intros env opts a. unfold Nodecaf.
  set (opts' := match opts with VUndefined => VObj ∅ | _ => opts end).
  unfold mbind at 1. unfold completion_bind at 1.
  destruct (validateOpts env opts') as [this|e] eqn:Ev; [|discriminate].
  destruct (validateOpts_functions env opts' this Ev) as (H0 & H1 & H2 & H3 & H4).
  unfold mbind, completion_bind.
  destruct (get opts' "shouldParseBody") as [spb|] eqn:Es; [|discriminate].
  destruct (get opts' "alwaysRebuildAPI") as [ara|] eqn:Ea; [|discriminate].
  destruct (get opts' "conf") as [settings|] eqn:Ec; [|discriminate].
  match goal with
  | |- context [setup env settings ?w0] => set (w0' := w0)
  end.
  destruct (setup env settings w0') as [[[]|e] w] eqn:E; [|discriminate].
  destruct (setup_only_settings env settings _ _ _ E) as [(c & k & l & Ha & Ho) _].
  assert (Hc : (forall o layer, opts = VObj o -> o !! "conf" = Some (VObj layer) ->
                                conf (app w) = log_defaults env (_name (app w)) layer) /\
               (forall o, opts = VObj o -> o !! "conf" = None -> conf (app w) = ∅) /\
               (forall o, opts = VObj o ->
                          match o !! "conf" with Some (VObj _) | None => True | _ => False end ->
                          log (app w)
                          = Some {| settings := default VUndefined (conf (app w) !! "log") |})).
  { split; [|split].
    - intros o layer -> Hl. subst opts'. simpl in Ec. rewrite Hl in Ec. injection Ec as <-.
      rewrite (setup_conf env layer _ _ E). rewrite Ha. subst w0'. cbn.
      rewrite (right_id_L ∅ (∪)). reflexivity.
    - intros o -> Hl. subst opts'. simpl in Ec. rewrite Hl in Ec. injection Ec as <-.
      change (setup env VUndefined w0') with (setup env (VObj ∅) w0') in E.
      rewrite (setup_conf env ∅ _ _ E). subst w0'. cbn.
      rewrite (right_id_L ∅ (∪)). reflexivity.
    - intros o -> Hl. subst opts'. simpl in Ec.
      destruct (o !! "conf") as [[| | | | |layer|]|]; try contradiction;
        simpl in Ec; injection Ec as <-.
      + apply (setup_logger env layer _ _ E).
      + change (setup env VUndefined w0') with (setup env (VObj ∅) w0') in E.
        apply (setup_logger env ∅ _ _ E). }
  destruct Hc as (Hc1 & Hc2 & Hc3).
  assert (Hc1' : forall o layer, opts = VObj o -> o !! "conf" = Some (VObj layer) ->
                   conf (app w) = log_defaults env (_name (app w)) layer /\
                   forall k0, k0 <> "log" -> conf (app w) !! k0 = layer !! k0).
  { intros o layer Ho' Hl. pose proof (Hc1 o layer Ho' Hl) as Hq. split; [exact Hq|].
    intros k0 Hk0. rewrite Hq. apply log_defaults_other. exact Hk0. }
  clear Hc1.
  assert (Hfin : forall b : App,
             conf b = conf (app w) -> log b = log (app w) -> _name b = _name (app w) ->
             (forall o layer, opts = VObj o -> o !! "conf" = Some (VObj layer) ->
                conf b = log_defaults env (_name b) layer /\
                forall k0, k0 <> "log" -> conf b !! k0 = layer !! k0) /\
             (forall o, opts = VObj o -> o !! "conf" = None -> conf b = ∅) /\
             (forall o, opts = VObj o ->
                        match o !! "conf" with Some (VObj _) | None => True | _ => False end ->
                        log b = Some {| settings := default VUndefined (conf b !! "log") |})).
  { intros b -> -> ->. auto. }
  intros [= <-].
  assert (Hrest : forall b : App, b = app w \/ b = with_api (Some {| built_from := _apiSpec (app w) |}) (app w) ->
             typeof (_apiSpec b) = "function" /\
             typeof (_startup b) = "function" /\
             typeof (_shutdown b) = "function" /\
             typeof (_serverBuilder b) = "function" /\
             state b = standby /\ global b = None /\ _server b = None /\
             _alwaysRebuildAPI b = or_else ara (VBool false) /\
             _apiSpec b = v_apiSpec this /\
             conf b = conf (app w) /\ log b = log (app w) /\ _name b = _name (app w)).
  { intros b [-> | ->]; rewrite Ha; subst w0'; cbn; auto 15. }
  destruct (truthy (_alwaysRebuildAPI (app w))) eqn:Et; cbn [negb].
  - destruct (Hrest (app w) (or_introl eq_refl))
      as (R1 & R2 & R3 & R4 & R5 & R6 & R7 & R8 & R9 & R10 & R11 & R12).
    do 7 (split; [assumption|]). split.
    + rewrite Et. rewrite Ha. subst w0'. reflexivity.
    + apply Hfin; assumption.
  - destruct (Hrest _ (or_intror eq_refl))
      as (R1 & R2 & R3 & R4 & R5 & R6 & R7 & R8 & R9 & R10 & R11 & R12).
    do 7 (split; [assumption|]). split.
    + rewrite R8. rewrite Ha in Et. subst w0'. cbn in Et. rewrite Et.
      rewrite Ha. reflexivity.
    + apply Hfin; assumption.
Qed.

Lemma constructor_establishes_witness :
  exists a,
    Nodecaf Samples.env
      (VObj {[ "startup" := VFun (closure "connect");
               "conf" := VObj {[ "port" := VNum 8080; "log" := VObj ∅ ]} ]}) = Normal a /\
    typeof (_startup a) = "function" /\
    conf a !! "port" = Some (VNum 8080) /\
    log a = Some {| settings := default VUndefined (conf a !! "log") |}.
Proof.
  destruct (Nodecaf Samples.env
              (VObj {[ "startup" := VFun (closure "connect");
                       "conf" := VObj {[ "port" := VNum 8080; "log" := VObj ∅ ]} ]}))
    as [a|e] eqn:E; [|vm_compute in E; discriminate].
  exists a. split; [reflexivity|].
  destruct (constructor_establishes Samples.env _ a E)
    as (_ & H2 & _ & _ & _ & _ & _ & _ & Hc & _ & Hl).
  split; [exact H2|]. split.
  - destruct (Hc _ {[ "port" := VNum 8080; "log" := VObj ∅ ]} eq_refl) as [_ Hk];
      [reflexivity|].
    rewrite Hk by discriminate. reflexivity.
  - apply (Hl _ eq_refl). vm_compute. exact I.
Defined.

Lemma validateOpts_accepts (env : Env) (o : gmap string value) :
  misconfigured o = false ->
  exists this, validateOpts env (VObj o) = Normal this.
Proof.
  unfold misconfigured, builders. cbn [existsb]. rewrite orb_false_r.
  intros H. apply orb_false_elim in H as [H1 H]. apply orb_false_elim in H as [H2 H].
  apply orb_false_elim in H as [H3 H4].
  unfold validateOpts, assert. cbn [typeof String.eqb get]. unfold mbind, completion_bind.
  cbn [v_apiSpec v_startup v_shutdown v_serverBuilder].
  rewrite !typeof_or_else, H1, H2, H3, H4. cbn. eexists. reflexivity.
Qed.

Lemma setup_succeeds (env : Env) (layer : gmap string value) (w : World) :
  loggable ((layer ∪ conf (app w)) !! "log") ->
  exists w', setup env (VObj layer) w = (Normal tt, w').
Proof.
  intros Hlog. unfold setup, newLogger. unfold_action. simpl.
  destruct ((layer ∪ conf (app w)) !! "log") as [[| |b|n|s|o|f]|] eqn:Hl; simpl in *;
    rewrite ?Hl; simpl; try (eexists; reflexivity).
  - subst b. simpl. rewrite Hl. simpl. eexists; reflexivity.
  - subst n. simpl. rewrite Hl. simpl. eexists; reflexivity.
  - subst s. simpl. rewrite Hl. simpl. eexists; reflexivity.
  - rewrite lookup_insert_eq. simpl. eexists; reflexivity.
  - rewrite lookup_insert_eq. simpl. eexists; reflexivity.
Qed.

(** X6: the constructor returns for every options object none of
    whose four functions is a truthy non-function, provided the [conf]
    option is absent or an object whose [log] entry is absent, falsy, an
    object or a function. *)
Theorem constructor_accepts :
  forall (env : Env) (o : gmap string value),
    misconfigured o = false ->
    match o !! "conf" with
    | None | Some VUndefined => True
    | Some (VObj layer) => loggable (layer !! "log")
    | Some _ => False
    end ->
    exists a, Nodecaf env (VObj o) = Normal a.
Proof.
  intros env o Hm Hc. unfold Nodecaf.
  destruct (validateOpts_accepts env o Hm) as [this ->].
  cbn [get]. unfold mbind, completion_bind.
  match goal with
  | |- context [setup env ?s ?w0] => set (w0' := w0)
  end.
  assert (Hs : exists w', setup env (default VUndefined (o !! "conf")) w0' = (Normal tt, w')).
  { destruct (o !! "conf") as [[| |b|n|s|layer|f]|]; try contradiction; cbn [default].
    - change (setup env VUndefined w0') with (setup env (VObj ∅) w0').
      apply (setup_succeeds env ∅ w0'). subst w0'. cbn. rewrite (right_id_L ∅ (∪)). exact I.
    - apply (setup_succeeds env layer w0'). subst w0'. cbn. rewrite (right_id_L ∅ (∪)). exact Hc.
    - change (setup env VUndefined w0') with (setup env (VObj ∅) w0').
      apply (setup_succeeds env ∅ w0'). subst w0'. cbn. rewrite (right_id_L ∅ (∪)). exact I. }
  destruct Hs as [w' ->]. eexists. reflexivity.
Qed.

Lemma constructor_accepts_witness :
  exists a, Nodecaf Samples.env Samples.with_database = Normal a.
Proof. apply constructor_accepts; [vm_compute; reflexivity | vm_compute; exact I]. Defined.

(** X7: when the [log] settings that result from the new layer are a
    truthy boolean, number or string, [setup] throws a [TypeError] at
    line 84, half-way: the layer is already laid over the settings and
    the CORS handler renewed, but the logger is still the old one.  The
    constructor given such settings throws the same error. *)
Theorem setup_rejects_primitive_log :
  forall (env : Env) (layer : gmap string value) (w : World) (v : value),
    (layer ∪ conf (app w)) !! "log" = Some v ->
    truthy v = true ->
    primitive v = true ->
    exists msg w',
      setup env (VObj layer) w = (Throw (TypeError msg), w') /\
      conf (app w') = layer ∪ conf (app w) /\
      log (app w') = log (app w) /\
      out w' = out w /\
      (forall o, o !! "conf" = Some (VObj layer) -> conf (app w) = ∅ ->
                 misconfigured o = false ->
                 Nodecaf env (VObj o) = Throw (TypeError msg)).
Proof.
  intros env layer w v Hl Ht Hp.
  eexists _, _. split; [apply (setup_primitive_log env layer w v Hl Ht Hp)|].
  cbn [app conf log out with_cors with_conf]. do 3 (split; [reflexivity|]).
  intros o Ho Hc Hm. rewrite Hc, (right_id_L ∅ (∪)) in Hl.
  unfold Nodecaf. destruct (validateOpts_accepts env o Hm) as [this ->].
  cbn [get]. unfold mbind, completion_bind. rewrite Ho. cbn [default].
  rewrite (setup_primitive_log env layer _ v); [reflexivity | | exact Ht | exact Hp].
  cbn. rewrite (right_id_L ∅ (∪)). exact Hl.
Qed.

Lemma setup_rejects_primitive_log_witness :
  exists msg w',
    setup Samples.env (VObj {[ "log" := VStr "debug" ]}) (Samples.quiet Samples.plain)
    = (Throw (TypeError msg), w') /\
    conf (app w') = {[ "log" := VStr "debug" ]} /\
    log (app w') = log Samples.plain.
Proof.
  destruct (setup_rejects_primitive_log Samples.env {[ "log" := VStr "debug" ]}
              (Samples.quiet Samples.plain) (VStr "debug"))
    as (msg & w' & H1 & H2 & H3 & _); [reflexivity | reflexivity | reflexivity |].
  exists msg, w'. split; [exact H1|]. split; [|exact H3].
  rewrite H2. vm_compute. reflexivity.
Defined.

(** ** Calls with a user hook *)

Transparent call.

Lemma call_closure (env : Env) (name : string) (w : World) :
  call env (VFun (closure name)) w
  = match behaviour env name (app w) with
    | Returns g =>
        (Normal tt, {| app := with_global g (app w);
                       out := out w ++ [Called (VFun (closure name))] |})
    | Fails e g =>
        (Throw (Raised e), {| app := with_global g (app w);
                              out := out w ++ [Called (VFun (closure name))] |})
    end.
Proof.
  unfold call. unfold_action. cbn [app out].
  destruct (behaviour env name (app w)); reflexivity.
Qed.

Opaque call.

Lemma resume_Delayed_closure (env : Env) (name : string) (w : World) :
  _startup (app w) = VFun (closure name) ->
  let a1 := rebuilt (with_global (Some ∅) (app w)) in
  let o1 := out w ++ startup_notice (app w) ++ [Called (VFun (closure name))] in
  resume env Delayed w
  = match behaviour env name a1 with
    | Returns g => (StartingUp, {| app := with_global g a1; out := o1 |})
    | Fails e g => (Settled (Throw (Raised e)), {| app := with_global g a1; out := o1 |})
    end.
Proof.
  intros Hf. simpl. unfold piece, start_delayed, rebuilt, startup_notice.
  unfold_action. simpl. rewrite Hf.
  destruct (truthy (_alwaysRebuildAPI (app w))); simpl; rewrite ?Hf; simpl;
    rewrite call_closure; cbn [app out];
    destruct (behaviour env name _); rewrite <- ?app_assoc; reflexivity.
Qed.

Lemma await_StartingUp (env : Env) (g : option (gmap string value)) (a : App)
      (o : list event) :
  (truthy (conf_port a) = true ->
   refused env (conf_port a)
     (o ++ [TimerSet (default VUndefined (conf a !! "delay"))]
        ++ startup_notice a ++ [Called (_startup a)]) = None) ->
  await env 2 (StartingUp,
               {| app := with_global g (prepared a);
                  out := o ++ [TimerSet (default VUndefined (conf a !! "delay"))]
                           ++ startup_notice a ++ [Called (_startup a)] |})
  = (Settled (Normal (state_value running)),
     {| app := started_app g a; out := o ++ start_trace a |}).
Proof.
  intros Hb. rewrite await_S, resume_StartingUp.
  unfold started_app, start_trace, prepared. cbn [app out].
  destruct (prepared_fields g a) as (Hn & Hv & Hc & Hsrv & _).
  set (a1 := with_global g (rebuilt (with_global (Some ∅) (with_state starting a)))) in *.
  assert (Hp : conf_port a1 = conf_port a) by (unfold conf_port; rewrite Hc; reflexivity).
  rewrite Hp, Hn, Hv.
  destruct (truthy (conf_port a)) eqn:Hport.
  - rewrite (Hb eq_refl).
    rewrite await_S, resume_Binding, await_settled. cbn [app out].
    assert (Hfields : forall l, _name (with_server l a1) = _name a /\
                                _version (with_server l a1) = _version a /\
                                conf_port (with_server l a1) = conf_port a /\
                                _server (with_server l a1) = l).
    { intros l. rewrite <- Hn, <- Hv, <- Hp. destruct a1; simpl; auto. }
    destruct (Hfields (Some {| port := conf_port a; listening := false |}))
      as (-> & -> & -> & ->).
    cbn [port]. rewrite with_server_twice, <- !app_assoc. reflexivity.
  - rewrite await_settled. f_equal. f_equal. rewrite <- !app_assoc. reflexivity.
Qed.

Lemma await_StartingUp_refused (env : Env) (w : World) (e : value) :
  truthy (conf_port (app w)) = true ->
  refused env (conf_port (app w)) (out w) = Some e ->
  await env 2 (StartingUp, w)
  = (Settled (Throw (Raised e)),
     {| app := with_server (Some {| port := conf_port (app w); listening := false |}) (app w);
        out := out w |}).
Proof.
  intros Hport Hr. rewrite await_S, resume_StartingUp, Hport, Hr, await_settled.
  reflexivity.
Qed.

(** X9: [start()] from ['standby'] with a user function as startup
    hook.  The hook is called on the object in state ['starting'], its
    globals emptied and its API rebuilt if need be.  If the hook fails,
    the call rejects with the hook's error; the state stays ['starting'],
    the globals are as the hook left them, and nothing is bound or logged
    after the hook.  If the hook returns and no port is configured, or
    the transport takes the configured port, the call resolves to
    ['running'] with the globals the hook left, the listener bound when
    there is a port.  If the hook returns and the transport refuses the
    port, the call rejects with the transport's error: the state stays
    ['starting'], the globals are as the hook left them, and no listener
    is listening. *)
Theorem start_runs_hook :
  forall (env : Env) (w : World) (name : string),
    state (app w) = standby ->
    _startup (app w) = VFun (closure name) ->
    let asked := out w ++ [TimerSet (default VUndefined (conf (app w) !! "delay"));
                           Logged "debug" "app" "Starting up %s..." [_name (app w)];
                           Called (VFun (closure name))] in
    match behaviour env name (prepared (app w)) with
    | Returns g =>
        match (if truthy (conf_port (app w))
               then refused env (conf_port (app w)) asked
               else None) with
        | None =>
            await env 3 (start w)
            = (Settled (Normal (VStr "running")),
               {| app := started_app g (app w); out := out w ++ start_trace (app w) |})
        | Some e =>
            exists w',
              await env 3 (start w) = (Settled (Throw (Raised e)), w') /\
              state (app w') = starting /\
              global (app w') = g /\
              (forall l, _server (app w') = Some l -> listening l = false) /\
              count is_listen (out w') = count is_listen (out w)
        end
    | Fails e g =>
        await env 3 (start w)
        = (Settled (Throw (Raised e)),
           {| app := with_global g (prepared (app w)); out := asked |})
    end.
Proof.
  intros env w name Hs Hf asked. subst asked.
  rewrite (start_standby w Hs), await_S.
  rewrite (resume_Delayed_closure env name) by exact Hf. cbn [app out].
  assert (Hnote : startup_notice (with_state starting (app w))
                  = [Logged "debug" "app" "Starting up %s..." [_name (app w)]]).
  { unfold startup_notice. cbn. rewrite Hf. reflexivity. }
  assert (Hnote' : startup_notice (app w)
                   = [Logged "debug" "app" "Starting up %s..." [_name (app w)]]).
  { unfold startup_notice. rewrite Hf. reflexivity. }
  fold (prepared (app w)). rewrite Hnote.
  destruct (behaviour env name (prepared (app w))) as [g|e g].
  - assert (H : (truthy (conf_port (app w)) = true ->
                 refused env (conf_port (app w))
                   (out w ++ [TimerSet (default VUndefined (conf (app w) !! "delay"));
                              Logged "debug" "app" "Starting up %s..." [_name (app w)];
                              Called (VFun (closure name))]) = None) ->
                await env 2
                  (StartingUp,
                   {| app := with_global g (prepared (app w));
                      out := (out w ++ [TimerSet (default VUndefined
                                                    (conf (app w) !! "delay"))])
                               ++ [Logged "debug" "app" "Starting up %s..." [_name (app w)];
                                   Called (VFun (closure name))] |})
                = (Settled (Normal (VStr "running")),
                   {| app := started_app g (app w); out := out w ++ start_trace (app w) |})).
    { intros Hb. pose proof (await_StartingUp env g (app w) (out w)) as H.
      rewrite Hnote', Hf in H. rewrite <- !app_assoc. apply H. exact Hb. }
    assert (Hp : conf_port (with_global g (prepared (app w))) = conf_port (app w)).
    { destruct (prepared_fields g (app w)) as (_ & _ & Hc & _).
      unfold conf_port, prepared. rewrite Hc. reflexivity. }
    destruct (truthy (conf_port (app w))) eqn:Hport.
    + destruct (refused env (conf_port (app w)) _) as [e|] eqn:Hr.
      * eexists. split.
        -- apply await_StartingUp_refused; cbn [app out]; rewrite Hp;
             [exact Hport|].
           rewrite <- Hr. f_equal. rewrite <- !app_assoc. reflexivity.
        -- cbn [app out]. split; [|split; [|split]].
           ++ unfold prepared, rebuilt.
              destruct (truthy (_alwaysRebuildAPI _)); reflexivity.
           ++ unfold prepared, rebuilt.
              destruct (truthy (_alwaysRebuildAPI _)); reflexivity.
           ++ intros l. unfold prepared, rebuilt.
              destruct (truthy (_alwaysRebuildAPI _)); cbn; intros [= <-]; reflexivity.
           ++ rewrite !count_app. cbn. lia.
      * apply H. intros _. reflexivity.
    + apply H. discriminate.
  - rewrite await_settled, <- !app_assoc. reflexivity.
Qed.

Lemma start_runs_hook_witness :
  let hooked := Samples.with_startup (VFun (closure "connect")) in
  let w := Samples.quiet (hooked Samples.configured8080) in
  let w_bad := Samples.quiet (hooked (with_conf {[ "port" := VNum 70000 ]} Samples.plain)) in
  (exists w',
      await Samples.env 3 (start w) = (Settled (Normal (VStr "running")), w') /\
      global (app w') = Some {[ "db" := VStr "handle" ]} /\
      _server (app w') = Some {| port := VNum 8080; listening := true |}) /\
  (exists w',
      await Samples.env 3 (start w_bad)
      = (Settled (Throw (Raised (VStr "ERR_SOCKET_BAD_PORT"))), w') /\
      state (app w') = starting /\
      global (app w') = Some {[ "db" := VStr "handle" ]}).
Proof.
  cbv zeta. split.
  - eexists. split.
    + exact (start_runs_hook Samples.env
               (Samples.quiet (Samples.with_startup (VFun (closure "connect"))
                                 Samples.configured8080))
               "connect" eq_refl eq_refl).
    + split; reflexivity.
  - destruct (start_runs_hook Samples.env
                (Samples.quiet (Samples.with_startup (VFun (closure "connect"))
                                  (with_conf {[ "port" := VNum 70000 ]} Samples.plain)))
                "connect" eq_refl eq_refl) as (w' & H1 & H2 & H3 & _).
    exists w'. split; [exact H1|]. split; [exact H2|exact H3].
Defined.

(** X10: [stop()] from ['running'] with a user function as shutdown
    hook.  The hook is called on the object in state ['stopping'], after
    the listener, if there is one, has been told to close.  If the hook
    returns, the call resolves to ['standby'], the globals deleted
    whatever the hook left, the closed listener still held in [_server].
    If it fails, the call rejects with the hook's error, the listener
    closed all the same, the state left at ['stopping'] and ["Stopped"]
    not logged. *)
Theorem stop_runs_hook :
  forall (env : Env) (w : World) (name : string),
    state (app w) = running ->
    _shutdown (app w) = VFun (closure name) ->
    await env 2 (stop env w)
    = match behaviour env name (closing (app w)) with
      | Returns g =>
          (Settled (Normal (VStr "standby")),
           {| app := stopped_app (app w); out := out w ++ stop_trace (app w) |})
      | Fails e g =>
          (Settled (Throw (Raised e)),
           {| app := with_global g (closing (app w));
              out := out w ++ (if _server (app w) is Some _ then [Close] else [])
                           ++ [Called (VFun (closure name))] |})
      end.
Proof.
  intros env w name Hs Hf. unfold stop, piece, stop_enter. unfold_action. rewrite Hs. simpl.
  unfold stop_trace, closing.
  destruct (_server (app w)) as [l|] eqn:Hsrv; unfold close; unfold_action; simpl;
    rewrite Hf, call_closure; cbn [app out];
    destruct (behaviour env name _) as [g|e g]; simpl;
    unfold piece, stop_closed; unfold_action; simpl;
    rewrite <- 1?(stopped_app_eq (app w) g), ?Hsrv, <- ?app_assoc; reflexivity.
Qed.

Lemma stop_runs_hook_witness :
  let w := Samples.quiet (Samples.with_shutdown (VFun (closure "refuse")) Samples.listening8080) in
  exists w',
    await Samples.env 2 (stop Samples.env w)
    = (Settled (Throw (Raised (VStr "no database"))), w') /\
    state (app w') = stopping /\
    _server (app w') = Some {| port := VNum 8080; listening := false |} /\
    out w' = [Close; Called (VFun (closure "refuse"))].
Proof.
  cbv zeta. eexists. split.
  - rewrite (stop_runs_hook Samples.env _ "refuse"); [|reflexivity|reflexivity].
    reflexivity.
  - repeat split; reflexivity.
Defined.

(** ** After a failed hook; nothing exposed in standby *)

Lemma weight_idle (t : Task) : busy t = None -> weight t = 0.
Proof. unfold weight, is_busy. intros ->. reflexivity. Qed.

Lemma wedged_step (env : Env) (s : System) (r : Request) :
  wedged s ->
  wedged (step env s r) /\ state (app (world (step env s r))) = state (app (world s)).
Proof.
  intros [Hs Hu]. unfold wedged.
  assert (Hspawn : forall t' w',
             state (app w') = state (app (world s)) -> busy t' = None ->
             ((state (app (world (spawn (t', w') (tasks s)))) = starting \/
               state (app (world (spawn (t', w') (tasks s)))) = stopping) /\
              underway (tasks (spawn (t', w') (tasks s))) = 0) /\
             state (app (world (spawn (t', w') (tasks s)))) = state (app (world s))).
  { intros t' w' Hst Hb. unfold spawn. cbn [world tasks fst snd].
    rewrite underway_app, (weight_idle t' Hb), Hu, Hst. auto. }
  destruct r as [| |conf|src|i]; cbn [step].
  - destruct (start (world s)) as [t' w'] eqn:E.
    destruct (enter_busy env Start _ _ _ E) as [_ H2]. destruct (H2 Hs) as [Hst Hb].
    apply Hspawn; assumption.
  - destruct (stop env (world s)) as [t' w'] eqn:E.
    destruct (enter_busy env Stop _ _ _ E) as [_ H2]. destruct (H2 Hs) as [Hst Hb].
    apply Hspawn; assumption.
  - unfold restart. destruct (stop env (world s)) as [t' w'] eqn:E.
    destruct (enter_busy env Stop _ _ _ E) as [_ H2]. destruct (H2 Hs) as [Hst Hb].
    apply Hspawn; [assumption | rewrite busy_restarting; assumption].
  - destruct (setup env src (world s)) as [r w'] eqn:E.
    destruct (setup_reconfigured env src _ _ _ E) as [(Hst & _) _].
    cbn [world tasks snd]. rewrite Hst. auto.
  - destruct (tasks s !! i) as [t|] eqn:Ht; [|auto].
    destruct (resume env t (world s)) as [t' w'] eqn:E. cbn [world tasks].
    pose proof (underway_zero _ _ _ Hu Ht) as Hidle. apply is_busy_false in Hidle.
    destruct (resume_busy env t _ _ _ E) as [_ H2];
      [intros op Hop; congruence|].
    destruct (H2 Hidle) as [Hfrom Hsame]. specialize (Hsame Hs).
    assert (Hb' : busy t' = None).
    { destruct (busy t') as [op|] eqn:Hb; [|reflexivity].
      destruct (Hfrom op eq_refl) as [K|K]; destruct Hs as [Hs|Hs]; congruence. }
    pose proof (underway_insert (tasks s) i t t' Ht) as Hins.
    rewrite (weight_idle t Hidle), (weight_idle t' Hb'), Hu in Hins.
    rewrite Hsame. split; [split; [assumption | lia] | reflexivity].
Qed.

Lemma wedged_steps (env : Env) (rs : list Request) :
  forall s, wedged s ->
            wedged (steps env s rs) /\
            state (app (world (steps env s rs))) = state (app (world s)).
Proof.
  induction rs as [|r rs IH]; intros s Hw; [auto|].
  cbn [steps foldl]. destruct (wedged_step env s r Hw) as [Hw' Hst].
  destruct (IH _ Hw') as [Hw'' Hst']. fold (steps env (step env s r) rs).
  split; [exact Hw'' | congruence].
Qed.

(** X11: a hook that fails wedges the application.  After a
    [start()] whose startup hook failed the state is ['starting'], after
    a [stop()] whose shutdown hook failed it is ['stopping'], and it
    stays so for good: whatever calls of [start], [stop], [restart] and
    [setup] follow, and however their pieces interleave, the state never
    changes again and no call gets under way. *)
Theorem hook_failure_wedges :
  forall (env : Env) (w : World) (e : value) (rs : list Request),
    (state (app w) = standby ->
     failing_with env e (_startup (app w)) ->
     let s := steps env {| world := w; tasks := [] |} [CallStart; Resume 0] in
     tasks s = [Settled (Throw (Raised e))] /\
     state (app (world (steps env s rs))) = starting /\
     underway (tasks (steps env s rs)) = 0) /\
    (state (app w) = running ->
     failing_with env e (_shutdown (app w)) ->
     let s := steps env {| world := w; tasks := [] |} [CallStop] in
     tasks s = [Settled (Throw (Raised e))] /\
     state (app (world (steps env s rs))) = stopping /\
     underway (tasks (steps env s rs)) = 0).
Proof.
  intros env w e rs. split.
  - intros Hs Hf. cbv zeta.
    set (s := steps env {| world := w; tasks := [] |} [CallStart; Resume 0]).
    assert (E : tasks s = [Settled (Throw (Raised e))] /\
                state (app (world s)) = starting).
    { subst s. unfold steps. cbn [foldl]. cbn [step world tasks].
      rewrite (start_standby w Hs). unfold spawn. cbn [world tasks fst snd]. simpl (_ !! _).
      destruct Hf as (name & Hname & Hfail).
      match goal with |- context [resume env Delayed ?w1] =>
        destruct (start_delayed_spec env w1 (closure name) Hname) as (r & g & Hr & _ & Hbad)
      end.
      assert (Hthrow : r = Throw (Raised e)) by (apply Hbad; exists name; auto).
      subst r. rewrite Hr. clear Hr. cbn [world tasks].
      split; [reflexivity|]. cbn [world app].
      unfold rebuilt. cbn. destruct (truthy _); reflexivity. }
    destruct E as [Et Es]. split; [exact Et|].
    destruct (wedged_steps env rs s) as [[_ Hu] Hst].
    { split; [left; exact Es | rewrite Et; reflexivity]. }
    split; [congruence | exact Hu].
  - intros Hs Hf. cbv zeta.
    set (s := steps env {| world := w; tasks := [] |} [CallStop]).
    assert (E : tasks s = [Settled (Throw (Raised e))] /\
                state (app (world s)) = stopping).
    { subst s. unfold steps. cbn [foldl]. cbn [step world tasks].
      destruct (stop_running env w Hs) as (t & w1 & Hst & Hst' & _ & _ & _ & _ & Hbad).
      rewrite Hst, (Hbad e Hf). unfold spawn. cbn [world tasks fst snd].
      split; [reflexivity | exact Hst']. }
    destruct E as [Et Es]. split; [exact Et|].
    destruct (wedged_steps env rs s) as [[_ Hu] Hst].
    { split; [right; exact Es | rewrite Et; reflexivity]. }
    split; [congruence | exact Hu].
Qed.

Lemma hook_failure_wedges_witness :
  let w := Samples.quiet (Samples.with_startup (VFun (closure "refuse")) Samples.plain) in
  let s := steps Samples.env {| world := w; tasks := [] |} [CallStart; Resume 0] in
  tasks s = [Settled (Throw (Raised (VStr "no database")))] /\
  state (app (world (steps Samples.env s [CallStop; CallStart; Resume 1; Resume 2; Resume 1])))
  = starting.
Proof.
  cbv zeta.
  destruct (hook_failure_wedges Samples.env
              (Samples.quiet (Samples.with_startup (VFun (closure "refuse")) Samples.plain))
              (VStr "no database") [CallStop; CallStart; Resume 1; Resume 2; Resume 1])
    as [H _].
  destruct H as (H1 & H2 & _).
  - reflexivity.
  - exists "refuse". split; [reflexivity|]. intros a. exists (global a). reflexivity.
  - split; [exact H1 | exact H2].
Defined.

Lemma clean_moving (w : World) :
  state (app w) <> standby -> clean w.
Proof. intros H K. contradiction. Qed.

Lemma enter_clean (env : Env) (op : Op) (w : World) (t' : Task) (w' : World) :
  enter env op w = (t', w') -> clean w -> clean w'.
Proof.
  destruct op; simpl; destruct (state (app w)) eqn:Hs.
  - rewrite (start_standby w Hs). intros [= <- <-] _. apply clean_moving. discriminate.
  - rewrite (start_idle w) by auto. intros [= <- <-]. auto.
  - rewrite (start_idle w) by auto. intros [= <- <-]. auto.
  - rewrite (start_stopping w Hs). intros [= <- <-] _. apply clean_moving.
    cbn [app]. congruence.
  - rewrite (stop_idle env w) by auto. intros [= <- <-]. auto.
  - rewrite (stop_starting env w Hs). intros [= <- <-] _. apply clean_moving.
    cbn [app]. congruence.
  - destruct (stop_running env w Hs) as (t & w1 & Hst & Hst' & _).
    rewrite Hst. intros [= <- <-] _. apply clean_moving. congruence.
  - rewrite (stop_idle env w) by auto. intros [= <- <-]. auto.
Qed.

Lemma setup_clean (env : Env) (src : value) (w : World) (r : completion unit) (w' : World) :
  setup env src w = (r, w') -> clean w -> clean w'.
Proof.
  intros E Hc. destruct (setup_only_settings env src _ _ _ E) as [(c & k & l & Ha & _) _].
  unfold clean in *. rewrite Ha. cbn. exact Hc.
Qed.

Lemma resume_clean (env : Env) (t : Task) :
  forall (w : World) (t' : Task) (w' : World),
    resume env t w = (t', w') ->
    (forall op, busy t = Some op -> state (app w) = during op) ->
    clean w -> clean w'.
Proof.
  induction t as [r| | | | | | |op|inner IH|conf inner IH|inner IH]; intros w t' w' H Hpre Hc.
  - injection H as <- <-. exact Hc.
  - injection H as <- <-. exact Hc.
  - destruct (delayed_kept env w) as (t1 & w1 & Hr & (Hst & _) & Ht).
    rewrite Hr in H. injection H as <- <-. apply clean_moving.
    rewrite Hst, (Hpre Start eq_refl). discriminate.
  - rewrite resume_StartingUp in H. apply clean_moving.
    assert (Hst : state (with_server (Some {| port := conf_port (app w); listening := false |})
                           (app w)) = state (app w)) by (destruct (app w); reflexivity).
    destruct (truthy (conf_port (app w)));
      [destruct (refused env (conf_port (app w)) (out w))|];
      injection H as <- <-; cbn [app]; [| |discriminate];
      rewrite Hst, (Hpre Start eq_refl); discriminate.
  - rewrite resume_Binding in H. injection H as <- <-. apply clean_moving. discriminate.
  - injection H as <- <-. exact Hc.
  - rewrite resume_Closing in H. injection H as <- <-. intros _. reflexivity.
  - simpl in H. destruct (enter env op w) as [t1 w1] eqn:E. injection H as <- <-.
    apply (enter_clean env op w t1 w1 E Hc).
  - simpl in H. destruct (resume env inner w) as [t1 w1] eqn:E. injection H as <- <-.
    apply (IH w t1 w1 E Hpre Hc).
  - assert (Hgen : forall t1 w1, resume env inner w = (t1, w1) ->
              (t', w') = (restarting conf t1, w1) -> clean w').
    { intros t1 w1 E [= -> ->]. apply (IH w t1 w1 E Hpre Hc). }
    destruct inner as [[v|e]| | | | | | | | | |];
      try (simpl in H; simpl resume in Hgen;
           match type of H with
           | (let (_, _) := ?x in _) = _ =>
               destruct x as [t1 w1] eqn:E; apply (Hgen t1 w1 eq_refl); symmetry; exact H
           | _ => apply (Hgen _ _ eq_refl); symmetry; exact H
           end).
    clear Hgen IH. simpl in H. unfold piece in H.
    destruct (restart_stopped env conf w) as [r w2] eqn:E.
    assert (Hreload : forall r1 w1, reload env conf w = (r1, w1) -> clean w1).
    { unfold reload. destruct (String.eqb (typeof conf) "object").
      - unfold mbind, stateful_bind, emit. intros r1 w1 Hre.
        apply (setup_clean env conf _ _ _ Hre). exact Hc.
      - intros r1 w1 [= <- <-]. exact Hc. }
    destruct (restart_stopped_cases env conf w r w2 E)
      as (r1 & w1 & Hre & [(e & -> & -> & ->) | (-> & t & Hstart & ->)]);
      injection H as <- <-.
    + apply (Hreload _ _ Hre).
    + apply (enter_clean env Start w1 t _ Hstart). apply (Hreload _ _ Hre).
  - simpl in H. destruct (resume env inner w) as [t1 w1] eqn:E. injection H as <- <-.
    apply (IH w t1 w1 E Hpre Hc).
Qed.

Lemma step_clean (env : Env) (s : System) (r : Request) :
  exclusive s -> clean (world s) -> clean (world (step env s r)).
Proof.
  intros [_ Hex] Hc. destruct r as [| |conf|src|i]; cbn [step].
  - destruct (start (world s)) as [t' w'] eqn:E. apply (enter_clean env Start _ _ _ E Hc).
  - destruct (stop env (world s)) as [t' w'] eqn:E. apply (enter_clean env Stop _ _ _ E Hc).
  - unfold restart. destruct (stop env (world s)) as [t' w'] eqn:E.
    apply (enter_clean env Stop _ _ _ E Hc).
  - destruct (setup env src (world s)) as [r w'] eqn:E. apply (setup_clean env src _ _ _ E Hc).
  - destruct (tasks s !! i) as [t|] eqn:Ht; [|exact Hc].
    destruct (resume env t (world s)) as [t' w'] eqn:E. cbn [world].
    apply (resume_clean env t _ _ _ E); [|exact Hc].
    intros op Hop. apply (Hex i t op Ht Hop).
Qed.

(** X12: whenever the application is in ['standby'], nothing is
    exposed: from an object for which this holds (a new one), it holds
    after every sequence of calls of [start], [stop], [restart] and
    [setup], however their pieces interleave and whatever the hooks
    do. *)
Theorem standby_exposes_nothing :
  forall (env : Env) (w : World) (rs : list Request),
    (state (app w) = standby -> global (app w) = None) ->
    let s := steps env {| world := w; tasks := [] |} rs in
    state (app (world s)) = standby -> global (app (world s)) = None.
Proof.
  intros env w rs Hc. cbv zeta.
  assert (H : forall s, exclusive s -> clean (world s) ->
                        clean (world (steps env s rs))).
  { induction rs as [|r rs IH]; intros s Hex Hcl; [exact Hcl|].
    cbn [steps foldl]. fold (steps env (step env s r) rs).
    apply IH; [apply exclusive_step; exact Hex | apply step_clean; assumption]. }
  apply (H {| world := w; tasks := [] |}); [apply exclusive_initial | exact Hc].
Qed.

Lemma standby_exposes_nothing_witness :
  let s := steps Samples.env {| world := Samples.quiet Samples.plain; tasks := [] |}
             [CallStart; Resume 0; Resume 0; CallStop; Resume 1; Resume 1] in
  state (app (world s)) = standby /\ global (app (world s)) = None.
Proof.
  cbv zeta. split; [vm_compute; reflexivity|].
  apply (standby_exposes_nothing Samples.env (Samples.quiet Samples.plain)
           [CallStart; Resume 0; Resume 0; CallStop; Resume 1; Resume 1]).
  - reflexivity.
  - vm_compute. reflexivity.
Defined.

(** ** Waiting calls, and the edges of [restart] *)

Lemma retried_pending (t : Task) : pending t -> retried t = Retried t.
Proof. destruct t; simpl; intros H; (contradiction || reflexivity). Qed.

Lemma resume_Retried (env : Env) (t : Task) (w : World) :
  resume env (Retried t) w
  = (retried (fst (resume env t w)), snd (resume env t w)).
Proof. cbn [resume]. destruct (resume env t w); reflexivity. Qed.

Lemma await_retried (env : Env) (n : nat) :
  forall (t : Task) (w : World) (r : completion value) (w' : World),
    await env n (t, w) = (Settled r, w') ->
    await env n (retried t, w) = (passed_on r, w').
Proof.
  induction n as [|n IH]; intros t w r w' H.
  - injection H as -> ->. destruct r; reflexivity.
  - destruct t as [[v0|e]| | | | | | | | | |];
      try (rewrite ?await_settled, ?await_never in H; injection H as <- <-;
           cbn [retried passed_on]; rewrite ?await_settled, ?await_never; reflexivity);
      try (rewrite ?await_settled, ?await_never in H; discriminate);
      (rewrite await_pending in H by exact I;
       rewrite retried_pending by exact I;
       rewrite await_pending by exact I;
       rewrite resume_Retried;
       destruct (resume env _ w) as [t1 w1]; cbn [fst snd];
       apply (IH t1 w1 r w' H)).
Qed.

(** X13: a call that had to wait behind [retryShortly] ends as the
    call made when the timer fires ends, in the same world, if that call
    resolves, and with the same value; if that call rejects, the waiting
    promise is never settled. *)
Theorem retry_passes_resolution_only :
  forall (env : Env) (op : Op) (n : nat) (w : World) (r : completion value) (w' : World),
    await env n (enter env op w) = (Settled r, w') ->
    await env (S n) (Backoff op, w) = (passed_on r, w').
Proof.
  intros env op n w r w' H. rewrite await_pending by exact I. cbn [resume].
  destruct (enter env op w) as [t1 w1]. apply (await_retried env n t1 w1 r w' H).
Qed.

Lemma retry_passes_resolution_only_witness :
  exists w',
    await Samples.env 4 (Backoff Start, Samples.quiet Samples.configured8080)
    = (Settled (Normal (VStr "running")), w').
Proof.
  destruct (await Samples.env 3 (enter Samples.env Start (Samples.quiet Samples.configured8080)))
    as [t w'] eqn:E.
  assert (Ht : t = Settled (Normal (VStr "running")))
    by (apply (f_equal fst) in E; vm_compute in E; congruence).
  subst t. exists w'.
  apply (retry_passes_resolution_only Samples.env Start 3 _ _ _ E).
Defined.

(** X14: [restart(conf)] with something that is not an object
    (nothing, or the path of a settings file, which [setup] would take)
    reloads nothing: when it resolves, the settings are what they were,
    no reload has been logged, and all that happened is a [stop()]
    followed by a [start()]. *)
Theorem restart_skips_reload :
  forall (env : Env) (w : World) (conf' : value) (fuel : nat) (v : value) (w' : World),
    typeof conf' <> "object" ->
    await env fuel (restart env conf' w) = (Settled (Normal v), w') ->
    conf (app w') = conf (app w) /\
    count is_reload (out w') = count is_reload (out w) /\
    exists n1 v1 w1 n2 v2,
      await env n1 (stop env w) = (Settled (Normal v1), w1) /\
      await env n2 (start w1) = (Settled (Normal v2), w').
Proof.
  intros env w c fuel v w' Hty H. unfold restart in H.
  destruct (stop env w) as [t0 w0] eqn:Estop.
  destruct (await_restarting env fuel t0 w0 c v w' H)
    as (n1 & v1 & w1 & w2 & n2 & v2 & H1 & H2 & H3).
  assert (w2 = w1).
  { revert H2. unfold reload. destruct (String.eqb (typeof c) "object") eqn:E.
    - apply String.eqb_eq in E. contradiction.
    - intros [= <-]. reflexivity. }
  subst w2.
  destruct (enter_plain env Stop w t0 w0 Estop) as [Hp0 (Kc0 & Kn0 & Kr0)].
  destruct (await_plain env n1 t0 w0 _ w1 Hp0 H1) as [_ (Kc1 & Kn1 & Kr1)].
  destruct (start w1) as [t2 w3] eqn:Estart.
  destruct (enter_plain env Start w1 t2 w3 Estart) as [Hp2 (Kc2 & Kn2 & Kr2)].
  destruct (await_plain env n2 t2 w3 _ w' Hp2 H3) as [_ (Kc3 & Kn3 & Kr3)].
  split; [congruence|]. split; [congruence|].
  exists n1, v1, w1, n2, v2. rewrite Estart. auto.
Qed.

Lemma restart_skips_reload_witness :
  exists w',
    await Samples.env 6 (restart Samples.env (VStr "./conf.toml")
                           (Samples.quiet Samples.listening8080))
    = (Settled (Normal VUndefined), w') /\
    conf (app w') = conf Samples.listening8080 /\
    count is_reload (out w') = 0.
Proof.
  destruct (await Samples.env 6 (restart Samples.env (VStr "./conf.toml")
                                   (Samples.quiet Samples.listening8080)))
    as [t w'] eqn:E.
  assert (Ht : t = Settled (Normal VUndefined))
    by (apply (f_equal fst) in E; vm_compute in E; congruence).
  subst t. exists w'. split; [reflexivity|].
  assert (Hty : typeof (VStr "./conf.toml") <> "object") by discriminate.
  destruct (restart_skips_reload Samples.env _ _ _ _ _ Hty E) as (H1 & H2 & _).
  split; [exact H1 | exact H2].
Defined.

Lemma restarting_rejects (env : Env) (conf : value) (n1 : nat) :
  forall (t : Task) (w : World) (v1 : value) (w1 : World) (e : error) (w' : World),
    await env n1 (t, w) = (Settled (Normal v1), w1) ->
    piece (restart_stopped env conf) w1 = (Settled (Throw e), w') ->
    await env (S n1) (restarting conf t, w) = (Settled (Throw e), w').
Proof.
  assert (Hdone : forall k w v1 e w',
             piece (restart_stopped env conf) w = (Settled (Throw e), w') ->
             await env (S k) (Restarting conf (Settled (Normal v1)), w)
             = (Settled (Throw e), w')).
  { intros k w v1 e w' Hp. rewrite await_pending by exact I. cbn [resume].
    rewrite Hp. apply await_settled. }
  induction n1 as [|n IH]; intros t w v1 w1 e w' H1 H2.
  - injection H1 as -> ->. apply (Hdone 0 _ _ _ _ H2).
  - destruct t as [[v0|e0]| | | | | | | | | |];
      try (rewrite ?await_settled, ?await_never in H1; discriminate).
    1: { rewrite await_settled in H1. injection H1 as <- <-.
         apply (Hdone (S n) _ _ _ _ H2). }
    all: rewrite await_pending in H1 by exact I;
      rewrite restarting_pending by exact I;
      rewrite await_pending, resume_Restarting by exact I;
      destruct (resume env _ w) as [t1 w0]; cbn [fst snd];
      apply (IH t1 w0 v1 w1 e w' H1 H2).
Qed.

(** X15: [restart] on a running server with settings that [setup]
    refuses (truthy primitive [log] settings) rejects with the
    [TypeError] of [setup] after the server has been stopped: the state
    is left at ['standby'], the reload is logged, the layer is laid, and
    the server is not started again. *)
Theorem restart_refused_settings :
  forall (env : Env) (w : World) (layer : gmap string value) (v : value),
    state (app w) = running ->
    obliging env (_shutdown (app w)) ->
    (layer ∪ conf (app w)) !! "log" = Some v ->
    truthy v = true ->
    primitive v = true ->
    exists msg w',
      await env 3 (restart env (VObj layer) w) = (Settled (Throw (TypeError msg)), w') /\
      state (app w') = standby /\
      conf (app w') = layer ∪ conf (app w) /\
      out w' = out w ++ stop_trace (app w) ++ [Logged "debug" "app" "Reloaded settings" []].
Proof.
  intros env w layer v Hs Ho Hl Ht Hp. unfold restart.
  pose proof (stop_completes env w Hs Ho) as Hstop.
  destruct (stop env w) as [t0 w0] eqn:Estop.
  destruct (stopped_app_fields (app w)) as (Hc & Hst & _).
  set (w1 := {| app := stopped_app (app w); out := out w ++ stop_trace (app w) |}) in *.
  assert (Hrl : reload env (VObj layer) w1
               = (Throw (TypeError "Cannot create property"),
                  {| app := with_cors (Some (default VUndefined ((layer ∪ conf (app w)) !! "cors")))
                              (with_conf (layer ∪ conf (app w)) (stopped_app (app w)));
                     out := (out w ++ stop_trace (app w))
                            ++ [Logged "debug" "app" "Reloaded settings" []] |})).
  { unfold reload. cbn [typeof String.eqb Ascii.eqb Bool.eqb].
    unfold mbind, stateful_bind, emit. subst w1. cbn [app out].
    rewrite (setup_primitive_log env layer _ v); cbn [app out]; rewrite ?Hc; try assumption.
    reflexivity. }
  assert (Hre : exists msg w',
             piece (restart_stopped env (VObj layer)) w1 = (Settled (Throw (TypeError msg)), w') /\
             state (app w') = standby /\
             conf (app w') = layer ∪ conf (app w) /\
             out w' = out w ++ stop_trace (app w) ++ [Logged "debug" "app" "Reloaded settings" []]).
  { unfold piece, restart_stopped. unfold mbind at 1. unfold stateful_bind at 1.
    rewrite Hrl. eexists _, _. split; [reflexivity|]. cbn [app out].
    split; [|split; [reflexivity|rewrite <- app_assoc; reflexivity]].
    rewrite <- Hst. destruct (stopped_app (app w)); reflexivity. }
  destruct Hre as (msg & w' & Hre & Hfacts). exists msg, w'. split; [|exact Hfacts].
  apply (restarting_rejects env (VObj layer) 2 t0 w0 _ w1 _ w' Hstop Hre).
Qed.

Lemma restart_refused_settings_witness :
  exists msg w',
    await Samples.env 3 (restart Samples.env (VObj {[ "log" := VStr "verbose" ]})
                           (Samples.quiet Samples.listening8080))
    = (Settled (Throw (TypeError msg)), w') /\
    state (app w') = standby.
Proof.
  destruct (restart_refused_settings Samples.env (Samples.quiet Samples.listening8080)
              {[ "log" := VStr "verbose" ]} (VStr "verbose"))
    as (msg & w' & H1 & H2 & _);
    [reflexivity | exact I | reflexivity | reflexivity | reflexivity |].
  exists msg, w'. split; [exact H1 | exact H2].
Defined.

(** ** [call] *)

Lemma input_other (a : App) (k : string) :
  k <> "conf" -> k <> "log" ->
  Methods.input a !! k = Methods.Exposed <$> (default ∅ (global a) !! k).
Proof.
  intros H1 H2. unfold Methods.input.
  rewrite !lookup_insert_ne by congruence. apply lookup_fmap.
Qed.

(** X16: what a function run through [call] is handed.  Its first
    argument holds the settings under [conf] and the logger under [log],
    whatever the globals are, and every other key as the globals have
    it; the remaining arguments are passed as they are.  After a [stop()]
    that ran to its end only [conf] and [log] are there; after a
    [start()] that ran to its end, what the startup hook left. *)
Theorem call_hands_over :
  forall (a : App) (args : list value) (k : string),
    Methods.call (fun m _ => m !! "conf") args a = Some (Methods.Settings (conf a)) /\
    Methods.call (fun m _ => m !! "log") args a = Some (Methods.TheLogger (log a)) /\
    Methods.call (fun _ rest => rest) args a = args /\
    (k <> "conf" -> k <> "log" ->
     Methods.call (fun m _ => m !! k) args a
     = Methods.Exposed <$> (default ∅ (global a) !! k) /\
     Methods.call (fun m _ => m !! k) args (stopped_app a) = None /\
     forall g, Methods.call (fun m _ => m !! k) args (started_app g a)
               = Methods.Exposed <$> (default ∅ g !! k)).
Proof.
  intros a args k. unfold Methods.call.
  split; [|split; [|split; [reflexivity|]]].
  - unfold Methods.input. rewrite lookup_insert_ne by discriminate. apply lookup_insert_eq.
  - unfold Methods.input. apply lookup_insert_eq.
  - intros H1 H2. split; [apply input_other; assumption|]. split.
    + rewrite input_other by assumption. unfold stopped_app. cbn. reflexivity.
    + intros g. rewrite input_other by assumption. unfold started_app.
      destruct (truthy (conf_port a)); cbn; reflexivity.
Qed.

Lemma call_hands_over_witness :
  Methods.call (fun m _ => m !! "db") [] (started_app (Some {[ "db" := VStr "handle" ]}) Samples.plain)
  = Some (Methods.Exposed (VStr "handle")) /\
  Methods.call (fun m _ => m !! "db") [] (stopped_app Samples.headless) = None.
Proof.
  destruct (call_hands_over Samples.plain [] "db") as (_ & _ & _ & H).
  destruct H as (_ & _ & H3); [discriminate | discriminate |].
  split; [rewrite H3; reflexivity|].
  destruct (call_hands_over Samples.headless [] "db") as (_ & _ & _ & H).
  destruct H as (_ & H2 & _); [discriminate | discriminate | exact H2].
Defined.

(** ** Starting and stopping in turn *)

Lemma startup_notice_no_close (a : App) : count is_close (startup_notice a) = 0.
Proof. unfold startup_notice. destruct (_startup a) as [| | | | | |[]]; reflexivity. Qed.

Lemma cycle_spec (env : Env) (w : World) :
  state (app w) = standby ->
  obliging env (_startup (app w)) ->
  obliging env (_shutdown (app w)) ->
  bindable env (app w) ->
  let bound := if truthy (conf_port (app w)) then 1 else 0 in
  let held := if _server (app w) is Some _ then 1 else 0 in
  state (app (cycle env w)) = standby /\
  global (app (cycle env w)) = None /\
  conf (app (cycle env w)) = conf (app w) /\
  _startup (app (cycle env w)) = _startup (app w) /\
  _shutdown (app (cycle env w)) = _shutdown (app w) /\
  (truthy (conf_port (app w)) = true ->
   _server (app (cycle env w)) = Some {| port := conf_port (app w); listening := false |}) /\
  (truthy (conf_port (app w)) = false ->
   _server (app (cycle env w))
   = match _server (app w) with
     | Some l => Some {| port := port l; listening := false |}
     | None => None
     end) /\
  count is_listen (out (cycle env w)) = count is_listen (out w) + bound /\
  count is_close (out (cycle env w)) = count is_close (out w) + Nat.max bound held.
Proof.
  intros Hs Hup Hdown Hb. cbv zeta. unfold cycle.
  destruct (start_completes env w Hs Hup Hb) as [g Hstart]. rewrite Hstart. cbn [snd].
  destruct (started_app_fields g (app w)) as (Hc & Hst & Hno & Hyes).
  assert (Hhooks : _startup (started_app g (app w)) = _startup (app w) /\
                   _shutdown (started_app g (app w)) = _shutdown (app w)).
  { unfold started_app, rebuilt.
    destruct (truthy (conf_port (app w))), (truthy (_alwaysRebuildAPI _)); cbn; auto. }
  destruct Hhooks as [Hu Hd].
  rewrite stop_completes; cbn [app out]; [|exact Hst | rewrite Hd; exact Hdown].
  cbn [snd app out].
  set (a1 := started_app g (app w)) in *.
  assert (Hfields : state (stopped_app a1) = standby /\
                    global (stopped_app a1) = None /\
                    conf (stopped_app a1) = conf a1 /\
                    _startup (stopped_app a1) = _startup a1 /\
                    _shutdown (stopped_app a1) = _shutdown a1 /\
                    _server (stopped_app a1)
                    = match _server a1 with
                      | Some l => Some {| port := port l; listening := false |}
                      | None => None
                      end).
  { unfold stopped_app. destruct (_server a1) eqn:E; cbn; rewrite ?E; auto 10. }
  destruct Hfields as (F1 & F2 & F3 & F4 & F5 & F6).
  rewrite F1, F2, F3, F4, F5, F6, Hc, Hu, Hd.
  do 5 (split; [reflexivity|]).
  split; [intros Hp; rewrite (Hyes Hp); reflexivity|].
  split; [intros Hp; rewrite (Hno Hp); reflexivity|].
  rewrite !count_app. unfold start_trace, stop_trace. rewrite !count_app.
  rewrite startup_notice_no_listen, startup_notice_no_close.
  destruct (truthy (conf_port (app w))) eqn:Hp.
  - rewrite (Hyes eq_refl). unfold count. cbn. destruct (_server (app w)); cbn; lia.
  - rewrite (Hno eq_refl). unfold count. cbn. destruct (_server (app w)); cbn; lia.
Qed.

(** X17: with hooks that return and a configured port that the
    transport takes whenever it is asked, [start()] and [stop()] can be
    called in turn any number of times: every round ends in ['standby']
    with the settings untouched, the globals deleted and the listener of
    that round closed but still held, and every round binds one listener
    and closes one. *)
Theorem start_stop_repeat :
  forall (env : Env) (w : World) (n : nat),
    state (app w) = standby ->
    obliging env (_startup (app w)) ->
    obliging env (_shutdown (app w)) ->
    truthy (conf_port (app w)) = true ->
    taken env (conf_port (app w)) ->
    let w' := Nat.iter n (cycle env) w in
    state (app w') = standby /\
    conf (app w') = conf (app w) /\
    (0 < n ->
     global (app w') = None /\
     _server (app w') = Some {| port := conf_port (app w); listening := false |}) /\
    count is_listen (out w') = count is_listen (out w) + n /\
    count is_close (out w') = count is_close (out w) + n.
Proof.
  intros env w n Hs Hup Hdown Hp Htk. cbv zeta.
  assert (Inv : state (app (Nat.iter n (cycle env) w)) = standby /\
                conf (app (Nat.iter n (cycle env) w)) = conf (app w) /\
                _startup (app (Nat.iter n (cycle env) w)) = _startup (app w) /\
                _shutdown (app (Nat.iter n (cycle env) w)) = _shutdown (app w) /\
                (0 < n ->
                 global (app (Nat.iter n (cycle env) w)) = None /\
                 _server (app (Nat.iter n (cycle env) w))
                 = Some {| port := conf_port (app w); listening := false |}) /\
                count is_listen (out (Nat.iter n (cycle env) w)) = count is_listen (out w) + n /\
                count is_close (out (Nat.iter n (cycle env) w)) = count is_close (out w) + n).
  { induction n as [|n IH].
    - cbn. split; [exact Hs|]. do 3 (split; [reflexivity|]). split; [lia|]. split; lia.
    - change (Nat.iter (S n) (cycle env) w) with (cycle env (Nat.iter n (cycle env) w)).
      destruct IH as (I1 & I2 & I3 & I4 & I5 & I6 & I7).
      set (wn := Nat.iter n (cycle env) w) in *.
      assert (Hport : conf_port (app wn) = conf_port (app w))
        by (unfold conf_port; rewrite I2; reflexivity).
      destruct (cycle_spec env wn I1) as (C1 & C2 & C3 & C4 & C5 & C6 & _ & C8 & C9);
        [rewrite I3; exact Hup | rewrite I4; exact Hdown
         | intros _; rewrite Hport; exact Htk |].
      rewrite Hport in C6, C8, C9. rewrite Hp in C6, C8, C9.
      split; [exact C1|]. split; [rewrite C3; exact I2|].
      split; [rewrite C4; exact I3|]. split; [rewrite C5; exact I4|].
      split; [intros _; split; [exact C2 | apply C6; reflexivity]|].
      split; [lia|]. rewrite C9, I7. destruct (_server (app wn)); cbn; lia. }
  destruct Inv as (I1 & I2 & _ & _ & I5 & I6 & I7). auto.
Qed.

Lemma start_stop_repeat_witness :
  let w' := Nat.iter 3 (cycle Samples.env) (Samples.quiet Samples.configured8080) in
  state (app w') = standby /\
  count is_listen (out w') = 3 /\
  count is_close (out w') = 3.
Proof.
  cbv zeta.
  destruct (start_stop_repeat Samples.env (Samples.quiet Samples.configured8080) 3)
    as (H1 & _ & _ & H4 & H5);
    [reflexivity | exact I | exact I | reflexivity | intros h; reflexivity |].
  split; [exact H1|]. split; [exact H4 | exact H5].
Defined.

(** ** The earlier class: [start] and [stop] *)

Ltac unfold_earlier :=
  unfold mbind, mret, stateful_bind, stateful_ret, Earlier.read, Earlier.modify,
    Earlier.emit, lift, skip in *.

Lemma earlier_call_spec (env : Earlier.Env) (f : value) (w : Earlier.World) :
  exists r,
    Earlier.call env f w
    = (r, {| Earlier.app := Earlier.app w; Earlier.out := Earlier.out w ++ [Earlier.Called f] |}) /\
    (harmless env f -> r = Normal tt).
Proof.
  destruct w as [a o]. unfold Earlier.call. unfold_earlier. simpl.
  destruct f as [| |b|n|s|m|[| |name]]; simpl;
    try solve [eexists; split; [reflexivity | intros []]];
    try solve [eexists; split; [reflexivity | reflexivity]].
  destruct (Earlier.failing env name a) as [e|] eqn:Hf.
  - eexists. split; [reflexivity|]. intros H. rewrite H in Hf. discriminate.
  - eexists. split; [reflexivity | reflexivity].
Qed.

Opaque Earlier.call.

Lemma earlier_start_spec (env : Earlier.Env) (a : Earlier.App) (o : list Earlier.event) :
  Earlier.running a = Earlier.Off ->
  Earlier.stopped a <> Earlier.Pending ->
  Earlier.alwaysRebuildAPI a = VUndefined ->
  (exists f, Earlier._startup a = VFun f) ->
  exists r,
    Earlier.start env {| Earlier.app := a; Earlier.out := o |}
    = match r with
      | Normal _ =>
          (Earlier.This,
           {| Earlier.app := earlier_started a; Earlier.out := o ++ earlier_start_trace a |})
      | Throw e =>
          (Earlier.Rejected e,
           {| Earlier.app := Earlier.with_running Earlier.Pending a;
              Earlier.out := o ++ earlier_notice a ++ [Earlier.Called (Earlier._startup a)] |})
      end /\
    (harmless env (Earlier._startup a) -> r = Normal tt).
Proof.
  intros Hrun Hstop Hre [f Hf]. unfold Earlier.start. cbn [Earlier.app]. rewrite Hrun.
  cbn [Earlier.latched].
  assert (Hbody : exists r,
             Earlier.start_body env {| Earlier.app := a; Earlier.out := o |}
             = (r, match r with
                   | Normal _ => {| Earlier.app := earlier_started a;
                                    Earlier.out := o ++ earlier_start_trace a |}
                   | Throw _ => {| Earlier.app := Earlier.with_running Earlier.Pending a;
                                   Earlier.out := o ++ earlier_notice a
                                                    ++ [Earlier.Called (Earlier._startup a)] |}
                   end) /\
             (harmless env (Earlier._startup a) -> r = Normal tt)).
  { unfold Earlier.start_body, earlier_start_trace, earlier_notice, earlier_started.
    unfold_earlier. cbn [Earlier.app Earlier.out]. simpl. rewrite ?Hre. simpl.
    rewrite ?Hf.
    destruct f as [| |name]; simpl;
      (match goal with |- context [Earlier.call env ?f ?w] =>
        destruct (earlier_call_spec env f w) as (r & Hc & Hok); rewrite Hc; clear Hc
      end);
      (destruct r as [[]|e]; simpl; [exists (Normal tt) | exists (Throw e)]);
      (split; [rewrite <- ?app_assoc; reflexivity | intros H; auto]). }
  destruct Hbody as (r & Hb & Hok). exists r. rewrite Hb.
  split; [|exact Hok].
  destruct (Earlier.stopped a); [ | contradiction | ]; destruct r as [[]|e]; reflexivity.
Qed.

Lemma lifted_start_spec (env : Earlier.Env) (r : EarlierLife.Run) :
  startable (EarlierLife.obj r) ->
  let a := EarlierLife.obj r in
  exists c,
    EarlierLife.start env r
    = match c with
      | Normal _ =>
          (Earlier.This,
           {| EarlierLife.obj := earlier_started a;
              EarlierLife.done := EarlierLife.done r
                                  ++ map EarlierLife.Did (earlier_start_trace a) |})
      | Throw e =>
          (Earlier.Rejected e,
           {| EarlierLife.obj := Earlier.with_running Earlier.Pending a;
              EarlierLife.done :=
                EarlierLife.done r
                ++ map EarlierLife.Did
                     (earlier_notice a ++ [Earlier.Called (Earlier._startup a)]) |})
      end /\
    (harmless env (Earlier._startup a) -> c = Normal tt).
Proof.
  intros (H1 & H2 & H3 & H4). cbv zeta. unfold EarlierLife.start.
  destruct (earlier_start_spec env _ [] H1 H2 H3 H4) as (c & Hc & Hok).
  exists c. rewrite Hc. split; [|exact Hok].
  destruct c as [[]|e]; reflexivity.
Qed.

(** X18: [start()] of the earlier class works once.  On an object
    that is not running it either runs to its end or rejects; either way
    the next [start()] answers [false] and does nothing.  After a
    rejected start on an object never stopped, [stop()] answers [false]
    too and [restart()] resolves having done nothing: the object can no
    longer be started. *)
Theorem earlier_start_is_one_shot :
  forall (env : Earlier.Env) (r : EarlierLife.Run),
    startable (EarlierLife.obj r) ->
    let ans := fst (EarlierLife.start env r) in
    let r1 := snd (EarlierLife.start env r) in
    (ans = Earlier.This \/ exists e, ans = Earlier.Rejected e) /\
    EarlierLife.start env r1 = (Earlier.Answered (VBool false), r1) /\
    (forall e,
        ans = Earlier.Rejected e ->
        Earlier.running (EarlierLife.obj r1) = Earlier.Pending /\
        Earlier.stopped (EarlierLife.obj r1) = Earlier.stopped (EarlierLife.obj r) /\
        (Earlier.stopped (EarlierLife.obj r) = Earlier.Resolved ->
         EarlierLife.stop env r1 = (Earlier.Answered (VBool false), r1) /\
         forall conf, typeof conf <> "object" ->
                      EarlierLife.restart env conf r1 = (Earlier.Answered VUndefined, r1))).
Proof.
  intros env r Hst. cbv zeta.
  assert (Hagain : forall r1,
             Earlier.latched (Earlier.running (EarlierLife.obj r1)) = true ->
             EarlierLife.start env r1 = (Earlier.Answered (VBool false), r1)).
  { intros [a1 d1] Hr. unfold EarlierLife.start, Earlier.start. cbn in *. rewrite Hr.
    cbn. rewrite app_nil_r. reflexivity. }
  destruct (lifted_start_spec env r Hst) as (c & Hc & _). rewrite Hc.
  destruct c as [[]|e]; cbn [fst snd].
  - split; [left; reflexivity|]. split; [apply Hagain; reflexivity|]. intros e [=].
  - split; [right; eauto|].
    split; [apply Hagain; reflexivity|].
    intros e' _. split; [reflexivity|]. split; [reflexivity|].
    intros Hres.
    assert (Hstop : forall r1,
               Earlier.stopped (EarlierLife.obj r1) = Earlier.Resolved ->
               EarlierLife.stop env r1 = (Earlier.Answered (VBool false), r1)).
    { intros r1 Hr. unfold EarlierLife.stop. rewrite Hr. reflexivity. }
    split; [apply Hstop; exact Hres|].
    intros conf Hty. unfold EarlierLife.restart. rewrite Hstop by exact Hres.
    unfold EarlierLife.reload.
    destruct (String.eqb (typeof conf) "object") eqn:E;
      [apply String.eqb_eq in E; contradiction|].
    cbn [skip mret stateful_ret]. rewrite Hagain by reflexivity. reflexivity.
Qed.

Lemma earlier_start_is_one_shot_witness :
  let r := {| EarlierLife.obj := Samples.secured; EarlierLife.done := [] |} in
  let r1 := snd (EarlierLife.start Samples.earlier_env r) in
  fst (EarlierLife.start Samples.earlier_env r) = Earlier.This /\
  EarlierLife.start Samples.earlier_env r1 = (Earlier.Answered (VBool false), r1).
Proof.
  cbv zeta. split; [vm_compute; reflexivity|].
  apply (earlier_start_is_one_shot Samples.earlier_env
           {| EarlierLife.obj := Samples.secured; EarlierLife.done := [] |}).
  split; [reflexivity|]. split; [discriminate|]. split; [reflexivity|].
  exists noop. reflexivity.
Defined.



(** ** The earlier class: settings, setters and [restart] *)

Lemma settled_port_truthy (c : gmap string value) : truthy (settled_port c) = true.
Proof.
  unfold settled_port, or_else.
  destruct (truthy (default VUndefined (c !! "port"))) eqn:E; [exact E|].
  destruct (truthy (default VUndefined (c !! "ssl"))); reflexivity.
Qed.

Lemma earlier_setup_conf (env : Earlier.Env) (layer : gmap string value)
      (w w' : Earlier.World) :
  Earlier.setup env (VObj layer) w = (Normal tt, w') ->
  let c := layer ∪ Earlier.conf (Earlier.app w) in
  Earlier.conf (Earlier.app w') = <["port" := settled_port c]> c /\
  (is_Some (Earlier._ssl (Earlier.app w'))
   <-> truthy (default VUndefined (c !! "ssl")) = true).
Proof.
  cbv zeta. unfold Earlier.setup, Earlier.addLayer, settled_port.
  unfold_earlier. simpl.
  destruct (truthy (default VUndefined ((layer ∪ Earlier.conf (Earlier.app w)) !! "ssl")))
    eqn:Hssl; simpl.
  - destruct (get _ "key") as [kp|e]; simpl; [|discriminate].
    destruct (Earlier.readFileSync env kp) as [k|e]; simpl; [|discriminate].
    destruct (get _ "cert") as [cp|e]; simpl; [|discriminate].
    destruct (Earlier.readFileSync env cp) as [ct|e]; simpl; [|discriminate].
    destruct (truthy (Earlier.alwaysRebuildAPI (Earlier.app w))); simpl.
    + match goal with |- context [Earlier.call env ?f ?w0] =>
        destruct (earlier_call_spec env f w0) as (r & Hc & _); rewrite Hc; clear Hc
      end.
      intros [= -> <-]. simpl. split; [reflexivity|]. split; eauto.
    + intros [= <-]. simpl. split; [reflexivity|]. split; eauto.
  - destruct (truthy (Earlier.alwaysRebuildAPI (Earlier.app w))); simpl.
    + match goal with |- context [Earlier.call env ?f ?w0] =>
        destruct (earlier_call_spec env f w0) as (r & Hc & _); rewrite Hc; clear Hc
      end.
      intros [= -> <-]. simpl. split; [reflexivity|].
      split; [intros [x Hx]; discriminate | discriminate].
    + intros [= <-]. simpl. split; [reflexivity|].
      split; [intros [x Hx]; discriminate | discriminate].
Qed.

(** X20: in the earlier class every [setup] that returns leaves a
    truthy port in the settings: the one configured when it is truthy,
    else 443 with [ssl] settings and 80 without, so that a configured
    port 0 is replaced as well; and it holds key and certificate exactly
    when [ssl] settings are there.  So does construction. *)
Theorem earlier_port_always_set :
  forall (env : Earlier.Env) (layer : gmap string value) (w w' : Earlier.World),
    Earlier.setup env (VObj layer) w = (Normal tt, w') ->
    let c := layer ∪ Earlier.conf (Earlier.app w) in
    Earlier.conf (Earlier.app w') = <["port" := settled_port c]> c /\
    truthy (settled_port c) = true /\
    (is_Some (Earlier._ssl (Earlier.app w')) <-> truthy (default VUndefined (c !! "ssl")) = true) /\
    (forall a,
        Earlier.Nodecaf env (VObj layer) = Normal a ->
        Earlier.conf a !! "port" = Some (settled_port layer)).
Proof.
  intros env layer w w' H. cbv zeta.
  destruct (earlier_setup_conf env layer w w' H) as [Hc Hs].
  split; [exact Hc|]. split; [apply settled_port_truthy|]. split; [exact Hs|].
  intros a. unfold Earlier.Nodecaf.
  match goal with |- context [Earlier.setup env _ ?w0] =>
    destruct (Earlier.setup env (VObj layer) w0) as [[[]|e] w1] eqn:E; [|discriminate]
  end.
  intros [= <-]. destruct (earlier_setup_conf env layer _ w1 E) as [Hc1 _].
  rewrite Hc1. cbn [Earlier.app Earlier.conf]. rewrite (right_id_L ∅ (∪)).
  apply lookup_insert_eq.
Qed.

Lemma earlier_port_always_set_witness :
  exists w',
    Earlier.setup Samples.earlier_env (VObj {[ "port" := VNum 0 ]})
      {| Earlier.app := Samples.secured; Earlier.out := [] |} = (Normal tt, w') /\
    Earlier.conf (Earlier.app w') !! "port" = Some (VNum 443).
Proof.
  destruct (Earlier.setup Samples.earlier_env (VObj {[ "port" := VNum 0 ]})
              {| Earlier.app := Samples.secured; Earlier.out := [] |}) as [r w'] eqn:E.
  assert (Hr : r = Normal tt) by (apply (f_equal fst) in E; vm_compute in E; congruence).
  subst r. exists w'. split; [reflexivity|].
  destruct (earlier_port_always_set Samples.earlier_env _ _ _ E) as (H & _).
  rewrite H. vm_compute. reflexivity.
Defined.








